(** * nokia/nbf: decoding of Nokia backup (NBF) message files

    A shallow embedding of [nokia/nbf/message.go] and the properties of
    its decoders: file name parsing, the DOS time stamp, the SMS-DELIVER
    TPDU (address, time stamp, user data, concatenation header), septet
    unpacking and the container-level message parser.

    Bytes and Go integers are [Z]; a narrowing conversion writes its
    wrap-around out.  A run-time panic of the Go program (index or slice
    bounds out of range, an explicit [panic]) is a value of the result
    type, so that "returns an error" and "crashes" are told apart. *)

From Stdlib Require Import ZArith List Bool Lia Ascii String.
From Equations Require Import Equations.
Import ListNotations.

Local Open Scope Z_scope.

(* ===================================================================== *)
(** ** The Go run time that the package relies on                        *)
(* ===================================================================== *)

Module Go.

(** What a goroutine can die of in this package. *)
Inductive panic : Type :=
| index_out_of_range
| slice_bounds_out_of_range
| explicit_panic (msg : string).

(** Outcome of running a Go function: it returns, or it panics. *)
Inductive res (A : Type) : Type :=
| Ok (a : A)
| Panic (p : panic).
Arguments Ok {A} a.
Arguments Panic {A} p.

Definition bind {A B} (c : res A) (k : A -> res B) : res B :=
  match c with
  | Ok a => k a
  | Panic p => Panic p
  end.

Definition returns {A} (c : res A) : bool :=
  match c with Ok _ => true | Panic _ => false end.

Definition panics {A} (c : res A) : bool := negb (returns c).

(** Go's [error] values, as far as this package produces them. *)
Inductive num_err : Type := ErrSyntax | ErrRange.

Inductive error : Type :=
| NumError (func : string) (num : string) (err : num_err)
| Errorf (msg : string).

(** *** Fixed-width integers *)

Definition uint8 (x : Z) : Z := x mod 2 ^ 8.
Definition uint16 (x : Z) : Z := x mod 2 ^ 16.
Definition uint32 (x : Z) : Z := x mod 2 ^ 32.

Definition is_byte (b : Z) : Prop := 0 <= b < 256.
Definition bytes (l : list Z) : Prop := Forall is_byte l.

(** *** Slices

    A slice is a window on a backing array: [vis] are the [len]
    elements in the window, [spare] the elements of the array behind
    it, up to the capacity.  An index expression is checked against the
    length, the upper bound of a slice expression against the
    capacity. *)

Record slice : Type := mkSlice { vis : list Z; spare : list Z }.

Definition of_list (l : list Z) : slice := mkSlice l [].

Definition len (s : slice) : Z := Z.of_nat (List.length (vis s)).
Definition cap (s : slice) : Z :=
  Z.of_nat (List.length (vis s) + List.length (spare s)).

(** [s[i]] *)
Definition index (s : slice) (i : Z) : res Z :=
  if (0 <=? i) && (i <? len s)
  then Ok (nth (Z.to_nat i) (vis s) 0)
  else Panic index_out_of_range.

(** [s[lo:]] : the upper bound defaults to [len s]. *)
Definition slice_from (s : slice) (lo : Z) : res slice :=
  if (0 <=? lo) && (lo <=? len s)
  then Ok (mkSlice (skipn (Z.to_nat lo) (vis s)) (spare s))
  else Panic slice_bounds_out_of_range.

(** [s[lo:hi]] : [0 <= lo <= hi <= cap s]. *)
Definition slice_range (s : slice) (lo hi : Z) : res slice :=
  if (0 <=? lo) && (lo <=? hi) && (hi <=? cap s)
  then let arr := vis s ++ spare s in
       Ok (mkSlice (firstn (Z.to_nat (hi - lo)) (skipn (Z.to_nat lo) arr))
                   (skipn (Z.to_nat hi) arr))
  else Panic slice_bounds_out_of_range.

(** [s[:hi]] *)
Definition slice_to (s : slice) (hi : Z) : res slice := slice_range s 0 hi.

(** [make([]byte, 0, c)] *)
Definition make0 (c : Z) : slice := mkSlice [] (repeat 0 (Z.to_nat c)).

(** [append(s, x)].  Within the capacity the element is written into
    the backing array.  Beyond it the language allocates a "sufficiently
    large" new array and leaves its size open; the model takes the
    tightest one.  The package appends in [unpack7bit] only, and never
    beyond the capacity it asked for (lemma [unpack7bit_spare]). *)
Definition append (s : slice) (x : Z) : slice :=
  match spare s with
  | [] => mkSlice (vis s ++ [x]) []
  | _ :: sp => mkSlice (vis s ++ [x]) sp
  end.

(** *** Strings

    A Go string is a sequence of bytes; indexing and slicing are checked
    against its length. *)

Definition byte_of_ascii (c : ascii) : Z := Z.of_N (N_of_ascii c).
Definition ascii_of_byte (b : Z) : ascii := ascii_of_N (Z.to_N b).

Fixpoint string_of_bytes (l : list Z) : string :=
  match l with
  | [] => EmptyString
  | b :: l' => String (ascii_of_byte b) (string_of_bytes l')
  end.

Fixpoint bytes_of_string (s : string) : list Z :=
  match s with
  | EmptyString => []
  | String c s' => byte_of_ascii c :: bytes_of_string s'
  end.

Definition slen (s : string) : Z := Z.of_nat (String.length s).

Fixpoint sdrop (n : nat) (s : string) : string :=
  match n, s with
  | O, _ => s
  | S n', String _ s' => sdrop n' s'
  | S _, EmptyString => EmptyString
  end.

Fixpoint stake (n : nat) (s : string) : string :=
  match n, s with
  | S n', String c s' => String c (stake n' s')
  | _, _ => EmptyString
  end.

(** [s[i]] on a string *)
Definition str_index (s : string) (i : Z) : res Z :=
  if (0 <=? i) && (i <? slen s)
  then Ok (nth (Z.to_nat i) (bytes_of_string s) 0)
  else Panic index_out_of_range.

(** [s[lo:]] on a string *)
Definition str_from (s : string) (lo : Z) : res string :=
  if (0 <=? lo) && (lo <=? slen s)
  then Ok (sdrop (Z.to_nat lo) s)
  else Panic slice_bounds_out_of_range.

(** [s[:hi]] on a string *)
Definition str_to (s : string) (hi : Z) : res string :=
  if (0 <=? hi) && (hi <=? slen s)
  then Ok (stake (Z.to_nat hi) s)
  else Panic slice_bounds_out_of_range.

(** *** Loops *)

Inductive ctl : Type := Continue | Break.

(** [for _, c := range b { body }] with a body that may [break]. *)
Fixpoint for_range {S : Type} (body : Z -> S -> S * ctl) (b : list Z) (st : S) : S :=
  match b with
  | [] => st
  | c :: b' =>
      match body c st with
      | (st', Break) => st'
      | (st', Continue) => for_range body b' st'
      end
  end.

(** [for i := range x] over the indices [0 .. n-1], with a body that
    may panic; the values the body produces are collected in order. *)
Fixpoint for_index {A : Type} (body : Z -> res A) (idx : list nat) : res (list A) :=
  match idx with
  | [] => Ok []
  | i :: idx' =>
      match body (Z.of_nat i) with
      | Panic p => Panic p
      | Ok a =>
          match for_index body idx' with
          | Panic p => Panic p
          | Ok l => Ok (a :: l)
          end
      end
  end.

(** *** encoding/binary: [binary.BigEndian.Uint16] *)

(** [uint16(b1) | uint16(b0)<<8] *)
Definition be16 (b0 b1 : Z) : Z :=
  Z.lor (uint16 b1) (uint16 (Z.shiftl (uint16 b0) 8)).

(** The bounds check [_ = b[1]] comes first. *)
Definition BigEndian_Uint16 (b : slice) : res Z :=
  match index b 1 with
  | Panic p => Panic p
  | Ok _ =>
      match index b 1 with
      | Panic p => Panic p
      | Ok b1 =>
          match index b 0 with
          | Panic p => Panic p
          | Ok b0 => Ok (be16 b0 b1)
          end
      end
  end.

(** *** unicode/utf16 and the conversion [string([]rune)] *)

Definition replacementChar : Z := 0xFFFD.

Definition DecodeRune (r1 r2 : Z) : Z :=
  Z.lor (Z.shiftl (r1 - 0xd800) 10) (r2 - 0xdc00) + 0x10000.

(** [utf16.Decode]: a surrogate pair is one rune, a lone surrogate is
    replaced. *)
Fixpoint utf16_Decode (s : list Z) : list Z :=
  match s with
  | [] => []
  | r :: rest =>
      if (r <? 0xd800) || (0xe000 <=? r) then r :: utf16_Decode rest
      else
        match rest with
        | r2 :: rest' =>
            if (r <? 0xdc00) && (0xdc00 <=? r2) && (r2 <? 0xe000)
            then DecodeRune r r2 :: utf16_Decode rest'
            else replacementChar :: utf16_Decode rest
        | [] => [replacementChar]
        end
  end.

(** UTF-8 encoding of one rune; what is not a Unicode scalar value is
    encoded as U+FFFD. *)
Definition utf8_encode (r : Z) : list Z :=
  if (r <? 0) || (0x10FFFF <? r) || ((0xD800 <=? r) && (r <=? 0xDFFF))
  then [0xEF; 0xBF; 0xBD]
  else if r <? 0x80 then [r]
  else if r <? 0x800
  then [Z.lor 0xC0 (Z.shiftr r 6); Z.lor 0x80 (Z.land r 0x3F)]
  else if r <? 0x10000
  then [Z.lor 0xE0 (Z.shiftr r 12);
        Z.lor 0x80 (Z.land (Z.shiftr r 6) 0x3F);
        Z.lor 0x80 (Z.land r 0x3F)]
  else [Z.lor 0xF0 (Z.shiftr r 18);
        Z.lor 0x80 (Z.land (Z.shiftr r 12) 0x3F);
        Z.lor 0x80 (Z.land (Z.shiftr r 6) 0x3F);
        Z.lor 0x80 (Z.land r 0x3F)].

(** [string(r)] for [r []rune] *)
Definition string_of_runes (rs : list Z) : string :=
  string_of_bytes (flat_map utf8_encode rs).

(** *** strconv.ParseUint, for an explicit base in 2..36 and a bit size
    in 1..64 (the package calls it with 16 and 32). *)

Definition lower (c : Z) : Z := Z.lor c 32.

Definition digit_val (c : Z) : option Z :=
  if (48 <=? c) && (c <=? 57) then Some (c - 48)
  else if (97 <=? lower c) && (lower c <=? 122) then Some (lower c - 97 + 10)
  else None.

Fixpoint ParseUint_loop (cs : list Z) (base cutoff maxVal n : Z) : Z * option num_err :=
  match cs with
  | [] => (n, None)
  | c :: cs' =>
      match digit_val c with
      | None => (0, Some ErrSyntax)
      | Some d =>
          if d >=? base then (0, Some ErrSyntax)
          else if n >=? cutoff then (maxVal, Some ErrRange)
          else
            let n := (n * base) mod 2 ^ 64 in
            let n1 := (n + d) mod 2 ^ 64 in
            if (n1 <? n) || (maxVal <? n1) then (maxVal, Some ErrRange)
            else ParseUint_loop cs' base cutoff maxVal n1
      end
  end.

Definition ParseUint (s : string) (base bitSize : Z) : Z * option error :=
  match s with
  | EmptyString => (0, Some (NumError "ParseUint" s ErrSyntax))
  | _ =>
      let cutoff := (2 ^ 64 - 1) / base + 1 in
      let maxVal := 2 ^ bitSize - 1 in
      match ParseUint_loop (bytes_of_string s) base cutoff maxVal 0 with
      | (n, None) => (n, None)
      | (n, Some e) => (n, Some (NumError "ParseUint" s e))
      end
  end.

(** *** package time

    A [Time] is an instant, in seconds and nanoseconds since the Unix
    epoch (1 January 1970 UTC), together with the location it is
    displayed in. *)

Record Zone : Type := FixedZone { zone_name : string; zone_offset : Z }.

Inductive Location : Type := Local | UTC | Fixed (z : Zone).

Record Time : Type := mkTime { unix_sec : Z; nanos : Z; loc : Location }.

(** The zero [time.Time]: 1 January of year 1, 00:00:00 UTC. *)
Definition zeroTime : Time := mkTime (-62135596800) 0 UTC.

Definition Duration : Type := Z.
Definition Nanosecond : Duration := 1.
Definition Second : Duration := 1000000000 * Nanosecond.
Definition Hour : Duration := 3600 * Second.

(** [time.Unix(sec, nsec)] *)
Definition time_Unix (sec nsec : Z) : Time :=
  if (nsec <? 0) || (1000000000 <=? nsec)
  then
    let n := Z.quot nsec 1000000000 in
    let sec := sec + n in
    let nsec := nsec - n * 1000000000 in
    if nsec <? 0 then mkTime (sec - 1) (nsec + 1000000000) Local
    else mkTime sec nsec Local
  else mkTime sec nsec Local.

(** [t.Add(d)] *)
Definition Time_Add (t : Time) (d : Duration) : Time :=
  let dsec := Z.quot d 1000000000 in
  let nsec := nanos t + Z.rem d 1000000000 in
  if 1000000000 <=? nsec then mkTime (unix_sec t + dsec + 1) (nsec - 1000000000) (loc t)
  else if nsec <? 0 then mkTime (unix_sec t + dsec - 1) (nsec + 1000000000) (loc t)
  else mkTime (unix_sec t + dsec) nsec (loc t).

(** [time.Date]: fields outside their usual range are normalised, then
    the civil date in the given fixed zone is turned into an instant. *)
Definition norm (hi lo base : Z) : Z * Z :=
  let '(hi, lo) :=
    if lo <? 0
    then let n := Z.quot (- lo - 1) base + 1 in (hi - n, lo + n * base)
    else (hi, lo) in
  if base <=? lo
  then let n := Z.quot lo base in (hi + n, lo - n * base)
  else (hi, lo).

Definition isLeap (year : Z) : bool :=
  (year mod 4 =? 0) && (negb (year mod 100 =? 0) || (year mod 400 =? 0)).

Definition daysBefore : list Z :=
  [0; 31; 59; 90; 120; 151; 181; 212; 243; 273; 304; 334; 365].

(** Days from 1 January of year 1 to 1 January of [year]. *)
Definition days_before_year (year : Z) : Z :=
  let y := year - 1 in 365 * y + y / 4 - y / 100 + y / 400.

Definition time_Date (year month day hour min sec nsec : Z) (z : Zone) : Time :=
  let m := month - 1 in
  let '(year, m) := norm year m 12 in
  let month := m + 1 in
  let '(sec, nsec) := norm sec nsec 1000000000 in
  let '(min, sec) := norm min sec 60 in
  let '(hour, min) := norm hour min 60 in
  let '(day, hour) := norm day hour 24 in
  let d := days_before_year year - days_before_year 1970 in
  let d := d + nth (Z.to_nat (month - 1)) daysBefore 0 in
  let d := if isLeap year && (3 <=? month) then d + 1 else d in
  let d := d + (day - 1) in
  let abs := d * 86400 + (hour * 3600 + min * 60 + sec) in
  mkTime (abs - zone_offset z) nsec (Fixed z).

End Go.

Import Go.

Declare Scope go_scope.
Delimit Scope go_scope with go.
Notation "x <- c ;; k" := (bind c (fun x => k))
  (at level 61, c at next level, right associativity) : go_scope.
Notation "' pat <- c ;; k" := (bind c (fun x => match x with pat => k end))
  (at level 61, pat pattern, c at next level, right associativity) : go_scope.
Local Open Scope go_scope.

(* ===================================================================== *)
(** ** package nbf                                                        *)
(* ===================================================================== *)

Module nbf.

(** [decodeBCD]: the output buffer [s] is the loop state. *)
Definition decodeBCD_body (c : Z) (s : list Z) : list Z * ctl :=
  let s := s ++ [uint8 (48 + Z.land c 15)] in
  if Z.shiftr c 4 =? 15
  then (s, Break)
  else (s ++ [uint8 (48 + Z.shiftr c 4)], Continue).

Definition decodeBCD (b : slice) : string :=
  string_of_bytes (for_range decodeBCD_body (vis b) []).

(** [unpack7bit]: the inner loop [for buflen >= 7 { ... }] moves
    complete septets from the 16-bit accumulator to the output. *)
Equations? drain (buf buflen : Z) (out : slice) : Z * Z * slice
  by wf (Z.to_nat buflen) lt :=
  drain buf buflen out with Z_ge_dec buflen 7 => {
    | left _ => drain (Z.shiftr buf 7) (buflen - 7)
                      (append out (uint8 (Z.land buf 127)));
    | right _ => (buf, buflen, out) }.
Proof. lia. Qed.

Fixpoint unpack7bit_loop (s : list Z) (buf buflen : Z) (out : slice) : slice :=
  match s with
  | [] => out
  | s0 :: s' =>
      let buf := Z.lor buf (uint16 (Z.shiftl (uint16 s0) buflen)) in
      let buflen := buflen + 8 in
      let '(buf, buflen, out) := drain buf buflen out in
      unpack7bit_loop s' buf buflen out
  end.

Definition unpack7bit (s : slice) : slice :=
  unpack7bit_loop (vis s) 0 0 (make0 (len s + len s / 7 + 1)).

(** *** File names *)

Record Message : Type := mkMessage {
  Date : Time;
  Seq : Z;
  Timestamp : Z;
  MultipartSeq : Z;
  Flags : Z;
  PartNo : Z;
  PartTotal : Z;
  Peer : list Z;
  Pad : Z
}.

(** The zero [Message]: [Peer] is a [[12]byte]. *)
Definition zeroMessage : Message :=
  mkMessage zeroTime 0 0 0 0 0 0 (repeat 0 12%nat) 0.

Definition set_Seq (m : Message) (v : Z) : Message :=
  mkMessage (Date m) v (Timestamp m) (MultipartSeq m) (Flags m) (PartNo m)
            (PartTotal m) (Peer m) (Pad m).
Definition set_Timestamp (m : Message) (v : Z) : Message :=
  mkMessage (Date m) (Seq m) v (MultipartSeq m) (Flags m) (PartNo m)
            (PartTotal m) (Peer m) (Pad m).
Definition set_MultipartSeq (m : Message) (v : Z) : Message :=
  mkMessage (Date m) (Seq m) (Timestamp m) v (Flags m) (PartNo m)
            (PartTotal m) (Peer m) (Pad m).
Definition set_Flags (m : Message) (v : Z) : Message :=
  mkMessage (Date m) (Seq m) (Timestamp m) (MultipartSeq m) v (PartNo m)
            (PartTotal m) (Peer m) (Pad m).
Definition set_PartNo (m : Message) (v : Z) : Message :=
  mkMessage (Date m) (Seq m) (Timestamp m) (MultipartSeq m) (Flags m) v
            (PartTotal m) (Peer m) (Pad m).
Definition set_PartTotal (m : Message) (v : Z) : Message :=
  mkMessage (Date m) (Seq m) (Timestamp m) (MultipartSeq m) (Flags m) (PartNo m)
            v (Peer m) (Pad m).
Definition set_Peer (m : Message) (v : list Z) : Message :=
  mkMessage (Date m) (Seq m) (Timestamp m) (MultipartSeq m) (Flags m) (PartNo m)
            (PartTotal m) v (Pad m).
Definition set_Pad (m : Message) (v : Z) : Message :=
  mkMessage (Date m) (Seq m) (Timestamp m) (MultipartSeq m) (Flags m) (PartNo m)
            (PartTotal m) (Peer m) v.

(** [getUint32]: both slice expressions are evaluated, then the error of
    [strconv.ParseUint] is handed on. *)
Definition getUint32 (s : string) : res (string * Z * option error) :=
  s8 <- str_to s 8 ;;
  let '(x, err) := ParseUint s8 16 32 in
  rest <- str_from s 8 ;;
  Ok (rest, uint32 x, err).

(** [copy(dst, src)] into an array: [min] of the two lengths is copied. *)
Definition copy (dst src : list Z) : list Z :=
  firstn (List.length dst) src ++ skipn (List.length src) dst.

(** [len(msg.Peer)]: the length of an array is a constant of its type. *)
Definition len_Peer : Z := 12.

(** [ParseFilename], a method on a [Message] pointer: the receiver is updated in place, so the
    message is returned next to the outcome, also when the call panics
    or fails half way. *)
Definition ParseFilename (msg : Message) (filename : string)
  : Message * res (option error) :=
  let s := filename in
  match getUint32 s with
  | Panic p => (msg, Panic p)
  | Ok (s, n, err) =>
  let msg := set_Seq msg n in
  match err with
  | Some e => (msg, Ok (Some e))
  | None =>
  match getUint32 s with
  | Panic p => (msg, Panic p)
  | Ok (s, n, err) =>
  let msg := set_Timestamp msg n in
  match err with
  | Some e => (msg, Ok (Some e))
  | None =>
  match getUint32 s with
  | Panic p => (msg, Panic p)
  | Ok (s, n, err) =>
  match err with
  | Some e => (msg, Ok (Some e))
  | None =>
  let msg := set_MultipartSeq msg (uint16 (Z.shiftr n 16)) in
  let msg := set_Flags msg (uint16 n) in
  match str_from s 8 with
  | Panic p => (msg, Panic p)
  | Ok s =>
  match getUint32 s with
  | Panic p => (msg, Panic p)
  | Ok (s, n, err) =>
  match err with
  | Some e => (msg, Ok (Some e))
  | None =>
  let msg := set_PartNo msg (uint8 (Z.shiftr n 12)) in
  let msg := set_PartTotal msg (uint8 (Z.shiftr n 20)) in
  match str_from s 25 with
  | Panic p => (msg, Panic p)
  | Ok s =>
  match str_to s len_Peer with
  | Panic p => (msg, Panic p)
  | Ok src =>
  let msg := set_Peer msg (copy (Peer msg) (bytes_of_string src)) in
  match str_from s len_Peer with
  | Panic p => (msg, Panic p)
  | Ok s =>
  match str_index s 7 with
  | Panic p => (msg, Panic p)
  | Ok c => (set_Pad msg (uint8 c), Ok None)
  end end end end end end end end end end end end end.

Definition FLAGS_SMS : Z := 0x2000.
Definition FLAGS_MMS : Z := 0x1000.

(** *** DOS time stamps *)

Definition DosTime (stamp : Z) : Time :=
  let t := time_Unix stamp 0 in
  let t := Time_Add t (3652 * 24 * Hour) in
  t.

(** *** The SMS-DELIVER TPDU *)

Record deliverMessage : Type := mkDeliver {
  MsgType : Z;
  MoreMsg : bool;
  FromAddr : string;
  Protocol : Z;
  Compressed : bool;
  Unicode : bool;
  SMSCStamp : Time;
  RawData : slice;
  Concat : bool;
  Ref : Z;
  Part : Z;
  NParts : Z
}.

(** The zero value of the struct; [RawData] is the nil slice. *)
Definition zeroDeliver : deliverMessage :=
  mkDeliver 0 false EmptyString 0 false false zeroTime (of_list []) false 0 0 0.

Definition set_MsgType (m : deliverMessage) (v : Z) : deliverMessage :=
  mkDeliver v (MoreMsg m) (FromAddr m) (Protocol m) (Compressed m) (Unicode m)
            (SMSCStamp m) (RawData m) (Concat m) (Ref m) (Part m) (NParts m).
Definition set_MoreMsg (m : deliverMessage) (v : bool) : deliverMessage :=
  mkDeliver (MsgType m) v (FromAddr m) (Protocol m) (Compressed m) (Unicode m)
            (SMSCStamp m) (RawData m) (Concat m) (Ref m) (Part m) (NParts m).
Definition set_FromAddr (m : deliverMessage) (v : string) : deliverMessage :=
  mkDeliver (MsgType m) (MoreMsg m) v (Protocol m) (Compressed m) (Unicode m)
            (SMSCStamp m) (RawData m) (Concat m) (Ref m) (Part m) (NParts m).
Definition set_Compressed (m : deliverMessage) (v : bool) : deliverMessage :=
  mkDeliver (MsgType m) (MoreMsg m) (FromAddr m) (Protocol m) v (Unicode m)
            (SMSCStamp m) (RawData m) (Concat m) (Ref m) (Part m) (NParts m).
Definition set_Unicode (m : deliverMessage) (v : bool) : deliverMessage :=
  mkDeliver (MsgType m) (MoreMsg m) (FromAddr m) (Protocol m) (Compressed m) v
            (SMSCStamp m) (RawData m) (Concat m) (Ref m) (Part m) (NParts m).
Definition set_SMSCStamp (m : deliverMessage) (v : Time) : deliverMessage :=
  mkDeliver (MsgType m) (MoreMsg m) (FromAddr m) (Protocol m) (Compressed m)
            (Unicode m) v (RawData m) (Concat m) (Ref m) (Part m) (NParts m).
Definition set_RawData (m : deliverMessage) (v : slice) : deliverMessage :=
  mkDeliver (MsgType m) (MoreMsg m) (FromAddr m) (Protocol m) (Compressed m)
            (Unicode m) (SMSCStamp m) v (Concat m) (Ref m) (Part m) (NParts m).
Definition set_Concat (m : deliverMessage) (v : bool) : deliverMessage :=
  mkDeliver (MsgType m) (MoreMsg m) (FromAddr m) (Protocol m) (Compressed m)
            (Unicode m) (SMSCStamp m) (RawData m) v (Ref m) (Part m) (NParts m).
Definition set_Ref (m : deliverMessage) (v : Z) : deliverMessage :=
  mkDeliver (MsgType m) (MoreMsg m) (FromAddr m) (Protocol m) (Compressed m)
            (Unicode m) (SMSCStamp m) (RawData m) (Concat m) v (Part m) (NParts m).
Definition set_Part (m : deliverMessage) (v : Z) : deliverMessage :=
  mkDeliver (MsgType m) (MoreMsg m) (FromAddr m) (Protocol m) (Compressed m)
            (Unicode m) (SMSCStamp m) (RawData m) (Concat m) (Ref m) v (NParts m).
Definition set_NParts (m : deliverMessage) (v : Z) : deliverMessage :=
  mkDeliver (MsgType m) (MoreMsg m) (FromAddr m) (Protocol m) (Compressed m)
            (Unicode m) (SMSCStamp m) (RawData m) (Concat m) (Ref m) (Part m) v.

(** [parseDateTime]: [dt[i] = int(b[i]&0xf)*10 + int(b[i]>>4)] for the
    seven octets, then [time.Date]. *)
Definition parseDateTime (b : slice) : res Time :=
  dt <- for_index
          (fun i => bi <- index b i ;; Ok (Z.land bi 15 * 10 + Z.shiftr bi 4))
          (seq 0 7) ;;
  let d := fun i => nth i dt 0 in
  Ok (time_Date (2000 + d 0%nat) (d 1%nat) (d 2%nat) (d 3%nat) (d 4%nat) (d 5%nat) 0
                (FixedZone EmptyString (Z.quot (d 6%nat * 3600) 4))).

(** The guard of a [switch] case [len(ud) >= n && ud[0] == a && ud[1] == b
    && ud[2] == c]: [&&] evaluates from left to right and stops at the
    first false operand. *)
Definition starts_with (ud : slice) (n a b c : Z) : res bool :=
  if len ud >=? n then
    u0 <- index ud 0 ;;
    if u0 =? a then
      u1 <- index ud 1 ;;
      if u1 =? b then
        u2 <- index ud 2 ;;
        Ok (u2 =? c)
      else Ok false
    else Ok false
  else Ok false.

(** [parseDeliverMessage] is embedded in three parts, in the order of
    the source: the header up to the time stamp (below), the payload
    (from the comment [// Payload]) and the [switch] that looks for a
    concatenation header.  [msg] and [size], the named results, are
    handed from one part to the next. *)

(** The [switch] on the user data [ud]. *)
Definition parseDeliverMessage_concat (msg : deliverMessage) (size : Z) (ud : slice)
  : res (deliverMessage * Z) :=
  c1 <- starts_with ud 6 5 0 3 ;;
  if c1 : bool then
    (* Concatenated SMS data starts with 0x05 0x00 0x03 Ref NPart Part *)
    let msg := set_Concat msg true in
    ud5 <- index ud 5 ;;
    let msg := set_Part msg ud5 in
    ud4 <- index ud 4 ;;
    let msg := set_NParts msg ud4 in
    ud3 <- index ud 3 ;;
    let msg := set_Ref msg ud3 in
    raw <- slice_from (RawData msg) (if Unicode msg then 6 else 7) ;;
    Ok (set_RawData msg raw, size)
  else
    c2 <- starts_with ud 7 6 8 4 ;;
    if c2 : bool then
      (* Concatenated SMS data with 16-bit ref number. *)
      let msg := set_Concat msg true in
      ud6 <- index ud 6 ;;
      let msg := set_Part msg ud6 in
      ud5 <- index ud 5 ;;
      let msg := set_NParts msg ud5 in
      ud3 <- index ud 3 ;;
      ud4 <- index ud 4 ;;
      let msg := set_Ref msg (Z.lor (Z.shiftl ud3 8) ud4) in
      raw <- slice_from (RawData msg) (if Unicode msg then 7 else 8) ;;
      Ok (set_RawData msg raw, size)
    else Ok (msg, size).

(** The payload; [p] is [s[size:]], at the user-data length octet. *)
Definition parseDeliverMessage_payload (msg : deliverMessage) (size : Z) (p : slice)
  : res (deliverMessage * Z) :=
  '(msg, size) <-
    (if Unicode msg then
       (* Unicode (70 UCS-2 characters in 140 bytes) *)
       length <- index p 0 ;;
       raw <- slice_range p 1 (length + 1) ;;
       Ok (set_RawData msg raw, size + (length + 1))
     else
       (* 7-bit encoded format (160 septets in 140 bytes) *)
       length <- index p 0 ;;
       let packedLen := length - Z.quot length 8 in
       packed <- slice_range p 1 (1 + packedLen) ;;
       let msg := set_RawData msg (unpack7bit packed) in
       raw <- slice_to (RawData msg) length ;;
       Ok (set_RawData msg raw, size + (packedLen + 1))) ;;
  ud <- slice_from p 1 ;;
  parseDeliverMessage_concat msg size ud.

Definition parseDeliverMessage (s : slice) : res (deliverMessage * Z) :=
  let msg := zeroDeliver in
  let size := 0 in
  let p := s in
  p0 <- index p 0 ;;
  let msg := set_MsgType msg (Z.land p0 3) in
  let msg := set_MoreMsg msg (Z.land p0 4 =? 0) in
  nbLen <- index p 1 ;;
  addr <- slice_range p 3 (3 + Z.quot (nbLen + 1) 2) ;;
  let msg := set_FromAddr msg (decodeBCD addr) in
  let size := size + (3 + Z.quot (nbLen + 1) 2) in
  p <- slice_from s size ;;
  (* Format *)
  format <- index p 1 ;;
  let msg := set_Compressed msg (negb (Z.land format 0x20 =? 0)) in
  let msg := set_Unicode msg (negb (Z.land format 8 =? 0)) in
  (* Date time *)
  b <- slice_range p 2 9 ;;
  stamp <- parseDateTime b ;;
  let msg := set_SMSCStamp msg stamp in
  let size := size + (2 + 7) in
  p <- slice_from s size ;;
  (* Payload *)
  parseDeliverMessage_payload msg size p.

(** *** The GSM 03.38 alphabet *)

Definition basicSMSset : list Z :=
  [ (* 0x00 *)
    0x40; 0xA3; 0x24; 0xA5; 0xE8; 0xE9; 0xF9; 0xEC;
    0xF2; 0xC7; 0xA; 0xD8; 0xF8; 0xD; 0xC5; 0xE5;
    (* 0x10 *)
    0x394; 0x5F; 0x3A6; 0x393; 0x39B; 0x3A9; 0x3A0; 0x3A8;
    0x3A3; 0x398; 0x39E; (-1); 0xC6; 0xE6; 0xDF; 0xC9;
    (* 0x20 *)
    0x20; 0x21; 0x22; 0x23; 0xA4; 0x25; 0x26; 0x27;
    0x28; 0x29; 0x2A; 0x2B; 0x2C; 0x2D; 0x2E; 0x2F;
    (* 0x30 *)
    0x30; 0x31; 0x32; 0x33; 0x34; 0x35; 0x36; 0x37;
    0x38; 0x39; 0x3A; 0x3B; 0x3C; 0x3D; 0x3E; 0x3F;
    (* 0x40 *)
    0xA1; 0x41; 0x42; 0x43; 0x44; 0x45; 0x46; 0x47;
    0x48; 0x49; 0x4A; 0x4B; 0x4C; 0x4D; 0x4E; 0x4F;
    (* 0x50 *)
    0x50; 0x51; 0x52; 0x53; 0x54; 0x55; 0x56; 0x57;
    0x58; 0x59; 0x5A; 0xC4; 0xD6; 0xD1; 0xDC; 0xA7;
    (* 0x60 *)
    0xBF; 0x61; 0x62; 0x63; 0x64; 0x65; 0x66; 0x67;
    0x68; 0x69; 0x6A; 0x6B; 0x6C; 0x6D; 0x6E; 0x6F;
    (* 0x70 *)
    0x70; 0x71; 0x72; 0x73; 0x74; 0x75; 0x76; 0x77;
    0x78; 0x79; 0x7A; 0xE4; 0xF6; 0xF1; 0xFC; 0xE0 ].

(** [charset[b]] on the array [charset]. *)
Definition lookup (charset : list Z) (b : Z) : res Z :=
  if (0 <=? b) && (b <? Z.of_nat (List.length charset))
  then Ok (nth (Z.to_nat b) charset 0)
  else Panic index_out_of_range.

Fixpoint translate_loop (s : list Z) (charset : list Z) : res (list Z) :=
  match s with
  | [] => Ok []
  | b :: s' =>
      r <- lookup charset b ;;
      rs <- translate_loop s' charset ;;
      Ok (r :: rs)
  end.

(** [translateSMS] *)
Definition translateSMS (s : slice) (charset : list Z) : res string :=
  r <- translate_loop (vis s) charset ;;
  Ok (string_of_runes r).

(** [UserData], a method on [deliverMessage] *)
Definition UserData (msg : deliverMessage) : res string :=
  if Unicode msg then
    runes <- for_index
               (fun i =>
                  hi <- index (RawData msg) (2 * i) ;;
                  lo <- index (RawData msg) (2 * i + 1) ;;
                  Ok (Z.lor (uint16 (Z.shiftl (uint16 hi) 8)) (uint16 lo)))
               (seq 0 (Z.to_nat (Z.quot (len (RawData msg)) 2))) ;;
    Ok (string_of_runes (utf16_Decode runes))
  else translateSMS (RawData msg) basicSMSset.

(** *** The message file *)

Record rawMessage : Type := mkRaw {
  rawPeer : string;
  Text : string;
  Msg : deliverMessage
}.

Definition zeroRaw : rawMessage := mkRaw EmptyString EmptyString zeroDeliver.

(** The loop [for off := 0x5e; s[off]|s[off+1] != 0; off += 2] that
    collects the peer name.  The cursor [off] is kept as the part of the
    buffer from [off] on: [s[off]] and [s[off+1]] panic when that part
    has fewer than two bytes; [s[off:off+2]] is then within bounds and
    [binary.BigEndian.Uint16] reads the same two bytes. *)
Fixpoint peer_loop (from_off : list Z) (runes : list Z) : res (list Z) :=
  match from_off with
  | hi :: lo :: rest =>
      if negb (Z.lor hi lo =? 0)
      then peer_loop rest (runes ++ [be16 hi lo])
      else Ok runes
  | _ => Panic index_out_of_range
  end.

(** [parseMessage], up to the comment [// END of PDU.]: the peer name,
    the parsed TPDU and the bytes that remain after it. *)
Definition parseMessage_pdu (s : slice) : res (string * deliverMessage * slice) :=
  (* peer (fixed offset 0x5e) *)
  runes <- peer_loop (skipn (Z.to_nat 0x5e) (vis s)) [] ;;
  let peer := string_of_runes (utf16_Decode runes) in
  (* PDU frame starts at 0xb0 *)
  pdu <- slice_from s 0xb0 ;;
  msgType <- index pdu 0 ;;
  let msg := zeroDeliver in
  match Z.land msgType 3 with
  | 0 => (* SMS-DELIVER *)
      '(msg, n) <- parseDeliverMessage pdu ;;
      pdu <- slice_from pdu n ;;
      Ok (peer, msg, pdu)
  | 1 => Ok (peer, msg, pdu) (* SMS-SUBMIT *)
  | 2 => Ok (peer, msg, pdu) (* SMS-COMMAND *)
  | 3 => Panic (explicit_panic "invalid message type 3")
  | _ => Ok (peer, msg, pdu)
  end.

(** [parseMessage] returns a message and an error. *)
Definition parseMessage (s : slice) : res (rawMessage * option error) :=
  '(peer, msg, pdu) <- parseMessage_pdu s ;;
  (* END of PDU. *)
  if len pdu =? 0 then Ok (mkRaw peer EmptyString msg, None)
  else if len pdu <? 72 then Ok (zeroRaw, Some (Errorf "truncated message"))
  else
    pdu <- slice_from pdu 65 ;;
    length <- index pdu 5 ;;
    pdu <- slice_from pdu 6 ;;
    text <- for_index
              (fun i =>
                 b <- slice_range pdu (2 * i) (2 * i + 2) ;;
                 BigEndian_Uint16 b)
              (seq 0 (Z.to_nat (Z.quot length 2))) ;;
    let m := mkRaw peer (string_of_runes text) msg in
    Ok (m, None).

End nbf.

Import nbf.

(* ===================================================================== *)
(** ** Specification-side definitions                                     *)
(* ===================================================================== *)

(** The digits of a semi-octet BCD field the way the description of the
    address decoder words it: per byte the low-nibble digit, then the
    high-nibble digit unless that nibble is the fill value 15, which ends
    the number. *)
Fixpoint bcd_digits (b : list Z) : list Z :=
  match b with
  | [] => []
  | c :: b' =>
      (48 + c mod 16)
        :: (if c / 16 =? 15 then [] else (48 + c / 16) :: bcd_digits b')
  end.

(** A nibble-swapped BCD pair, [low*10 + high]. *)
Definition bcd_pair (b : Z) : Z := (b mod 16) * 10 + b / 16.

(** The other way round, [low + high*10]. *)
Definition bcd_pair_unswapped (b : Z) : Z := b mod 16 + (b / 16) * 10.

(** The time stamp the description of the TPDU parser asks for: six
    nibble-swapped pairs for the date and time and a zone of
    [tz * 15 * 60] seconds, [tz] being the decoded seventh octet. *)
Definition timestamp_of (tz : Z -> Z) (b0 b1 b2 b3 b4 b5 b6 : Z) : Time :=
  time_Date (2000 + bcd_pair b0) (bcd_pair b1) (bcd_pair b2)
            (bcd_pair b3) (bcd_pair b4) (bcd_pair b5) 0
            (FixedZone EmptyString (tz b6 * 15 * 60)).

(** Positional numbers: [n] digits of [w] bits of [v], least significant
    first, and the number a list of such digits stands for. *)
Fixpoint digits (w : Z) (n : nat) (v : Z) : list Z :=
  match n with
  | O => []
  | S n' => v mod 2 ^ w :: digits w n' (v / 2 ^ w)
  end.

Fixpoint value (w : Z) (l : list Z) : Z :=
  match l with
  | [] => 0
  | d :: l' => d + 2 ^ w * value w l'
  end.

Definition all_below (w : Z) (l : list Z) : Prop :=
  Forall (fun d => 0 <= d < 2 ^ w) l.

(** Modelled from the spec: the package has an unpacker only; the packer
    of the round trip is the GSM 7-bit packed form itself.  The septets
    are laid end to end, least significant bit first, and the bit string
    is cut into [ceil(L*7/8)] octets, the last one padded with zeros. *)
Definition pack7bit (l : list Z) : list Z :=
  digits 8 (Z.to_nat ((7 * Z.of_nat (List.length l) + 7) / 8)) (value 7 l).


(** A call that "yields a returned error": it returns, and the error it
    returns is not nil. *)
Definition returns_error {A : Type} (r : res (A * option error)) : Prop :=
  exists a e, r = Ok (a, Some e).

(** A message file whose TPDU has the reserved type 3 and nothing else:
    176 zero bytes, then the type octet. *)
Definition type3_file : slice := of_list (repeat 0 176 ++ [3]).

(** *** File names *)

(** How a call of [ParseFilename] ends. *)
Inductive outcome : Type := returns_nil | returns_err | panicked.

Definition classify (r : res (option error)) : outcome :=
  match r with
  | Ok None => returns_nil
  | Ok (Some _) => returns_err
  | Panic _ => panicked
  end.

(** The eight characters at offset [off]. *)
Definition hex_field (s : string) (off : nat) : string := stake 8 (sdrop off s).

(** They parse as a 32-bit unsigned hexadecimal number. *)
Definition hex_ok (f : string) : bool :=
  match snd (ParseUint f 16 32) with
  | None => true
  | Some _ => false
  end.

(** The field layout: hex fields at offsets 0, 8, 16 and 32; 25
    characters skipped from offset 40; the peer at 65..76; the pad byte
    at offset 84.  The shortest name that parses has 85 characters. *)
Definition hex_offsets : list nat := [0; 8; 16; 32]%nat.

Definition ParseFilename_outcome (s : string) : outcome :=
  if slen s <? 8 then panicked
  else if negb (hex_ok (hex_field s 0)) then returns_err
  else if slen s <? 16 then panicked
  else if negb (hex_ok (hex_field s 8)) then returns_err
  else if slen s <? 24 then panicked
  else if negb (hex_ok (hex_field s 16)) then returns_err
  else if slen s <? 40 then panicked
  else if negb (hex_ok (hex_field s 32)) then returns_err
  else if slen s <? 85 then panicked
  else returns_nil.

(** *** The TPDU *)

(** The message as it stands after the header of the TPDU: type octet
    [t], address octets [addr], data coding scheme [fmt] and time stamp.
    The protocol identifier is not among the things it is made of. *)
Definition deliver_header (t : Z) (addr : list Z) (fmt : Z) (stamp : Time)
  : deliverMessage :=
  mkDeliver (Z.land t 3) (Z.land t 4 =? 0) (decodeBCD (of_list addr)) 0
            (negb (Z.land fmt 0x20 =? 0)) (negb (Z.land fmt 8 =? 0))
            stamp (of_list []) false 0 0 0.

(** The number of payload bytes a user-data length [udl] stands for:
    [udl] bytes of UCS-2, or [udl] septets packed into
    [udl - udl/8] bytes. *)
Definition payload_bytes (unicode : bool) (udl : Z) : Z :=
  if unicode then udl else udl - Z.quot udl 8.

(** [RawData] before a concatenation header is stripped, from the bytes
    [after] the length octet: the first [udl] bytes, or the first [udl]
    septets unpacked from the first [udl - udl/8] bytes. *)
Definition user_data (unicode : bool) (udl : Z) (after : list Z) : list Z :=
  if unicode then firstn (Z.to_nat udl) after
  else firstn (Z.to_nat udl)
         (vis (unpack7bit
                 (of_list (firstn (Z.to_nat (payload_bytes false udl)) after)))).

(** What the parser records for a concatenated message. *)
Definition concat_recorded (msg : deliverMessage) (ref nparts part : Z)
                           (raw : list Z) : Prop :=
  Concat msg = true /\ Ref msg = ref /\ NParts msg = nparts /\ Part msg = part
  /\ vis (RawData msg) = raw.

(** A TPDU laid out as in GSM 03.40: type octet [t], address length [nb]
    in digits, type of address [toa], address octets [addr], protocol
    identifier [pid], data coding scheme [fmt], seven octets of time
    stamp [ts], user-data length [udl] and what follows it. *)
Definition tpdu (t nb toa : Z) (addr : list Z) (pid fmt : Z) (ts : list Z)
                (udl : Z) (ud : list Z) : list Z :=
  t :: nb :: toa :: addr ++ pid :: fmt :: ts ++ udl :: ud.

(** An SMS-DELIVER from +31641600986 with protocol identifier 0x7F and
    the five septets of "hello". *)
Definition hello_tpdu : list Z :=
  tpdu 0x04 0x0B 0x91 [0x13; 0x46; 0x61; 0x00; 0x89; 0xF6] 0x7F 0x00
       [0x99; 0x30; 0x92; 0x51; 0x61; 0x95; 0x80]
       5 [0xE8; 0x32; 0x9B; 0xFD; 0x06].

Definition hello_msg : deliverMessage :=
  match parseDeliverMessage (of_list hello_tpdu) with
  | Ok (m, _) => m
  | Panic _ => zeroDeliver
  end.

(** A 7-bit TPDU with an empty address whose user data is the six
    octets 05 00 03 07 03 02 and whose length octet says six septets. *)
Definition concat_only_tpdu : list Z :=
  tpdu 0x04 0x00 0x91 [] 0x00 0x00
       [0x99; 0x30; 0x92; 0x51; 0x61; 0x95; 0x80]
       6 [0x05; 0x00; 0x03; 0x07; 0x03; 0x02].

(** The same header on a complete part: eight septets, the header and
    the character 'A'. *)
Definition concat_tpdu : list Z :=
  tpdu 0x04 0x00 0x91 [] 0x00 0x00
       [0x99; 0x30; 0x92; 0x51; 0x61; 0x95; 0x80]
       8 [0x05; 0x00; 0x03; 0x07; 0x03; 0x02; 0x82].

(** *** The message file *)

(** The first [n] big-endian 16-bit code units of [l]. *)
Fixpoint ucs2_units (n : nat) (l : list Z) : list Z :=
  match n, l with
  | S n', hi :: lo :: l' => (hi * 256 + lo) :: ucs2_units n' l'
  | _, _ => []
  end.

(** A message file: no peer name, the TPDU [hello_tpdu] at 0xb0 and 72
    more bytes, of which the one at offset 70 announces [textlen] bytes
    of text and the one at offset 71 is all there is of it. *)
Definition short_text_file (textlen : Z) : slice :=
  of_list (repeat 0 176 ++ hello_tpdu ++ repeat 0 70 ++ [textlen; 0]).

(** The same with the text "Hi" in full. *)
Definition hi_file : slice :=
  of_list (repeat 0 176 ++ hello_tpdu ++ repeat 0 70 ++ [4; 0; 0x48; 0; 0x69]).

(** The same cut 71 bytes after the TPDU. *)
Definition cut_file : slice :=
  of_list (repeat 0 176 ++ hello_tpdu ++ repeat 0 70 ++ [4]).

(** The file name that the comment on [ParseFilename] takes apart, with
    the digits 1234567 for the part of the peer number it leaves out. *)
Definition comment_filename : string :=
  "00001DFC3CEAC36400B72010005000000030200000000000000000000000000003630012345670000007C".

(* ===================================================================== *)
(** ** Definitions for the further properties                             *)
(* ===================================================================== *)

(** Bit [j] of byte [k] of a buffer is bit [8*k + j] of its bit string. *)
Definition bit_of (l : list Z) (p : Z) : bool :=
  Z.testbit (nth (Z.to_nat (p / 8)) l 0) (p mod 8).

(** The semi-octet encoding that the comment in [parseMessage] describes
    for the source number: BCD digits, little endian, padded with a 0xf
    half byte when their number is odd. *)
Fixpoint semi_octets (d : list Z) : list Z :=
  match d with
  | [] => []
  | [a] => [0xF0 + a]
  | a :: b :: d' => (16 * b + a) :: semi_octets d'
  end.

Definition decimal (d : list Z) : Prop := Forall (fun x => 0 <= x <= 9) d.

(** The characters '0' .. '9' of a list of digits. *)
Definition digit_string (d : list Z) : string :=
  string_of_bytes (map (fun x => 48 + x) d).

(** The septets that the GSM alphabet and ASCII agree on: space to '#',
    '%' to '?', the capital and the small letters, line feed and
    carriage return. *)
Definition gsm_is_ascii (b : Z) : bool :=
  ((0x20 <=? b) && (b <=? 0x23)) || ((0x25 <=? b) && (b <=? 0x3F))
  || ((0x41 <=? b) && (b <=? 0x5A)) || ((0x61 <=? b) && (b <=? 0x7A))
  || (b =? 10) || (b =? 13).

(** The septets 0 .. 127. *)
Definition septet_values : list Z := map Z.of_nat (seq 0 128).

(** [l1] is a prefix of [l2]. *)
Fixpoint prefix_b (l1 l2 : list Z) : bool :=
  match l1, l2 with
  | [], _ => true
  | x :: l1', y :: l2' => (x =? y) && prefix_b l1' l2'
  | _ :: _, [] => false
  end.

(** The bytes a septet ends up as in the text. *)
Definition septet_code (b : Z) : list Z := utf8_encode (nth (Z.to_nat b) basicSMSset 0).

(** UTF-16: the code units of a Unicode scalar value, and the two bytes
    of a code unit in big-endian order. *)
Definition scalar (r : Z) : Prop := 0 <= r < 0xd800 \/ 0xe000 <= r <= 0x10FFFF.

Definition utf16_units (r : Z) : list Z :=
  if r <? 0x10000 then [r]
  else [0xd800 + (r - 0x10000) / 1024; 0xdc00 + (r - 0x10000) mod 1024].

Definition be_bytes (u : Z) : list Z := [u / 256; u mod 256].

(** The UTF-16BE encoding of a sequence of scalar values. *)
Definition utf16be (runes : list Z) : list Z :=
  flat_map be_bytes (flat_map utf16_units runes).

(** An SMS-SUBMIT file: 176 zero bytes, the type octet 0x01 and 80 more
    bytes, none of them a text. *)
Definition submit_file : slice := of_list (repeat 0 176 ++ [0x01] ++ repeat 0 80).

(** What a scalar value becomes in [Text], whose loop turns every code
    unit into a rune of its own. *)
Definition bmp_or_replacement (r : Z) : list Z :=
  if r <? 0x10000 then [r] else [0xFFFD; 0xFFFD].

(** A message file with a peer name and a text, both in UTF-16BE, around
    the TPDU [hello_tpdu]. *)
Definition named_file (peer text : list Z) : slice :=
  of_list (repeat 0 94 ++ utf16be peer
           ++ repeat 0 (82 - List.length (utf16be peer))
           ++ hello_tpdu ++ repeat 0 70
           ++ [Z.of_nat (List.length (utf16be text))] ++ utf16be text).

(** The value of a hexadecimal digit, in either case. *)
Definition hex_digit (c : Z) : option Z :=
  if (48 <=? c) && (c <=? 57) then Some (c - 48)
  else if (97 <=? c) && (c <=? 102) then Some (c - 87)
  else if (65 <=? c) && (c <=? 70) then Some (c - 55)
  else None.

(** The number that a string of hexadecimal digits stands for, most
    significant digit first, after the digits [n]; nothing when one of
    the characters is no such digit. *)
Fixpoint hex_from (cs : list Z) (n : Z) : option Z :=
  match cs with
  | [] => Some n
  | c :: cs' =>
      match hex_digit c with
      | Some d => hex_from cs' (16 * n + d)
      | None => None
      end
  end.

Definition hex_value (f : string) : option Z := hex_from (bytes_of_string f) 0.

(** The bytes 0 .. 255. *)
Definition byte_values : list Z := map Z.of_nat (seq 0 256).

(** What [strconv.ParseUint] makes of a character in base 16. *)
Definition hex_digit_of_val (c : Z) : option Z :=
  match digit_val c with
  | Some d => if d >=? 16 then None else Some d
  | None => None
  end.

Definition option_Z_eqb (a b : option Z) : bool :=
  match a, b with
  | Some x, Some y => x =? y
  | None, None => true
  | _, _ => false
  end.

(** The receiver of [ParseFilename] once the four hex fields with the
    values [a], [b], [c] and [d] and the peer are stored, before the pad
    byte is. *)
Definition filled (msg : Message) (s : string) (a b c d : Z) : Message :=
  mkMessage (Date msg) a b (c / 65536) (c mod 65536)
            ((d / 4096) mod 256) ((d / 1048576) mod 256)
            (bytes_of_string (stake 12 (sdrop 65 s))) (Pad msg).

Definition hex_or_0 (f : string) : Z :=
  match hex_value f with Some v => v | None => 0 end.

(** The receiver of [ParseFilename] after a call that returned the error
    of the field at offset [off]. *)
Definition failed_at (msg : Message) (s : string) (off : nat) : Message :=
  let m0 := set_Seq msg (hex_or_0 (hex_field s 0)) in
  if (off =? 0)%nat then m0
  else
    let m1 := set_Timestamp m0 (hex_or_0 (hex_field s 8)) in
    if (off <=? 16)%nat then m1
    else
      let c := hex_or_0 (hex_field s 16) in
      set_Flags (set_MultipartSeq m1 (c / 65536)) (c mod 65536).

(** The number of address octets that the second octet of a TPDU
    announces. *)
Definition addr_octets (s : slice) : Z := Z.quot (nth 1 (vis s) 0 + 1) 2.

(** An SMS-DELIVER whose user data is the three septets 05 00 03 in
    three octets, and a message file in which ten bytes follow it. *)
Definition short_udh_tpdu : list Z :=
  tpdu 0x04 0x0B 0x91 [0x13; 0x46; 0x61; 0x00; 0x89; 0xF6] 0x00 0x00
       [0x99; 0x30; 0x92; 0x51; 0x61; 0x95; 0x80]
       3 [0x05; 0x00; 0x03].

Definition trailing_file : slice :=
  of_list (repeat 0 176 ++ short_udh_tpdu ++ repeat 0 10).
(* ===================================================================== *)
(** ** The embedding at work                                              *)
(* ===================================================================== *)

Example comment_filename_fields :
  ParseFilename zeroMessage comment_filename
  = (mkMessage zeroTime 0x1DFC 0x3CEAC364 0x00B7 0x2010 2 3
               (bytes_of_string "363001234567") (byte_of_ascii "C"),
     Ok None).
Proof. vm_compute. reflexivity. Qed.

Example comment_filename_is_sms :
  Z.land (Flags (fst (ParseFilename zeroMessage comment_filename))) FLAGS_SMS
  = FLAGS_SMS.
Proof. vm_compute. reflexivity. Qed.

Example hello_from : FromAddr hello_msg = "31641600986"%string.
Proof. vm_compute. reflexivity. Qed.

Example hello_text : UserData hello_msg = Ok "hello"%string.
Proof. vm_compute. reflexivity. Qed.

Example hello_zone : loc (SMSCStamp hello_msg) = Fixed (FixedZone EmptyString 7200).
Proof. vm_compute. reflexivity. Qed.

Example date_2000 :
  unix_sec (time_Date 2000 1 1 0 0 0 0 (FixedZone EmptyString 0)) = 946684800.
Proof. vm_compute. reflexivity. Qed.

Example date_leap_year_zone :
  unix_sec (time_Date 2024 3 1 12 30 15 0 (FixedZone EmptyString 3600))
  = 1709292615.
Proof. vm_compute. reflexivity. Qed.

(** [time.Date] normalises: month 13 of 2000 is January 2001. *)
Example date_normalises :
  time_Date 2000 13 1 0 0 0 0 (FixedZone EmptyString 0)
  = time_Date 2001 1 1 0 0 0 0 (FixedZone EmptyString 0).
Proof. vm_compute. reflexivity. Qed.

Example date_zero :
  unix_sec (time_Date 1 1 1 0 0 0 0 (FixedZone EmptyString 0)) = unix_sec zeroTime.
Proof. vm_compute. reflexivity. Qed.

Example alphabet_at_A :
  translateSMS (of_list [0x00; 0x41]) basicSMSset = Ok "@A"%string.
Proof. vm_compute. reflexivity. Qed.

(** The escape code has no character of its own: [string] turns the
    rune -1 into U+FFFD. *)
Example alphabet_escape :
  translateSMS (of_list [0x1B]) basicSMSset
  = Ok (string_of_bytes [0xEF; 0xBF; 0xBD]).
Proof. vm_compute. reflexivity. Qed.

Example alphabet_out_of_range :
  translateSMS (of_list [0x80]) basicSMSset = Panic index_out_of_range.
Proof. vm_compute. reflexivity. Qed.

Example hi_file_text :
  exists m, parseMessage hi_file = Ok (m, None) /\ Text m = "Hi"%string.
Proof. eexists. split; vm_compute; reflexivity. Qed.

Example unpack_hello :
  unpack7bit (of_list [0xE8; 0x32; 0x9B; 0xFD; 0x06])
  = mkSlice [0x68; 0x65; 0x6C; 0x6C; 0x6F] [0].
Proof. vm_compute. reflexivity. Qed.

(* ===================================================================== *)
(** ** Run-time lemmas                                                    *)
(* ===================================================================== *)

Lemma land_15 (c : Z) : Z.land c 15 = c mod 16.
Proof. change 15 with (Z.ones 4). rewrite Z.land_ones by lia. reflexivity. Qed.

Lemma land_127 (c : Z) : Z.land c 127 = c mod 128.
Proof. change 127 with (Z.ones 7). rewrite Z.land_ones by lia. reflexivity. Qed.

Lemma shiftr_4 (c : Z) : Z.shiftr c 4 = c / 16.
Proof. rewrite Z.shiftr_div_pow2 by lia. reflexivity. Qed.

Lemma shiftr_7 (c : Z) : Z.shiftr c 7 = c / 128.
Proof. rewrite Z.shiftr_div_pow2 by lia. reflexivity. Qed.

Lemma uint8_small (x : Z) : 0 <= x < 256 -> uint8 x = x.
Proof. intros H. unfold uint8. apply Z.mod_small. lia. Qed.

Lemma uint16_small (x : Z) : 0 <= x < 65536 -> uint16 x = x.
Proof. intros H. unfold uint16. apply Z.mod_small. lia. Qed.

Lemma index_ok (s : slice) (i : Z) :
  0 <= i < len s -> index s i = Ok (nth (Z.to_nat i) (vis s) 0).
Proof.
  intros H. unfold index.
  replace ((0 <=? i) && (i <? len s)) with true; [reflexivity|].
  symmetry. apply andb_true_iff. split; [apply Z.leb_le | apply Z.ltb_lt]; lia.
Qed.

Lemma index_panics (s : slice) (i : Z) :
  len s <= i -> index s i = Panic index_out_of_range.
Proof.
  intros H. unfold index.
  replace (i <? len s) with false; [now rewrite andb_false_r|].
  symmetry. apply Z.ltb_ge. lia.
Qed.

Lemma slice_from_ok (s : slice) (lo : Z) :
  0 <= lo <= len s ->
  slice_from s lo = Ok (mkSlice (skipn (Z.to_nat lo) (vis s)) (spare s)).
Proof.
  intros H. unfold slice_from.
  replace ((0 <=? lo) && (lo <=? len s)) with true; [reflexivity|].
  symmetry. apply andb_true_iff. split; apply Z.leb_le; lia.
Qed.

Lemma slice_from_panics (s : slice) (lo : Z) :
  len s < lo -> slice_from s lo = Panic slice_bounds_out_of_range.
Proof.
  intros H. unfold slice_from.
  replace (lo <=? len s) with false; [now rewrite andb_false_r|].
  symmetry. apply Z.leb_gt. lia.
Qed.

Lemma slice_range_ok (s : slice) (lo hi : Z) :
  0 <= lo <= hi -> hi <= cap s ->
  slice_range s lo hi =
    Ok (mkSlice (firstn (Z.to_nat (hi - lo)) (skipn (Z.to_nat lo) (vis s ++ spare s)))
                (skipn (Z.to_nat hi) (vis s ++ spare s))).
Proof.
  intros H1 H2. unfold slice_range.
  replace ((0 <=? lo) && (lo <=? hi) && (hi <=? cap s)) with true; [reflexivity|].
  symmetry. rewrite !andb_true_iff. repeat split; apply Z.leb_le; lia.
Qed.

Lemma len_cap (s : slice) : len s <= cap s.
Proof. unfold len, cap. lia. Qed.

Lemma vis_append (s : slice) (x : Z) : vis (append s x) = vis s ++ [x].
Proof. unfold append. destruct (spare s); reflexivity. Qed.

(* ===================================================================== *)
(** ** The BCD address decoder                                            *)
(* ===================================================================== *)

Lemma decodeBCD_loop (b acc : list Z) :
  bytes b ->
  for_range decodeBCD_body b acc = acc ++ bcd_digits b.
Proof.
  intros Hb. revert acc. induction Hb as [|c b Hc Hb IH]; intros acc.
  - simpl. now rewrite app_nil_r.
  - unfold is_byte in Hc. simpl. unfold decodeBCD_body.
    rewrite land_15, shiftr_4.
    rewrite !uint8_small
      by (pose proof (Z.mod_pos_bound c 16);
          assert (0 <= c / 16 < 16) by (split; [apply Z.div_pos | apply Z.div_lt_upper_bound]; lia);
          lia).
    destruct (c / 16 =? 15).
    + reflexivity.
    + rewrite IH. rewrite <- !app_assoc. reflexivity.
Qed.

(** C6.  For every byte sequence the decoder emits, per byte, the digit
    of the low nibble and then the digit of the high nibble, unless the
    high nibble is 15, in which case it stops right after the low
    nibble; bytes 0x10 0x32 decode to "0123" and byte 0xF1 to "1". *)
Theorem decodeBCD_low_then_high (b : slice) (Hb : bytes (vis b)) :
  decodeBCD b = string_of_bytes (bcd_digits (vis b))
  /\ decodeBCD (of_list [0x10; 0x32]) = "0123"%string
  /\ decodeBCD (of_list [0xF1]) = "1"%string.
Proof.
  split; [|split; reflexivity].
  unfold decodeBCD. rewrite decodeBCD_loop by assumption. reflexivity.
Qed.

Lemma decodeBCD_low_then_high_witness :
  bytes (vis (of_list [0x21; 0x43; 0xF5]))
  /\ decodeBCD (of_list [0x21; 0x43; 0xF5]) = "12345"%string.
Proof.
  assert (H : bytes (vis (of_list [0x21; 0x43; 0xF5]))).
  { repeat constructor; unfold is_byte; lia. }
  split; [exact H|].
  exact (proj1 (decodeBCD_low_then_high (of_list [0x21; 0x43; 0xF5]) H)).
Defined.

(* ===================================================================== *)
(** ** Time stamps                                                        *)
(* ===================================================================== *)

(** C7.  For every 32-bit stamp, [DosTime] is the instant [stamp]
    seconds and 3652 days after the Unix epoch; it has no error case,
    and stamp 0 is exactly 3652 days after the epoch. *)
Theorem DosTime_epoch_plus_3652_days (stamp : Z) (Hs : 0 <= stamp < 2 ^ 32) :
  DosTime stamp = mkTime (0 + 3652 * 86400 + stamp) 0 Local
  /\ unix_sec (DosTime 0) = 3652 * 86400
  /\ unix_sec (DosTime 0) = unix_sec (time_Date 1980 1 1 0 0 0 0 (FixedZone EmptyString 0)).
Proof.
  split; [|split; vm_compute; reflexivity].
  assert (Hq : Z.quot (3652 * 24 * Hour) 1000000000 = 3652 * 86400)
    by (vm_compute; reflexivity).
  assert (Hr : Z.rem (3652 * 24 * Hour) 1000000000 = 0)
    by (vm_compute; reflexivity).
  unfold DosTime, Time_Add. rewrite Hq, Hr.
  unfold time_Unix.
  cbn [Z.ltb Z.leb Z.compare orb unix_sec nanos loc Z.add Pos.compare Pos.compare_cont].
  f_equal. lia.
Qed.

Lemma DosTime_epoch_plus_3652_days_witness :
  0 <= 0x3CEAC364 < 2 ^ 32
  /\ DosTime 0x3CEAC364 = mkTime (0 + 3652 * 86400 + 0x3CEAC364) 0 Local.
Proof.
  assert (H : 0 <= 0x3CEAC364 < 2 ^ 32) by lia.
  split; [exact H|].
  exact (proj1 (DosTime_epoch_plus_3652_days 0x3CEAC364 H)).
Defined.

Lemma parseDateTime_fields (b0 b1 b2 b3 b4 b5 b6 : Z) (sp : list Z) :
  for_index
    (fun i => bi <- index (mkSlice [b0; b1; b2; b3; b4; b5; b6] sp) i ;;
              Ok (Z.land bi 15 * 10 + Z.shiftr bi 4))
    (seq 0 7)
  = Ok (map (fun bi => Z.land bi 15 * 10 + Z.shiftr bi 4)
            [b0; b1; b2; b3; b4; b5; b6]).
Proof. reflexivity. Qed.

(** What [parseDateTime] returns on seven octets. *)
Lemma parseDateTime_ok (b0 b1 b2 b3 b4 b5 b6 : Z) (sp : list Z) :
  parseDateTime (mkSlice [b0; b1; b2; b3; b4; b5; b6] sp)
  = Ok (timestamp_of bcd_pair b0 b1 b2 b3 b4 b5 b6).
Proof.
  unfold parseDateTime. rewrite parseDateTime_fields.
  unfold bind, timestamp_of, bcd_pair. cbn [nth map].
  rewrite !land_15, !shiftr_4.
  do 2 f_equal. f_equal.
  replace (((b6 mod 16) * 10 + b6 / 16) * 3600)
    with (((b6 mod 16) * 10 + b6 / 16) * 900 * 4) by lia.
  rewrite Z.quot_mul by lia. lia.
Qed.

(** C3, as amended.  For every 7-byte field the parser decodes all seven
    pairs, the zone pair included, nibble-swapped as [low*10 + high],
    and returns [time.Date] of year 2000 + the decoded year, the decoded
    month, day, hour, minute and second, in a fixed zone of
    [tz * 15 * 60] seconds. *)
Theorem parseDateTime_swapped_pairs (b0 b1 b2 b3 b4 b5 b6 : Z) (sp : list Z) :
  parseDateTime (mkSlice [b0; b1; b2; b3; b4; b5; b6] sp)
  = Ok (time_Date (2000 + bcd_pair b0) (bcd_pair b1) (bcd_pair b2)
                  (bcd_pair b3) (bcd_pair b4) (bcd_pair b5) 0
                  (FixedZone EmptyString (bcd_pair b6 * 15 * 60)))
  /\ zone_offset (FixedZone EmptyString (bcd_pair b6 * 15 * 60))
     = ((b6 mod 16) * 10 + b6 / 16) * 15 * 60.
Proof.
  split; [apply parseDateTime_ok | reflexivity].
Qed.

(** C3 as it was stated fails: with zone octet 0x21 the code decodes 12
    quarter hours, the unswapped reading [low + high*10] gives 21. *)
Lemma parseDateTime_zone_not_unswapped :
  parseDateTime (of_list [0x99; 0x30; 0x92; 0x51; 0x61; 0x95; 0x21])
  <> Ok (timestamp_of bcd_pair_unswapped 0x99 0x30 0x92 0x51 0x61 0x95 0x21).
Proof. vm_compute. discriminate. Qed.
(* ===================================================================== *)
(** ** Positional numbers: digits of [w] bits, least significant first    *)
(* ===================================================================== *)

Section Digits.

Variable w : Z.
Hypothesis w_pos : 0 <= w.

Let base_pos : 0 < 2 ^ w.
Proof. apply Z.pow_pos_nonneg; lia. Qed.

Lemma pow_succ_mul (n : nat) : 2 ^ (w * Z.of_nat (S n)) = 2 ^ w * 2 ^ (w * Z.of_nat n).
Proof.
  rewrite <- Z.pow_add_r by nia. f_equal. lia.
Qed.

Lemma digits_length (n : nat) (v : Z) : List.length (digits w n v) = n.
Proof. revert v. induction n; intros v; simpl; [reflexivity | now rewrite IHn]. Qed.

Lemma digits_below (n : nat) (v : Z) : all_below w (digits w n v).
Proof.
  revert v. induction n; intros v; simpl; constructor.
  - apply Z.mod_pos_bound. exact base_pos.
  - apply IHn.
Qed.

Lemma digits_app (n m : nat) (v : Z) :
  digits w (n + m) v = digits w n v ++ digits w m (v / 2 ^ (w * Z.of_nat n)).
Proof.
  revert v. induction n; intros v.
  - simpl. rewrite Z.mul_0_r, Z.pow_0_r, Z.div_1_r. reflexivity.
  - cbn [Nat.add digits app]. rewrite IHn. do 3 f_equal.
    rewrite pow_succ_mul, Z.div_div by (try apply Z.pow_pos_nonneg; nia).
    reflexivity.
Qed.

Lemma digits_add_mul (n : nat) (a b : Z) :
  digits w n (a + 2 ^ (w * Z.of_nat n) * b) = digits w n a.
Proof.
  revert a b. induction n; intros a b; [reflexivity|].
  cbn [digits]. rewrite pow_succ_mul.
  replace (a + 2 ^ w * 2 ^ (w * Z.of_nat n) * b)
    with (a + (2 ^ (w * Z.of_nat n) * b) * 2 ^ w) by ring.
  rewrite Z_mod_plus_full, Z.div_add by lia.
  rewrite Z.add_comm with (n := a / 2 ^ w) at 1.
  rewrite Z.add_comm, IHn. reflexivity.
Qed.

Lemma firstn_digits (n m : nat) (v : Z) :
  (n <= m)%nat -> firstn n (digits w m v) = digits w n v.
Proof.
  intros H. replace m with (n + (m - n))%nat by lia.
  rewrite digits_app.
  rewrite firstn_app, digits_length, Nat.sub_diag, firstn_O, app_nil_r.
  apply firstn_all2. rewrite digits_length. lia.
Qed.

Lemma value_bound (l : list Z) :
  all_below w l -> 0 <= value w l < 2 ^ (w * Z.of_nat (List.length l)).
Proof.
  induction 1 as [|d l Hd Hl IH].
  - simpl. rewrite Z.mul_0_r. simpl. lia.
  - cbn [value List.length]. rewrite pow_succ_mul. nia.
Qed.

Lemma digits_value (l : list Z) :
  all_below w l -> digits w (List.length l) (value w l) = l.
Proof.
  induction 1 as [|d l Hd Hl IH]; [reflexivity|].
  cbn [value List.length digits].
  replace (d + 2 ^ w * value w l) with (d + value w l * 2 ^ w) by ring.
  rewrite Z_mod_plus_full, Z.div_add by lia.
  rewrite Z.mod_small, Z.div_small by lia.
  simpl. rewrite IH. reflexivity.
Qed.

Lemma value_digits (n : nat) (v : Z) :
  value w (digits w n v) = v mod 2 ^ (w * Z.of_nat n).
Proof.
  revert v. induction n; intros v.
  - simpl. rewrite Z.mul_0_r, Z.pow_0_r, Z.mod_1_r. reflexivity.
  - cbn [digits value]. rewrite IHn, pow_succ_mul.
    rewrite Z.rem_mul_r by (try apply Z.pow_pos_nonneg; nia).
    reflexivity.
Qed.

End Digits.
(* ===================================================================== *)
(** ** The septet unpacker                                                *)
(* ===================================================================== *)

Lemma lor_shiftl_add (a b n : Z) :
  0 <= n -> 0 <= a < 2 ^ n -> Z.lor a (Z.shiftl b n) = a + b * 2 ^ n.
Proof.
  intros Hn Ha. rewrite Z.shiftl_mul_pow2 by lia.
  rewrite <- Z.add_lor_land.
  assert (H0 : Z.land a (b * 2 ^ n) = 0); [|rewrite H0; lia].
  apply Z.bits_inj'. intros i Hi.
  rewrite Z.land_spec, Z.bits_0.
  destruct (Z.ltb_spec i n) as [Hlt|Hge].
  - rewrite Z.mul_pow2_bits_low by lia. apply andb_false_r.
  - rewrite <- (Z.mod_small a (2 ^ n)) by lia.
    rewrite Z.mod_pow2_bits_high by lia. reflexivity.
Qed.

(** What the inner loop does: [k = buflen / 7] septets leave the
    accumulator. *)
Lemma drain_spec (buf buflen : Z) (out : slice) :
  0 <= buflen ->
  exists out',
    drain buf buflen out
    = (buf / 2 ^ (7 * Z.of_nat (Z.to_nat (buflen / 7))), buflen mod 7, out')
    /\ vis out' = vis out ++ digits 7 (Z.to_nat (buflen / 7)) buf.
Proof.
  funelim (drain buf buflen out); intros Hlen.
  - destruct H as (out' & Heq' & Hvis); [lia|].
    exists out'. rewrite Heq'.
    assert (Hq : buflen / 7 = (buflen - 7) / 7 + 1)
      by (replace buflen with (buflen - 7 + 1 * 7) at 1 by ring;
          now rewrite Z.div_add by lia).
    assert (Hq0 : 0 <= (buflen - 7) / 7) by (apply Z.div_pos; lia).
    assert (Hr : (buflen - 7) mod 7 = buflen mod 7)
      by (replace buflen with (buflen - 7 + 1 * 7) at 2 by ring;
          now rewrite Z_mod_plus_full).
    rewrite Hq, Z2Nat.inj_add, Hr by lia.
    change (Z.to_nat 1) with 1%nat.
    rewrite Nat.add_comm with (m := 1%nat).
    split.
    + do 2 f_equal. cbn [Nat.add]. rewrite pow_succ_mul by lia.
      rewrite shiftr_7, Z.div_div by (try apply Z.pow_pos_nonneg; lia).
      reflexivity.
    + rewrite Hvis, vis_append, <- app_assoc. f_equal.
      cbn [Nat.add digits app]. rewrite land_127, shiftr_7.
      rewrite uint8_small by (pose proof (Z.mod_pos_bound buf 128); lia).
      reflexivity.
  - exists out.
    assert (Hq : buflen / 7 = 0) by (apply Z.div_small; lia).
    rewrite Hq, Z.mod_small by lia.
    change (Z.to_nat 0) with 0%nat.
    cbn [digits Z.of_nat]. rewrite Z.mul_0_r, Z.pow_0_r, Z.div_1_r, app_nil_r.
    split; reflexivity.
Qed.

Lemma unpack7bit_loop_vis (s : list Z) :
  bytes s ->
  forall (buf buflen : Z) (out : slice),
  0 <= buflen < 7 -> 0 <= buf < 2 ^ buflen ->
  vis (unpack7bit_loop s buf buflen out)
  = vis out
    ++ digits 7 (Z.to_nat ((buflen + 8 * Z.of_nat (List.length s)) / 7))
              (buf + 2 ^ buflen * value 8 s).
Proof.
  induction 1 as [|s0 s Hs0 Hs IH]; intros buf buflen out Hlen Hbuf.
  - cbn [unpack7bit_loop List.length value Z.of_nat].
    rewrite Z.mul_0_r, Z.add_0_r, Z.div_small by lia.
    simpl. now rewrite app_nil_r.
  - unfold is_byte in Hs0. cbn [unpack7bit_loop].
    assert (Hp : 0 < 2 ^ buflen) by (apply Z.pow_pos_nonneg; lia).
    assert (Hp6 : 2 ^ buflen <= 2 ^ 6) by (apply Z.pow_le_mono_r; lia).
    rewrite (uint16_small s0) by lia.
    rewrite Z.shiftl_mul_pow2 by lia.
    rewrite uint16_small by (change (2 ^ 6) with 64 in Hp6; nia).
    rewrite <- Z.shiftl_mul_pow2 by lia.
    rewrite lor_shiftl_add by lia.
    set (nb := buf + s0 * 2 ^ buflen).
    destruct (drain_spec nb (buflen + 8) out) as (out' & Hd & Hvis); [lia|].
    rewrite Hd.
    set (k := Z.to_nat ((buflen + 8) / 7)) in *.
    assert (Hk : 7 * Z.of_nat k + (buflen + 8) mod 7 = buflen + 8).
    { unfold k. rewrite Z2Nat.id by (apply Z.div_pos; lia).
      symmetry. apply Z.div_mod. lia. }
    pose proof (Z.mod_pos_bound (buflen + 8) 7 ltac:(lia)) as Hm.
    assert (Hsplit : 2 ^ (buflen + 8)
                     = 2 ^ (7 * Z.of_nat k) * 2 ^ ((buflen + 8) mod 7)).
    { rewrite <- Z.pow_add_r by lia. now rewrite Hk. }
    assert (Hpk : 0 < 2 ^ (7 * Z.of_nat k)) by (apply Z.pow_pos_nonneg; lia).
    assert (Hnb : 0 <= nb < 2 ^ (buflen + 8)).
    { unfold nb. rewrite Z.pow_add_r by lia. change (2 ^ 8) with 256. nia. }
    rewrite IH.
    + rewrite Hvis, <- app_assoc. f_equal.
      cbn [List.length value].
      replace (Z.to_nat ((buflen + 8 * Z.of_nat (S (List.length s))) / 7))
        with (k + Z.to_nat (((buflen + 8) mod 7 + 8 * Z.of_nat (List.length s)) / 7))%nat.
      2:{ unfold k. rewrite <- Z2Nat.inj_add by (try apply Z.div_pos; lia).
          f_equal.
          replace (buflen + 8 * Z.of_nat (S (List.length s)))
            with ((buflen + 8) mod 7 + 8 * Z.of_nat (List.length s)
                  + ((buflen + 8) / 7) * 7).
          - rewrite Z.div_add by lia. lia.
          - unfold k in Hk. rewrite Z2Nat.id in Hk by (apply Z.div_pos; lia). lia. }
      rewrite digits_app by lia.
      replace (buf + 2 ^ buflen * (s0 + 2 ^ 8 * value 8 s))
        with (nb + 2 ^ (7 * Z.of_nat k) * (2 ^ ((buflen + 8) mod 7) * value 8 s)).
      2:{ unfold nb. rewrite Z.mul_assoc, <- Hsplit, Z.pow_add_r by lia. ring. }
      rewrite digits_add_mul by lia. f_equal. f_equal.
      rewrite Z.mul_comm with (n := 2 ^ (7 * Z.of_nat k)).
      rewrite Z.div_add by lia. reflexivity.
    + lia.
    + split; [apply Z.div_pos; lia|].
      apply Z.div_lt_upper_bound; [lia|]. rewrite <- Hsplit. lia.
Qed.

Lemma unpack7bit_vis (s : slice) :
  bytes (vis s) ->
  vis (unpack7bit s)
  = digits 7 (Z.to_nat (8 * len s / 7)) (value 8 (vis s)).
Proof.
  intros Hs. unfold unpack7bit.
  rewrite unpack7bit_loop_vis by (try assumption; simpl; lia).
  unfold make0, len. cbn [vis app Z.add].
  rewrite Z.mul_1_l. reflexivity.
Qed.

(** The output buffer is made with room for [len(s)+len(s)/7+1]
    septets and [8*len(s)/7] are appended: [append] never has to grow
    it, and one element of the backing array is left over. *)
Lemma spare_append (s : slice) (x : Z) :
  spare (append s x) = skipn 1 (spare s).
Proof. unfold append. destruct (spare s); reflexivity. Qed.

Lemma drain_spare (buf buflen : Z) (out : slice) :
  0 <= buflen ->
  spare (snd (drain buf buflen out))
  = skipn (Z.to_nat (buflen / 7)) (spare out).
Proof.
  funelim (drain buf buflen out); intros Hlen.
  - rewrite H by lia. rewrite spare_append, skipn_skipn.
    f_equal.
    assert (Hq : buflen / 7 = (buflen - 7) / 7 + 1)
      by (replace buflen with (buflen - 7 + 1 * 7) at 1 by ring;
          now rewrite Z.div_add by lia).
    assert (0 <= (buflen - 7) / 7) by (apply Z.div_pos; lia). lia.
  - rewrite Z.div_small by lia. reflexivity.
Qed.

Lemma unpack7bit_loop_spare (s : list Z) :
  forall (buf buflen : Z) (out : slice),
  0 <= buflen < 7 ->
  spare (unpack7bit_loop s buf buflen out)
  = skipn (Z.to_nat ((buflen + 8 * Z.of_nat (List.length s)) / 7)) (spare out).
Proof.
  induction s as [|s0 s IH]; intros buf buflen out Hlen.
  - cbn [unpack7bit_loop List.length Z.of_nat].
    rewrite Z.mul_0_r, Z.add_0_r, Z.div_small by lia. reflexivity.
  - cbn [unpack7bit_loop].
    set (nb := Z.lor buf _).
    pose proof (drain_spare nb (buflen + 8) out ltac:(lia)) as Hsp.
    destruct (drain_spec nb (buflen + 8) out) as (out' & Hd & _); [lia|].
    rewrite Hd in *. cbn [snd] in Hsp.
    pose proof (Z.mod_pos_bound (buflen + 8) 7 ltac:(lia)) as Hm.
    rewrite IH, Hsp, skipn_skipn by lia. f_equal.
    rewrite <- Z2Nat.inj_add by (apply Z.div_pos; lia). f_equal.
    cbn [List.length].
    replace (buflen + 8 * Z.of_nat (S (List.length s)))
      with ((buflen + 8) mod 7 + 8 * Z.of_nat (List.length s)
            + ((buflen + 8) / 7) * 7)
      by (pose proof (Z.div_mod (buflen + 8) 7 ltac:(lia)); lia).
    rewrite Z.div_add by lia. reflexivity.
Qed.

Lemma unpack7bit_spare (s : slice) : spare (unpack7bit s) = [0].
Proof.
  unfold unpack7bit. rewrite unpack7bit_loop_spare by lia.
  unfold make0. cbn [spare]. fold (len s).
  set (n := len s). assert (Hn : 0 <= n) by (unfold n, len; lia).
  assert (Hd : (0 + 8 * n) / 7 = n + n / 7).
  { replace (0 + 8 * n) with (n + n * 7) by ring.
    rewrite Z.div_add by lia. lia. }
  rewrite Hd.
  assert (Hq : 0 <= n / 7) by (apply Z.div_pos; lia).
  replace (Z.to_nat (n + n / 7 + 1)) with (Z.to_nat (n + n / 7) + 1)%nat by lia.
  rewrite repeat_app, skipn_app, repeat_length, Nat.sub_diag.
  rewrite skipn_all2 by (rewrite repeat_length; lia).
  reflexivity.
Qed.

Lemma unpack7bit_len (s : slice) :
  bytes (vis s) -> len (unpack7bit s) = 8 * len s / 7.
Proof.
  intros Hs. unfold len at 1. rewrite unpack7bit_vis by assumption.
  rewrite digits_length, Z2Nat.id; [reflexivity|].
  apply Z.div_pos; unfold len; lia.
Qed.

Lemma unpack7bit_septets (s : slice) :
  bytes (vis s) -> Forall (fun x => 0 <= x < 128) (vis (unpack7bit s)).
Proof.
  intros Hs. rewrite unpack7bit_vis by assumption.
  apply (digits_below 7). lia.
Qed.

Lemma Forall_firstn {A : Type} (P : A -> Prop) (n : nat) (l : list A) :
  Forall P l -> Forall P (firstn n l).
Proof.
  intros H. revert n. induction H; intros [|n]; simpl; constructor; auto.
Qed.

Lemma Forall_skipn {A : Type} (P : A -> Prop) (n : nat) (l : list A) :
  Forall P l -> Forall P (skipn n l).
Proof.
  intros H. revert n. induction H; intros [|n]; simpl; try constructor; auto.
Qed.

(** Cutting a slice down to a length it has. *)
Lemma slice_to_len (s : slice) (n : Z) :
  0 <= n <= len s ->
  exists r, slice_to s n = Ok r /\ vis r = firstn (Z.to_nat n) (vis s).
Proof.
  intros Hn. unfold slice_to.
  rewrite slice_range_ok by (pose proof (len_cap s); lia).
  eexists. split; [reflexivity|]. cbn [vis].
  change (Z.to_nat 0) with 0%nat. rewrite skipn_O, Z.sub_0_r.
  rewrite firstn_app.
  replace (Z.to_nat n - List.length (vis s))%nat with 0%nat by (unfold len in Hn; lia).
  rewrite firstn_O, app_nil_r. reflexivity.
Qed.

Lemma translate_loop_ok (s : list Z) :
  Forall (fun x => 0 <= x < 128) s ->
  exists r, translate_loop s basicSMSset = Ok r /\ List.length r = List.length s.
Proof.
  induction 1 as [|b s Hb Hs IH].
  - exists []. split; reflexivity.
  - destruct IH as (r & Hr & Hl).
    exists (nth (Z.to_nat b) basicSMSset 0 :: r).
    cbn [translate_loop]. unfold lookup.
    replace ((0 <=? b) && (b <? Z.of_nat (List.length basicSMSset))) with true.
    + unfold bind. rewrite Hr. split; [reflexivity | simpl; now rewrite Hl].
    + symmetry. apply andb_true_iff.
      split; [apply Z.leb_le | apply Z.ltb_lt]; simpl; lia.
Qed.

(** C9.  The 7-bit user-data path is safe by arithmetic: for a septet
    count [length] in 0..255 the unpacker turns
    [packedLen = length - length/8] bytes into [8*packedLen/7 >= length]
    septets, so cutting the output down to [length] is within bounds,
    and every septet is below 128, so the look-up in the 128-entry
    alphabet is within bounds. *)
Theorem septet_path_in_range (length : Z) (packed : slice)
  (Hlen : 0 <= length <= 255)
  (Hbytes : bytes (vis packed))
  (Hpacked : len packed = length - Z.quot length 8) :
  len (unpack7bit packed) = 8 * len packed / 7
  /\ length <= len (unpack7bit packed)
  /\ Forall (fun x => 0 <= x < 128) (vis (unpack7bit packed))
  /\ exists raw text,
       slice_to (unpack7bit packed) length = Ok raw
       /\ len raw = length
       /\ translateSMS raw basicSMSset = Ok text.
Proof.
  assert (Hl : len (unpack7bit packed) = 8 * len packed / 7)
    by now apply unpack7bit_len.
  assert (Hge : length <= len (unpack7bit packed)).
  { rewrite Hl, Hpacked. rewrite Z.quot_div_nonneg by lia.
    apply Z.div_le_lower_bound; [lia|].
    pose proof (Z.mul_div_le length 8 ltac:(lia)). lia. }
  pose proof (unpack7bit_septets packed Hbytes) as Hs.
  repeat split; try assumption.
  destruct (slice_to_len (unpack7bit packed) length) as (raw & Hraw & Hvis); [lia|].
  assert (Hrs : Forall (fun x => 0 <= x < 128) (vis raw)).
  { rewrite Hvis. now apply Forall_firstn. }
  destruct (translate_loop_ok (vis raw) Hrs) as (r & Hr & _).
  exists raw, (string_of_runes r). repeat split.
  - exact Hraw.
  - unfold len. rewrite Hvis, length_firstn. unfold len in Hge. lia.
  - unfold translateSMS, bind. rewrite Hr. reflexivity.
Qed.

Lemma septet_path_in_range_witness :
  0 <= 5 <= 255
  /\ bytes (vis (of_list [0xE8; 0x32; 0x9B; 0xFD; 0x06]))
  /\ len (of_list [0xE8; 0x32; 0x9B; 0xFD; 0x06]) = 5 - Z.quot 5 8
  /\ 5 <= len (unpack7bit (of_list [0xE8; 0x32; 0x9B; 0xFD; 0x06])).
Proof.
  assert (H1 : 0 <= 5 <= 255) by lia.
  assert (H2 : bytes (vis (of_list [0xE8; 0x32; 0x9B; 0xFD; 0x06])))
    by (repeat constructor; unfold is_byte; lia).
  assert (H3 : len (of_list [0xE8; 0x32; 0x9B; 0xFD; 0x06]) = 5 - Z.quot 5 8)
    by reflexivity.
  repeat split; try assumption; try lia.
  exact (proj1 (proj2 (septet_path_in_range 5 _ H1 H2 H3))).
Defined.

(* ===================================================================== *)
(** ** Packing and unpacking                                              *)
(* ===================================================================== *)

Example pack7bit_hellohello :
  pack7bit [0x68; 0x65; 0x6C; 0x6C; 0x6F; 0x68; 0x65; 0x6C; 0x6C; 0x6F]
  = [0xE8; 0x32; 0x9B; 0xFD; 0x46; 0x97; 0xD9; 0xEC; 0x37].
Proof. vm_compute. reflexivity. Qed.

Lemma pack7bit_length (l : list Z) :
  Z.of_nat (List.length (pack7bit l)) = (7 * Z.of_nat (List.length l) + 7) / 8.
Proof.
  unfold pack7bit. rewrite digits_length, Z2Nat.id; [reflexivity|].
  apply Z.div_pos; lia.
Qed.

Lemma pack7bit_value (l : list Z) :
  Forall (fun d => 0 <= d < 128) l -> value 8 (pack7bit l) = value 7 l.
Proof.
  intros Hl. unfold pack7bit. rewrite value_digits by lia.
  pose proof (value_bound 7 ltac:(lia) l Hl) as Hb.
  set (L := Z.of_nat (List.length l)) in *.
  assert (HL : 0 <= L) by (unfold L; lia).
  rewrite Z2Nat.id by (apply Z.div_pos; lia).
  apply Z.mod_small. split; [lia|].
  eapply Z.lt_le_trans; [apply Hb|].
  apply Z.pow_le_mono_r; [lia|].
  pose proof (Z.mod_pos_bound (7 * L + 7) 8 ltac:(lia)).
  pose proof (Z.div_mod (7 * L + 7) 8 ltac:(lia)). lia.
Qed.

(** The unpacker on any bytes that hold the septets [l] in packed form,
    whatever is in the padding bits. *)
Lemma unpack_packed_form (l bs : list Z) :
  Forall (fun d => 0 <= d < 128) l ->
  bytes bs ->
  7 * Z.of_nat (List.length l) <= 8 * Z.of_nat (List.length bs) ->
  value 8 bs mod 2 ^ (7 * Z.of_nat (List.length l)) = value 7 l ->
  firstn (List.length l) (vis (unpack7bit (of_list bs))) = l.
Proof.
  intros Hl Hb Hlen Hv.
  rewrite unpack7bit_vis by exact Hb. cbn [of_list vis]. unfold len. cbn [vis].
  rewrite firstn_digits.
  - rewrite (Z.div_mod (value 8 bs) (2 ^ (7 * Z.of_nat (List.length l))))
      by (apply Z.pow_nonzero; lia).
    rewrite Z.add_comm, digits_add_mul, Hv by lia.
    apply digits_value; [lia | exact Hl].
  - lia.
  - apply Nat2Z.inj_le. rewrite Z2Nat.id by (apply Z.div_pos; lia).
    apply Z.div_le_lower_bound; cbn [of_list vis]; lia.
Qed.

(** C5.  Packing [L] septets into [ceil(L*7/8)] bytes, unpacking them
    and cutting the output down to [L] septets gives the septets back. *)
Theorem pack_unpack_roundtrip (l : list Z)
  (Hl : Forall (fun d => 0 <= d < 128) l) :
  Z.of_nat (List.length (pack7bit l)) = (7 * Z.of_nat (List.length l) + 7) / 8
  /\ exists r,
       slice_to (unpack7bit (of_list (pack7bit l))) (Z.of_nat (List.length l)) = Ok r
       /\ vis r = l.
Proof.
  split; [apply pack7bit_length|].
  assert (Hb : bytes (vis (of_list (pack7bit l)))).
  { cbn [of_list vis]. apply (digits_below 8). lia. }
  set (L := Z.of_nat (List.length l)).
  assert (Hn : L <= 8 * len (of_list (pack7bit l)) / 7).
  { unfold len. cbn [of_list vis]. rewrite pack7bit_length. fold L.
    apply Z.div_le_lower_bound; [lia|].
    pose proof (Z.mod_pos_bound (7 * L + 7) 8 ltac:(lia)).
    pose proof (Z.div_mod (7 * L + 7) 8 ltac:(lia)). lia. }
  destruct (slice_to_len (unpack7bit (of_list (pack7bit l))) L) as (r & Hr & Hv).
  { rewrite unpack7bit_len by assumption. unfold L. lia. }
  exists r. split; [exact Hr|].
  rewrite Hv, unpack7bit_vis by assumption.
  cbn [of_list vis]. rewrite pack7bit_value by assumption.
  rewrite firstn_digits by (try lia; unfold L in *; lia).
  unfold L. rewrite Nat2Z.id. apply digits_value; [lia | exact Hl].
Qed.

Lemma pack_unpack_roundtrip_witness :
  Forall (fun d => 0 <= d < 128) [0x68; 0x65; 0x6C; 0x6C; 0x6F; 0x21; 0x40; 0x7F]
  /\ exists r,
       slice_to (unpack7bit (of_list (pack7bit [0x68; 0x65; 0x6C; 0x6C; 0x6F; 0x21; 0x40; 0x7F]))) 8 = Ok r
       /\ vis r = [0x68; 0x65; 0x6C; 0x6C; 0x6F; 0x21; 0x40; 0x7F].
Proof.
  assert (H : Forall (fun d => 0 <= d < 128) [0x68; 0x65; 0x6C; 0x6C; 0x6F; 0x21; 0x40; 0x7F])
    by (repeat constructor; lia).
  split; [exact H|].
  exact (proj2 (pack_unpack_roundtrip _ H)).
Defined.

(* ===================================================================== *)
(** ** The reserved message type                                          *)
(* ===================================================================== *)

Lemma nth_error_skipn {A : Type} (l : list A) (n : nat) (x : A) :
  nth_error l n = Some x -> skipn n l = x :: skipn (S n) l.
Proof.
  revert n. induction l as [|a l IH]; intros [|n] H; try discriminate.
  - injection H as ->. reflexivity.
  - simpl in H. apply IH in H. exact H.
Qed.

Lemma nth_error_len {A : Type} (l : list A) (n : nat) (x : A) :
  nth_error l n = Some x -> (n < List.length l)%nat.
Proof. intros H. apply nth_error_Some. congruence. Qed.

(** C1, as amended.  For every message buffer whose PDU region (offset
    0xb0) starts with a byte whose low two bits are 3, [parseMessage]
    returns nothing, neither a message nor an error: it panics, and with
    "invalid message type 3" when the scan for the peer name ends inside
    the buffer. *)
Theorem parseMessage_type3_panics (s : slice) (b : Z)
  (Hb : nth_error (vis s) 176 = Some b)
  (H3 : Z.land b 3 = 3) :
  panics (parseMessage s) = true
  /\ ~ returns_error (parseMessage s)
  /\ forall runes,
       peer_loop (skipn 94 (vis s)) [] = Ok runes ->
       parseMessage s = Panic (explicit_panic "invalid message type 3").
Proof.
  assert (Hgo : forall runes,
             peer_loop (skipn 94 (vis s)) [] = Ok runes ->
             parseMessage s = Panic (explicit_panic "invalid message type 3")).
  { intros runes Hr. unfold parseMessage, parseMessage_pdu.
    change (Z.to_nat 94) with 94%nat. rewrite Hr. cbn [bind].
    pose proof (nth_error_len _ _ _ Hb) as Hlen.
    rewrite slice_from_ok by (unfold len; lia). cbn [bind].
    change (Z.to_nat 176) with 176%nat.
    rewrite (nth_error_skipn _ _ _ Hb).
    rewrite index_ok by (unfold len; cbn [vis List.length]; lia).
    cbn [bind vis nth Z.to_nat]. rewrite H3. reflexivity. }
  assert (Hp : panics (parseMessage s) = true).
  { destruct (peer_loop (skipn 94 (vis s)) []) as [runes|p] eqn:Hr.
    - rewrite (Hgo runes eq_refl). reflexivity.
    - unfold parseMessage, parseMessage_pdu.
      change (Z.to_nat 94) with 94%nat. rewrite Hr. reflexivity. }
  split; [exact Hp|]. split; [|exact Hgo].
  intros (a & e & He). rewrite He in Hp. discriminate Hp.
Qed.

Lemma parseMessage_type3_panics_witness :
  nth_error (vis type3_file) 176 = Some 3
  /\ Z.land 3 3 = 3
  /\ panics (parseMessage type3_file) = true.
Proof.
  assert (H1 : nth_error (vis type3_file) 176 = Some 3) by reflexivity.
  assert (H2 : Z.land 3 3 = 3) by reflexivity.
  split; [exact H1|]. split; [exact H2|].
  exact (proj1 (parseMessage_type3_panics type3_file 3 H1 H2)).
Defined.

(** C1 as it was stated fails: on [type3_file] the PDU starts with a
    byte whose low two bits are 3, and the call does not return an
    error, it panics. *)
Lemma parseMessage_type3_no_error :
  Z.land (nth 176 (vis type3_file) 0) 3 = 3
  /\ parseMessage type3_file = Panic (explicit_panic "invalid message type 3")
  /\ ~ returns_error (parseMessage type3_file).
Proof.
  split; [reflexivity|]. split; [vm_compute; reflexivity|].
  intros (a & e & H). vm_compute in H. discriminate H.
Qed.

(* ===================================================================== *)
(** ** File names                                                         *)
(* ===================================================================== *)

Lemma slen_sdrop (n : nat) (s : string) :
  Z.of_nat n <= slen s -> slen (sdrop n s) = slen s - Z.of_nat n.
Proof.
  unfold slen. revert s. induction n as [|n IH]; intros s H.
  - cbn [sdrop]. lia.
  - destruct s as [|c s]; cbn [sdrop String.length] in *; [lia|].
    rewrite IH by lia. lia.
Qed.

Lemma sdrop_sdrop (n m : nat) (s : string) :
  sdrop n (sdrop m s) = sdrop (m + n) s.
Proof.
  revert s. induction m as [|m IH]; intros s; [reflexivity|].
  destruct s as [|c s]; simpl.
  - destruct n; reflexivity.
  - apply IH.
Qed.

Lemma str_from_ok (s : string) (lo : Z) :
  0 <= lo <= slen s -> str_from s lo = Ok (sdrop (Z.to_nat lo) s).
Proof.
  intros H. unfold str_from.
  replace ((0 <=? lo) && (lo <=? slen s)) with true; [reflexivity|].
  symmetry. apply andb_true_iff. split; apply Z.leb_le; lia.
Qed.

Lemma str_from_panics (s : string) (lo : Z) :
  slen s < lo -> str_from s lo = Panic slice_bounds_out_of_range.
Proof.
  intros H. unfold str_from.
  replace (lo <=? slen s) with false; [now rewrite andb_false_r|].
  symmetry. apply Z.leb_gt. lia.
Qed.

Lemma str_to_ok (s : string) (hi : Z) :
  0 <= hi <= slen s -> str_to s hi = Ok (stake (Z.to_nat hi) s).
Proof.
  intros H. unfold str_to.
  replace ((0 <=? hi) && (hi <=? slen s)) with true; [reflexivity|].
  symmetry. apply andb_true_iff. split; apply Z.leb_le; lia.
Qed.

Lemma str_to_panics (s : string) (hi : Z) :
  slen s < hi -> str_to s hi = Panic slice_bounds_out_of_range.
Proof.
  intros H. unfold str_to.
  replace (hi <=? slen s) with false; [now rewrite andb_false_r|].
  symmetry. apply Z.leb_gt. lia.
Qed.

Lemma str_index_ok (s : string) (i : Z) :
  0 <= i < slen s -> exists c, str_index s i = Ok c.
Proof.
  intros H. unfold str_index.
  replace ((0 <=? i) && (i <? slen s)) with true; [eexists; reflexivity|].
  symmetry. apply andb_true_iff. split; [apply Z.leb_le | apply Z.ltb_lt]; lia.
Qed.

Lemma str_index_panics (s : string) (i : Z) :
  slen s <= i -> str_index s i = Panic index_out_of_range.
Proof.
  intros H. unfold str_index.
  replace (i <? slen s) with false; [now rewrite andb_false_r|].
  symmetry. apply Z.ltb_ge. lia.
Qed.

Lemma getUint32_short (s : string) :
  slen s < 8 -> getUint32 s = Panic slice_bounds_out_of_range.
Proof. intros H. unfold getUint32. now rewrite str_to_panics. Qed.

Lemma getUint32_long (s : string) :
  8 <= slen s ->
  getUint32 s
  = Ok (sdrop 8 s, uint32 (fst (ParseUint (stake 8 s) 16 32)),
        snd (ParseUint (stake 8 s) 16 32)).
Proof.
  intros H. unfold getUint32.
  rewrite str_to_ok by lia. cbn [bind].
  change (Z.to_nat 8) with 8%nat.
  destruct (ParseUint (stake 8 s) 16 32) as [x err].
  rewrite str_from_ok by lia. reflexivity.
Qed.

(** How [ParseFilename] ends depends on the length of the name and on
    the four hex fields only. *)
Lemma ParseFilename_table (msg : Message) (s : string) :
  classify (snd (ParseFilename msg s)) = ParseFilename_outcome s.
Proof.
  unfold ParseFilename, ParseFilename_outcome, hex_ok, hex_field, len_Peer.
  change (sdrop 0 s) with s.
  destruct (Z.ltb_spec (slen s) 8) as [H8|H8].
  { rewrite getUint32_short by lia. reflexivity. }
  rewrite getUint32_long by lia.
  destruct (snd (ParseUint (stake 8 s) 16 32)) as [e|]; [reflexivity|].
  cbn [negb].
  destruct (Z.ltb_spec (slen s) 16) as [H16|H16].
  { rewrite getUint32_short by (rewrite slen_sdrop; lia). reflexivity. }
  rewrite getUint32_long by (rewrite slen_sdrop; lia).
  rewrite sdrop_sdrop. cbn [Nat.add].
  destruct (snd (ParseUint (stake 8 (sdrop 8 s)) 16 32)) as [e|]; [reflexivity|].
  cbn [negb].
  destruct (Z.ltb_spec (slen s) 24) as [H24|H24].
  { rewrite getUint32_short by (rewrite slen_sdrop; lia). reflexivity. }
  rewrite getUint32_long by (rewrite slen_sdrop; lia).
  rewrite sdrop_sdrop. cbn [Nat.add].
  destruct (snd (ParseUint (stake 8 (sdrop 16 s)) 16 32)) as [e|]; [reflexivity|].
  cbn [negb].
  destruct (Z.ltb_spec (slen s) 32) as [H32|H32].
  { rewrite str_from_panics by (rewrite slen_sdrop; lia).
    replace (slen s <? 40) with true by (symmetry; apply Z.ltb_lt; lia).
    reflexivity. }
  rewrite str_from_ok by (rewrite slen_sdrop; lia).
  change (Z.to_nat 8) with 8%nat. rewrite sdrop_sdrop. cbn [Nat.add].
  destruct (Z.ltb_spec (slen s) 40) as [H40|H40].
  { rewrite getUint32_short by (rewrite slen_sdrop; lia). reflexivity. }
  rewrite getUint32_long by (rewrite slen_sdrop; lia).
  rewrite sdrop_sdrop. cbn [Nat.add].
  destruct (snd (ParseUint (stake 8 (sdrop 32 s)) 16 32)) as [e|]; [reflexivity|].
  cbn [negb].
  destruct (Z.ltb_spec (slen s) 65) as [H65|H65].
  { rewrite str_from_panics by (rewrite slen_sdrop; lia).
    replace (slen s <? 85) with true by (symmetry; apply Z.ltb_lt; lia).
    reflexivity. }
  rewrite str_from_ok by (rewrite slen_sdrop; lia).
  change (Z.to_nat 25) with 25%nat. rewrite sdrop_sdrop. cbn [Nat.add].
  destruct (Z.ltb_spec (slen s) 77) as [H77|H77].
  { rewrite str_to_panics by (rewrite slen_sdrop; lia).
    replace (slen s <? 85) with true by (symmetry; apply Z.ltb_lt; lia).
    reflexivity. }
  rewrite str_to_ok by (rewrite slen_sdrop; lia).
  rewrite str_from_ok by (rewrite slen_sdrop; lia).
  change (Z.to_nat 12) with 12%nat. rewrite sdrop_sdrop. cbn [Nat.add].
  destruct (Z.ltb_spec (slen s) 85) as [H85|H85].
  { rewrite str_index_panics by (rewrite slen_sdrop; lia). reflexivity. }
  destruct (str_index_ok (sdrop 77 s) 7) as (c & Hc);
    [rewrite slen_sdrop; lia|].
  rewrite Hc. reflexivity.
Qed.

Lemma classify_err (r : res (option error)) :
  classify r = returns_err -> exists e, r = Ok (Some e).
Proof.
  destruct r as [[e|]|p]; simpl; intros H; try discriminate. now exists e.
Qed.

Lemma classify_panicked (r : res (option error)) :
  classify r = panicked -> exists p, r = Panic p.
Proof.
  destruct r as [[e|]|p]; simpl; intros H; try discriminate. now exists p.
Qed.

Lemma outcome_short (s : string) :
  slen s < 85 -> ParseFilename_outcome s <> returns_nil.
Proof.
  intros H. unfold ParseFilename_outcome.
  replace (slen s <? 85) with true by (symmetry; apply Z.ltb_lt; lia).
  repeat match goal with
         | |- context [if ?c then _ else _] => destruct c
         end; discriminate.
Qed.

Lemma outcome_short_fields_ok (s : string) :
  slen s < 85 ->
  (forall off, In off hex_offsets -> Z.of_nat off + 8 <= slen s ->
               hex_ok (hex_field s off) = true) ->
  ParseFilename_outcome s = panicked.
Proof.
  intros H Hok. unfold ParseFilename_outcome.
  replace (slen s <? 85) with true by (symmetry; apply Z.ltb_lt; lia).
  destruct (Z.ltb_spec (slen s) 8); [reflexivity|].
  rewrite (Hok 0%nat) by (simpl; auto; lia). cbn [negb].
  destruct (Z.ltb_spec (slen s) 16); [reflexivity|].
  rewrite (Hok 8%nat) by (simpl; auto; lia). cbn [negb].
  destruct (Z.ltb_spec (slen s) 24); [reflexivity|].
  rewrite (Hok 16%nat) by (simpl; auto; lia). cbn [negb].
  destruct (Z.ltb_spec (slen s) 40); [reflexivity|].
  rewrite (Hok 32%nat) by (simpl; auto; lia). reflexivity.
Qed.

Lemma outcome_first_bad_field (s : string) (off : nat) :
  In off hex_offsets ->
  Z.of_nat off + 8 <= slen s ->
  hex_ok (hex_field s off) = false ->
  (forall off', In off' hex_offsets -> (off' < off)%nat ->
                hex_ok (hex_field s off') = true) ->
  ParseFilename_outcome s = returns_err.
Proof.
  intros Hin Hlen Hbad Hok. unfold ParseFilename_outcome.
  simpl in Hin.
  destruct Hin as [<-|[<-|[<-|[<-|[]]]]].
  - replace (slen s <? 8) with false by (symmetry; apply Z.ltb_ge; lia).
    rewrite Hbad. reflexivity.
  - replace (slen s <? 8) with false by (symmetry; apply Z.ltb_ge; lia).
    rewrite (Hok 0%nat) by (simpl; auto; lia). cbn [negb].
    replace (slen s <? 16) with false by (symmetry; apply Z.ltb_ge; lia).
    rewrite Hbad. reflexivity.
  - replace (slen s <? 8) with false by (symmetry; apply Z.ltb_ge; lia).
    rewrite (Hok 0%nat) by (simpl; auto; lia). cbn [negb].
    replace (slen s <? 16) with false by (symmetry; apply Z.ltb_ge; lia).
    rewrite (Hok 8%nat) by (simpl; auto; lia). cbn [negb].
    replace (slen s <? 24) with false by (symmetry; apply Z.ltb_ge; lia).
    rewrite Hbad. reflexivity.
  - replace (slen s <? 8) with false by (symmetry; apply Z.ltb_ge; lia).
    rewrite (Hok 0%nat) by (simpl; auto; lia). cbn [negb].
    replace (slen s <? 16) with false by (symmetry; apply Z.ltb_ge; lia).
    rewrite (Hok 8%nat) by (simpl; auto; lia). cbn [negb].
    replace (slen s <? 24) with false by (symmetry; apply Z.ltb_ge; lia).
    rewrite (Hok 16%nat) by (simpl; auto; lia). cbn [negb].
    replace (slen s <? 40) with false by (symmetry; apply Z.ltb_ge; lia).
    rewrite Hbad. reflexivity.
Qed.

Lemma outcome_long_bad_field (s : string) (off : nat) :
  40 <= slen s ->
  In off hex_offsets ->
  hex_ok (hex_field s off) = false ->
  ParseFilename_outcome s = returns_err.
Proof.
  intros Hlen Hin Hbad. unfold ParseFilename_outcome.
  replace (slen s <? 8) with false by (symmetry; apply Z.ltb_ge; lia).
  replace (slen s <? 16) with false by (symmetry; apply Z.ltb_ge; lia).
  replace (slen s <? 24) with false by (symmetry; apply Z.ltb_ge; lia).
  replace (slen s <? 40) with false by (symmetry; apply Z.ltb_ge; lia).
  simpl in Hin.
  destruct Hin as [<-|[<-|[<-|[<-|[]]]]];
    repeat match goal with
           | |- context [negb (hex_ok ?f)] =>
               destruct (hex_ok f) eqn:?; cbn [negb]; try reflexivity
           end; congruence.
Qed.

(** C2, as amended.  [ParseFilename] checks no length.  On a name that
    is too short for some consumption step (fewer than 85 characters) it
    never returns nil: it panics on the out-of-range slice or index
    expression, unless a complete hex field before the missing part does
    not parse, in which case it returns that decode error.  It returns a
    decode error whenever a complete 8-digit field does not parse as a
    32-bit unsigned hex number and the fields before it do, and so
    whenever any of the four fields of a name of at least 40 characters
    does not parse. *)
Theorem ParseFilename_short_or_malformed (msg : Message) (s : string) :
  (slen s < 85 -> snd (ParseFilename msg s) <> Ok None)
  /\ (slen s < 85 ->
      (forall off, In off hex_offsets -> Z.of_nat off + 8 <= slen s ->
                   hex_ok (hex_field s off) = true) ->
      exists p, snd (ParseFilename msg s) = Panic p)
  /\ (forall off,
        In off hex_offsets ->
        Z.of_nat off + 8 <= slen s ->
        hex_ok (hex_field s off) = false ->
        (forall off', In off' hex_offsets -> (off' < off)%nat ->
                      hex_ok (hex_field s off') = true) ->
        exists e, snd (ParseFilename msg s) = Ok (Some e))
  /\ (40 <= slen s ->
      forall off, In off hex_offsets -> hex_ok (hex_field s off) = false ->
      exists e, snd (ParseFilename msg s) = Ok (Some e)).
Proof.
  pose proof (ParseFilename_table msg s) as T.
  repeat split.
  - intros H Hnil. rewrite Hnil in T. simpl in T.
    symmetry in T. revert T. now apply outcome_short.
  - intros H Hok. apply classify_panicked.
    rewrite T. now apply outcome_short_fields_ok.
  - intros off Hin Hlen Hbad Hok. apply classify_err.
    rewrite T. now apply (outcome_first_bad_field s off).
  - intros Hlen off Hin Hbad. apply classify_err.
    rewrite T. now apply (outcome_long_bad_field s off).
Qed.

Lemma ParseFilename_short_or_malformed_witness :
  slen "00001DFC3CEAC36400B72010" < 85
  /\ snd (ParseFilename zeroMessage "00001DFC3CEAC36400B72010") <> Ok None.
Proof.
  assert (H : slen "00001DFC3CEAC36400B72010" < 85) by (vm_compute; reflexivity).
  split; [exact H|].
  exact (proj1 (ParseFilename_short_or_malformed zeroMessage
                  "00001DFC3CEAC36400B72010") H).
Defined.

(** C2 as it was stated fails: a name that ends after the second field
    is too short for the third, and the call does not return a decode
    error, it panics on [s[:8]]. *)
Lemma ParseFilename_short_panics :
  slen "00001DFC3CEAC364" < 24
  /\ snd (ParseFilename zeroMessage "00001DFC3CEAC364")
     = Panic slice_bounds_out_of_range
  /\ ~ (exists e, snd (ParseFilename zeroMessage "00001DFC3CEAC364") = Ok (Some e)).
Proof.
  split; [vm_compute; reflexivity|]. split; [vm_compute; reflexivity|].
  intros (e & H). vm_compute in H. discriminate H.
Qed.

(* ===================================================================== *)
(** ** The SMS-DELIVER TPDU                                               *)
(* ===================================================================== *)

Lemma firstn_length_app {A : Type} (a b : list A) :
  firstn (List.length a) (a ++ b) = a.
Proof. induction a; simpl; [reflexivity | now rewrite IHa]. Qed.

Lemma skipn_length_app {A : Type} (a b : list A) :
  skipn (List.length a) (a ++ b) = b.
Proof. induction a; simpl; auto. Qed.

(** Slicing a buffer that is laid out as [a ++ b ++ c]. *)
Lemma slice_range_app (a b c sp : list Z) (lo hi : Z) :
  lo = Z.of_nat (List.length a) ->
  hi = lo + Z.of_nat (List.length b) ->
  slice_range (mkSlice (a ++ b ++ c) sp) lo hi = Ok (mkSlice b (c ++ sp)).
Proof.
  intros -> ->.
  rewrite slice_range_ok
    by (unfold cap; cbn [vis spare]; rewrite ?length_app; lia).
  cbn [vis spare].
  replace (Z.to_nat (Z.of_nat (List.length a) + Z.of_nat (List.length b)
                     - Z.of_nat (List.length a)))
    with (List.length b) by lia.
  rewrite Nat2Z.id.
  replace (Z.to_nat (Z.of_nat (List.length a) + Z.of_nat (List.length b)))
    with (List.length (a ++ b)) by (rewrite length_app; lia).
  rewrite <- !app_assoc, skipn_length_app, firstn_length_app.
  rewrite (app_assoc a b), skipn_length_app.
  reflexivity.
Qed.

Lemma slice_from_app (a b sp : list Z) (lo : Z) :
  lo = Z.of_nat (List.length a) ->
  slice_from (mkSlice (a ++ b) sp) lo = Ok (mkSlice b sp).
Proof.
  intros ->.
  rewrite slice_from_ok
    by (unfold len; cbn [vis]; rewrite length_app; lia).
  cbn [vis spare]. rewrite Nat2Z.id, skipn_length_app. reflexivity.
Qed.

Lemma index_app (a c sp : list Z) (x i : Z) :
  i = Z.of_nat (List.length a) ->
  index (mkSlice (a ++ x :: c) sp) i = Ok x.
Proof.
  intros ->.
  rewrite index_ok
    by (unfold len; cbn [vis]; rewrite length_app; cbn [List.length]; lia).
  cbn [vis]. rewrite Nat2Z.id, app_nth2, Nat.sub_diag by lia. reflexivity.
Qed.

(** Rewriting with a layout lemma whose lists are written with [++]. *)
Ltac rew_layout lem :=
  let E := fresh "E" in
  pose proof lem as E; cbn [app] in E; rewrite <- ?app_assoc in E;
  cbn [app] in E; cbn [app];
  rewrite E
    by (rewrite ?length_app; cbn [List.length]; rewrite ?length_app;
        cbn [List.length]; lia);
  clear E; cbn [bind].

(** The header of the TPDU: type, address length, type of address,
    address, protocol identifier, data coding scheme, time stamp. *)
Lemma parseDeliverMessage_header
  (t nb toa : Z) (addr : list Z) (pid fmt b0 b1 b2 b3 b4 b5 b6 : Z)
  (rest sp : list Z) :
  Z.quot (nb + 1) 2 = Z.of_nat (List.length addr) ->
  parseDeliverMessage
    (mkSlice (t :: nb :: toa :: addr
                ++ pid :: fmt :: [b0; b1; b2; b3; b4; b5; b6] ++ rest) sp)
  = parseDeliverMessage_payload
      (deliver_header t addr fmt (timestamp_of bcd_pair b0 b1 b2 b3 b4 b5 b6))
      (Z.quot (nb + 1) 2 + 12)
      (mkSlice rest sp).
Proof.
  intros Hk. unfold parseDeliverMessage.
  set (ts := [b0; b1; b2; b3; b4; b5; b6]).
  set (r := pid :: fmt :: ts ++ rest).
  rew_layout (index_app [] (nb :: toa :: addr ++ r) sp t 0).
  rew_layout (index_app [t] (toa :: addr ++ r) sp nb 1).
  rewrite Hk.
  rew_layout (slice_range_app [t; nb; toa] addr r sp
                3 (3 + Z.of_nat (List.length addr))).
  rew_layout (slice_from_app ([t; nb; toa] ++ addr) r sp
                (0 + (3 + Z.of_nat (List.length addr)))).
  unfold r, ts.
  rew_layout (index_app [pid] ([b0; b1; b2; b3; b4; b5; b6] ++ rest) sp fmt 1).
  rew_layout (slice_range_app [pid; fmt] [b0; b1; b2; b3; b4; b5; b6] rest sp 2 9).
  rewrite parseDateTime_ok. cbn [bind].
  rew_layout (slice_from_app (([t; nb; toa] ++ addr)
                                ++ pid :: fmt :: [b0; b1; b2; b3; b4; b5; b6]) rest sp
                (0 + (3 + Z.of_nat (List.length addr)) + (2 + 7))).
  replace (0 + (3 + Z.of_nat (List.length addr)) + (2 + 7))
    with (Z.of_nat (List.length addr) + 12) by lia.
  reflexivity.
Qed.

(** *** The protocol identifier *)

Ltac destruct_binds H :=
  repeat match type of H with
         | context [match ?x with _ => _ end] =>
             destruct x eqn:?; try discriminate H
         end.

Lemma concat_keeps_Protocol (msg msg' : deliverMessage) (size size' : Z) (ud : slice) :
  parseDeliverMessage_concat msg size ud = Ok (msg', size') ->
  Protocol msg' = Protocol msg.
Proof.
  unfold parseDeliverMessage_concat, bind. intros H.
  destruct_binds H; injection H as <- <-; reflexivity.
Qed.

Lemma payload_keeps_Protocol (msg msg' : deliverMessage) (size size' : Z) (p : slice) :
  parseDeliverMessage_payload msg size p = Ok (msg', size') ->
  Protocol msg' = Protocol msg.
Proof.
  unfold parseDeliverMessage_payload, bind. intros H.
  destruct (Unicode msg) eqn:HU.
  - destruct (index p 0); [|discriminate H].
    destruct (slice_range p 1 (a + 1)); [|discriminate H].
    destruct (slice_from p 1); [|discriminate H].
    apply concat_keeps_Protocol in H. exact H.
  - destruct (index p 0); [|discriminate H].
    destruct (slice_range p 1 _); [|discriminate H].
    destruct (slice_to _ a); [|discriminate H].
    destruct (slice_from p 1); [|discriminate H].
    apply concat_keeps_Protocol in H. exact H.
Qed.

Lemma index_tail (x y : Z) (l sp : list Z) (i : Z) :
  1 <= i -> index (mkSlice (x :: l) sp) i = index (mkSlice (y :: l) sp) i.
Proof.
  intros Hi. unfold index, len. cbn [vis List.length].
  replace (Z.to_nat i) with (S (Z.to_nat (i - 1))) by lia.
  reflexivity.
Qed.

Lemma slice_range_tail (x y : Z) (l sp : list Z) (lo hi : Z) :
  1 <= lo ->
  slice_range (mkSlice (x :: l) sp) lo hi = slice_range (mkSlice (y :: l) sp) lo hi.
Proof.
  intros Hlo. unfold slice_range, cap. cbn [vis spare List.length app].
  destruct ((0 <=? lo) && (lo <=? hi)
            && (hi <=? Z.of_nat (S (List.length l) + List.length sp))) eqn:Hc;
    [|reflexivity].
  apply andb_true_iff in Hc. destruct Hc as [Hc _].
  apply andb_true_iff in Hc. destruct Hc as [_ Hc]. apply Z.leb_le in Hc.
  replace (Z.to_nat lo) with (S (Z.to_nat (lo - 1))) by lia.
  replace (Z.to_nat hi) with (S (Z.to_nat (hi - 1))) by lia.
  reflexivity.
Qed.

Lemma slice_from_behind (pre post sp : list Z) (x y : Z) (lo : Z) :
  Z.of_nat (List.length pre) < lo ->
  slice_from (mkSlice (pre ++ x :: post) sp) lo
  = slice_from (mkSlice (pre ++ y :: post) sp) lo.
Proof.
  intros Hlo. unfold slice_from, len. cbn [vis spare].
  rewrite !length_app. cbn [List.length].
  destruct ((0 <=? lo)
            && (lo <=? Z.of_nat (List.length pre + S (List.length post))));
    [|reflexivity].
  replace (Z.to_nat lo)
    with (S (Z.to_nat (lo - Z.of_nat (List.length pre) - 1)) + List.length pre)%nat
    by lia.
  rewrite <- !skipn_skipn.
  rewrite !skipn_length_app. reflexivity.
Qed.

(** C10.  [parseDeliverMessage] never assigns [Protocol]: whatever the
    buffer, the message it returns has [Protocol] zero, and the byte at
    the position of the protocol identifier (after the address) has no
    influence on what the call returns or how it ends. *)
Theorem parseDeliverMessage_Protocol_unassigned :
  (forall (s : slice) (msg : deliverMessage) (size : Z),
      parseDeliverMessage s = Ok (msg, size) -> Protocol msg = 0)
  /\ (forall (t nb toa : Z) (addr : list Z) (pid pid' : Z) (post sp : list Z),
         Z.quot (nb + 1) 2 = Z.of_nat (List.length addr) ->
         parseDeliverMessage (mkSlice (t :: nb :: toa :: addr ++ pid :: post) sp)
         = parseDeliverMessage (mkSlice (t :: nb :: toa :: addr ++ pid' :: post) sp)).
Proof.
  split.
  - intros s msg size H. unfold parseDeliverMessage, bind in H.
    destruct (index s 0); [|discriminate H].
    destruct (index s 1); [|discriminate H].
    destruct (slice_range s 3 _); [|discriminate H].
    destruct (slice_from s _); [|discriminate H].
    destruct (index _ 1); [|discriminate H].
    destruct (slice_range _ 2 9); [|discriminate H].
    destruct (parseDateTime _); [|discriminate H].
    destruct (slice_from s _); [|discriminate H].
    apply payload_keeps_Protocol in H. exact H.
  - intros t nb toa addr pid pid' post sp Hk.
    unfold parseDeliverMessage.
    rew_layout (index_app [] (nb :: toa :: addr ++ pid :: post) sp t 0).
    rew_layout (index_app [] (nb :: toa :: addr ++ pid' :: post) sp t 0).
    rew_layout (index_app [t] (toa :: addr ++ pid :: post) sp nb 1).
    rew_layout (index_app [t] (toa :: addr ++ pid' :: post) sp nb 1).
    rewrite Hk.
    rew_layout (slice_range_app [t; nb; toa] addr (pid :: post) sp
                  3 (3 + Z.of_nat (List.length addr))).
    rew_layout (slice_range_app [t; nb; toa] addr (pid' :: post) sp
                  3 (3 + Z.of_nat (List.length addr))).
    rew_layout (slice_from_app ([t; nb; toa] ++ addr) (pid :: post) sp
                  (0 + (3 + Z.of_nat (List.length addr)))).
    rew_layout (slice_from_app ([t; nb; toa] ++ addr) (pid' :: post) sp
                  (0 + (3 + Z.of_nat (List.length addr)))).
    rewrite (index_tail pid pid') by lia.
    rewrite (slice_range_tail pid pid') by lia.
    pose proof (slice_from_behind ([t; nb; toa] ++ addr) post sp pid pid'
                  (0 + (3 + Z.of_nat (List.length addr)) + (2 + 7))) as E.
    cbn [app] in E. rewrite E by (cbn [List.length]; lia).
    reflexivity.
Qed.

(** *** The user data and the concatenation header *)

Lemma septets_fit (udl : Z) :
  0 <= udl -> udl <= 8 * (udl - Z.quot udl 8) / 7.
Proof.
  intros H. rewrite Z.quot_div_nonneg by lia.
  apply Z.div_le_lower_bound; [lia|].
  pose proof (Z.mul_div_le udl 8 ltac:(lia)). lia.
Qed.

Lemma unpack7bit_of_list (l sp : list Z) :
  unpack7bit (mkSlice l sp) = unpack7bit (of_list l).
Proof. reflexivity. Qed.

Lemma bytes_app_l (a b : list Z) : bytes (a ++ b) -> bytes a.
Proof. unfold bytes. rewrite Forall_app. tauto. Qed.

(** The payload: [RawData] is the user data the length octet announces,
    when that many bytes are there. *)
Lemma parseDeliverMessage_payload_spec
  (msg : deliverMessage) (size udl : Z) (ud sp : list Z) :
  0 <= udl ->
  bytes (ud ++ sp) ->
  payload_bytes (Unicode msg) udl <= Z.of_nat (List.length (ud ++ sp)) ->
  exists raw,
    parseDeliverMessage_payload msg size (mkSlice (udl :: ud) sp)
    = parseDeliverMessage_concat (set_RawData msg raw)
        (size + (payload_bytes (Unicode msg) udl + 1)) (mkSlice ud sp)
    /\ vis raw = user_data (Unicode msg) udl (ud ++ sp)
    /\ len raw = udl.
Proof.
  intros Hudl Hb Hav. unfold parseDeliverMessage_payload, payload_bytes in *.
  rewrite length_app in Hav.
  destruct (Unicode msg) eqn:HU.
  - rew_layout (index_app [] ud sp udl 0).
    rewrite slice_range_ok
      by (unfold cap; cbn [vis spare List.length]; lia).
    cbn [bind vis spare]. cbn [set_RawData Unicode].
    rew_layout (slice_from_app [udl] ud sp 1).
    eexists. split; [reflexivity|].
    cbn [vis user_data]. change (Z.to_nat 1) with 1%nat. cbn [app skipn].
    replace (udl + 1 - 1) with udl by lia.
    split; [reflexivity|].
    unfold len. cbn [vis]. rewrite length_firstn, length_app. lia.
  - rew_layout (index_app [] ud sp udl 0).
    assert (Hq : 0 <= Z.quot udl 8 <= udl).
    { rewrite Z.quot_div_nonneg by lia.
      pose proof (Z.mul_div_le udl 8 ltac:(lia)).
      split; [apply Z.div_pos; lia | lia]. }
    rewrite slice_range_ok
      by (unfold cap; cbn [vis spare List.length]; lia).
    cbn [bind vis spare]. cbn [set_RawData RawData].
    change (Z.to_nat 1) with 1%nat. cbn [app skipn].
    replace (1 + (udl - Z.quot udl 8) - 1) with (udl - Z.quot udl 8) by lia.
    rewrite unpack7bit_of_list.
    set (packed := of_list (firstn (Z.to_nat (udl - Z.quot udl 8)) (ud ++ sp))).
    assert (Hpb : bytes (vis packed)) by (apply Forall_firstn; exact Hb).
    assert (Hpl : len packed = udl - Z.quot udl 8).
    { unfold len, packed. cbn [of_list vis].
      rewrite length_firstn, length_app. lia. }
    destruct (slice_to_len (unpack7bit packed) udl) as (raw & Hraw & Hvis).
    { rewrite unpack7bit_len, Hpl by assumption.
      split; [lia | now apply septets_fit]. }
    rewrite Hraw. cbn [bind].
    rew_layout (slice_from_app [udl] ud sp 1).
    exists raw. split; [reflexivity|].
    split; [exact Hvis|].
    unfold len. rewrite Hvis, length_firstn.
    pose proof (unpack7bit_len packed Hpb) as Hl. unfold len in Hl at 1.
    pose proof (septets_fit udl Hudl). rewrite Hpl in Hl. lia.
Qed.

Lemma starts_with_3 (u0 u1 u2 : Z) (rest sp : list Z) (n a b c : Z) :
  starts_with (mkSlice (u0 :: u1 :: u2 :: rest) sp) n a b c
  = Ok ((Z.of_nat (3 + List.length rest) >=? n)
        && (u0 =? a) && (u1 =? b) && (u2 =? c)).
Proof.
  unfold starts_with, len. cbn [vis List.length Nat.add].
  destruct (Z.of_nat (S (S (S (List.length rest)))) >=? n); [|reflexivity].
  rew_layout (index_app [] (u1 :: u2 :: rest) sp u0 0).
  destruct (u0 =? a); [|reflexivity].
  rew_layout (index_app [u0] (u2 :: rest) sp u1 1).
  destruct (u1 =? b); [|reflexivity].
  rew_layout (index_app [u0; u1] rest sp u2 2).
  reflexivity.
Qed.

(** The [switch], first case. *)
Lemma parseDeliverMessage_concat_8bit
  (msg : deliverMessage) (size r n pt : Z) (rest sp : list Z) :
  parseDeliverMessage_concat msg size (mkSlice (5 :: 0 :: 3 :: r :: n :: pt :: rest) sp)
  = (raw <- slice_from (RawData msg) (if Unicode msg then 6 else 7) ;;
     Ok (set_RawData (set_Ref (set_NParts (set_Part (set_Concat msg true) pt) n) r) raw,
         size)).
Proof.
  unfold parseDeliverMessage_concat.
  rewrite starts_with_3. cbn [List.length Nat.add Z.eqb Pos.eqb andb].
  replace (Z.of_nat (S (S (S (S (S (S (List.length rest))))))) >=? 6) with true
    by (symmetry; apply Z.geb_le; lia).
  cbn [bind andb].
  rew_layout (index_app [5; 0; 3; r; n] rest sp pt 5).
  rew_layout (index_app [5; 0; 3; r] (pt :: rest) sp n 4).
  rew_layout (index_app [5; 0; 3] (n :: pt :: rest) sp r 3).
  reflexivity.
Qed.

(** The [switch], second case. *)
Lemma parseDeliverMessage_concat_16bit
  (msg : deliverMessage) (size r1 r2 n pt : Z) (rest sp : list Z) :
  parseDeliverMessage_concat msg size
    (mkSlice (6 :: 8 :: 4 :: r1 :: r2 :: n :: pt :: rest) sp)
  = (raw <- slice_from (RawData msg) (if Unicode msg then 7 else 8) ;;
     Ok (set_RawData
           (set_Ref (set_NParts (set_Part (set_Concat msg true) pt) n)
                    (Z.lor (Z.shiftl r1 8) r2)) raw,
         size)).
Proof.
  unfold parseDeliverMessage_concat.
  rewrite !starts_with_3. cbn [List.length Nat.add Z.eqb Pos.eqb andb].
  rewrite andb_false_r.
  replace (Z.of_nat (S (S (S (S (S (S (S (List.length rest)))))))) >=? 7) with true
    by (symmetry; apply Z.geb_le; lia).
  cbn [bind andb].
  rew_layout (index_app [6; 8; 4; r1; r2; n] rest sp pt 6).
  rew_layout (index_app [6; 8; 4; r1; r2] (pt :: rest) sp n 5).
  rew_layout (index_app [6; 8; 4] (r2 :: n :: pt :: rest) sp r1 3).
  rew_layout (index_app [6; 8; 4; r1] (n :: pt :: rest) sp r2 4).
  reflexivity.
Qed.

(** C4, as amended.  For every TPDU whose user data, the bytes after the
    length octet, begins 05 00 03 [r] [n] [p], the parser records
    [Ref = r], [NParts = n], [Part = p] and strips exactly 6 elements
    from the front of [RawData] if Unicode, else 7, provided the length
    octet announces at least that many; if it begins 06 08 04 [r1] [r2]
    [n] [p] it records [Ref = r1<<8 | r2], [NParts = n], [Part = p] and
    strips 7 if Unicode, else 8, under the same proviso. *)
Theorem concat_header_recorded
  (t nb toa : Z) (addr : list Z) (pid fmt b0 b1 b2 b3 b4 b5 b6 udl : Z)
  (ud sp : list Z)
  (Haddr : Z.quot (nb + 1) 2 = Z.of_nat (List.length addr))
  (Hudl : 0 <= udl)
  (Hbytes : bytes (ud ++ sp))
  (Hthere : payload_bytes (negb (Z.land fmt 8 =? 0)) udl
            <= Z.of_nat (List.length (ud ++ sp))) :
  let unicode := negb (Z.land fmt 8 =? 0) in
  let s := mkSlice (tpdu t nb toa addr pid fmt [b0; b1; b2; b3; b4; b5; b6] udl ud) sp in
  (forall r n p rest,
      ud = 5 :: 0 :: 3 :: r :: n :: p :: rest ->
      (if unicode then 6 else 7) <= udl ->
      exists msg size,
        parseDeliverMessage s = Ok (msg, size)
        /\ concat_recorded msg r n p
             (skipn (if unicode then 6 else 7) (user_data unicode udl (ud ++ sp))))
  /\ (forall r1 r2 n p rest,
         ud = 6 :: 8 :: 4 :: r1 :: r2 :: n :: p :: rest ->
         (if unicode then 7 else 8) <= udl ->
         exists msg size,
           parseDeliverMessage s = Ok (msg, size)
           /\ concat_recorded msg (Z.lor (Z.shiftl r1 8) r2) n p
                (skipn (if unicode then 7 else 8) (user_data unicode udl (ud ++ sp)))).
Proof.
  intros unicode s. unfold s, tpdu.
  rewrite parseDeliverMessage_header by assumption.
  set (hdr := deliver_header t addr fmt _).
  assert (HU : Unicode hdr = unicode) by reflexivity.
  destruct (parseDeliverMessage_payload_spec hdr (Z.quot (nb + 1) 2 + 12) udl ud sp)
    as (raw & Hp & Hvis & Hlen); try assumption.
  rewrite Hp, HU in *. clear Hp. clearbody unicode.
  split.
  - intros r n p rest -> Hh.
    rewrite parseDeliverMessage_concat_8bit.
    cbn [Unicode set_RawData RawData]. rewrite HU.
    rewrite slice_from_ok by (destruct unicode; lia). cbn [bind].
    do 2 eexists. split; [reflexivity|].
    unfold concat_recorded. cbn [Concat Ref NParts Part RawData set_RawData
      set_Ref set_NParts set_Part set_Concat vis].
    repeat split. rewrite Hvis. destruct unicode; reflexivity.
  - intros r1 r2 n p rest -> Hh.
    rewrite parseDeliverMessage_concat_16bit.
    cbn [Unicode set_RawData RawData]. rewrite HU.
    rewrite slice_from_ok by (destruct unicode; lia). cbn [bind].
    do 2 eexists. split; [reflexivity|].
    unfold concat_recorded. cbn [Concat Ref NParts Part RawData set_RawData
      set_Ref set_NParts set_Part set_Concat vis].
    repeat split. rewrite Hvis. destruct unicode; reflexivity.
Qed.

Lemma concat_header_recorded_witness :
  Z.quot (0 + 1) 2 = Z.of_nat (List.length (@nil Z))
  /\ 0 <= 8
  /\ bytes ([0x05; 0x00; 0x03; 0x07; 0x03; 0x02; 0x82] ++ [])
  /\ payload_bytes (negb (Z.land 0 8 =? 0)) 8
     <= Z.of_nat (List.length ([0x05; 0x00; 0x03; 0x07; 0x03; 0x02; 0x82] ++ []))
  /\ exists msg size,
       parseDeliverMessage (of_list concat_tpdu) = Ok (msg, size)
       /\ concat_recorded msg 7 3 2
            (skipn 7 (user_data false 8 ([0x05; 0x00; 0x03; 0x07; 0x03; 0x02; 0x82] ++ []))).
Proof.
  assert (H1 : Z.quot (0 + 1) 2 = Z.of_nat (List.length (@nil Z))) by reflexivity.
  assert (H2 : 0 <= 8) by lia.
  assert (H3 : bytes ([0x05; 0x00; 0x03; 0x07; 0x03; 0x02; 0x82] ++ []))
    by (repeat constructor; unfold is_byte; lia).
  assert (H4 : payload_bytes (negb (Z.land 0 8 =? 0)) 8
               <= Z.of_nat (List.length ([0x05; 0x00; 0x03; 0x07; 0x03; 0x02; 0x82] ++ [])))
    by (vm_compute; discriminate).
  split; [exact H1|]. split; [exact H2|]. split; [exact H3|]. split; [exact H4|].
  refine (proj1 (concat_header_recorded 0x04 0x00 0x91 [] 0x00 0x00
                   0x99 0x30 0x92 0x51 0x61 0x95 0x80 8
                   [0x05; 0x00; 0x03; 0x07; 0x03; 0x02; 0x82] [] H1 H2 H3 H4)
                7 3 2 [0x82] eq_refl _).
  vm_compute. discriminate.
Defined.

(** C4 as it was stated fails: the user data of [concat_only_tpdu] is
    05 00 03 07 03 02, and the call records nothing, it panics on
    [msg.RawData[7:]], [RawData] being the six septets the length octet
    announces. *)
Lemma concat_header_without_payload :
  skipn 13 concat_only_tpdu = [0x05; 0x00; 0x03; 0x07; 0x03; 0x02]
  /\ parseDeliverMessage (of_list concat_only_tpdu) = Panic slice_bounds_out_of_range
  /\ ~ (exists msg size,
          parseDeliverMessage (of_list concat_only_tpdu) = Ok (msg, size)
          /\ Ref msg = 7 /\ NParts msg = 3 /\ Part msg = 2).
Proof.
  split; [reflexivity|]. split; [vm_compute; reflexivity|].
  intros (msg & size & H & _). vm_compute in H. discriminate H.
Qed.

Lemma parseDeliverMessage_Protocol_unassigned_witness :
  nth 9 hello_tpdu 0 = 0x7F
  /\ parseDeliverMessage (of_list hello_tpdu) = Ok (hello_msg, 24)
  /\ Protocol hello_msg = 0.
Proof.
  assert (H : parseDeliverMessage (of_list hello_tpdu) = Ok (hello_msg, 24))
    by (vm_compute; reflexivity).
  split; [reflexivity|]. split; [exact H|].
  exact (proj1 parseDeliverMessage_Protocol_unassigned (of_list hello_tpdu) hello_msg 24 H).
Defined.

(* ===================================================================== *)
(** ** The message file                                                   *)
(* ===================================================================== *)

Lemma be16_bytes (hi lo : Z) :
  is_byte hi -> is_byte lo -> be16 hi lo = hi * 256 + lo.
Proof.
  unfold is_byte, be16. intros Hhi Hlo.
  rewrite (uint16_small lo), (uint16_small hi) by lia.
  assert (Hs : Z.shiftl hi 8 = hi * 256)
    by (rewrite Z.shiftl_mul_pow2 by lia; reflexivity).
  rewrite (uint16_small (Z.shiftl hi 8)) by (rewrite Hs; lia).
  rewrite lor_shiftl_add by (change (2 ^ 8) with 256; lia).
  change (2 ^ 8) with 256. lia.
Qed.

Lemma nth_skipn_add {A : Type} (m n : nat) (l : list A) (d : A) :
  nth n (skipn m l) d = nth (m + n) l d.
Proof.
  revert l. induction m as [|m IH]; intros l; [reflexivity|].
  destruct l as [|a l]; simpl; [now destruct n | apply IH].
Qed.

(** The loop that reads the text: [n] code units from offset [2*a]. *)
Lemma text_loop (l sp : list Z) (n a : nat) :
  bytes l ->
  (2 * (a + n) <= List.length l)%nat ->
  for_index
    (fun i => b <- slice_range (mkSlice l sp) (2 * i) (2 * i + 2) ;;
              BigEndian_Uint16 b)
    (seq a n)
  = Ok (ucs2_units n (skipn (2 * a) l)).
Proof.
  intros Hb. revert a. induction n as [|n IH]; intros a Hlen; [reflexivity|].
  cbn [seq for_index].
  pose proof (length_skipn (2 * a) l) as Hsk.
  destruct (skipn (2 * a) l) as [|x [|y post]] eqn:E;
    cbn [List.length] in Hsk; try lia.
  assert (Hl : l = firstn (2 * a) l ++ [x; y] ++ post)
    by (cbn [app]; rewrite <- E; symmetry; apply firstn_skipn).
  assert (Hs : slice_range (mkSlice l sp) (2 * Z.of_nat a) (2 * Z.of_nat a + 2)
               = Ok (mkSlice [x; y] (post ++ sp))).
  { rewrite Hl at 1. apply slice_range_app.
    - rewrite length_firstn. lia.
    - reflexivity. }
  rewrite Hs. cbn [bind].
  assert (Hxy : is_byte x /\ is_byte y).
  { pose proof (Forall_skipn is_byte (2 * a) l Hb) as F. rewrite E in F.
    inversion F as [|? ? Hx F']. inversion F' as [|? ? Hy ?]. now split. }
  change (BigEndian_Uint16 (mkSlice [x; y] (post ++ sp))) with (Ok (be16 x y)).
  rewrite be16_bytes by tauto.
  rewrite (IH (S a)) by lia.
  replace (2 * S a)%nat with (2 + 2 * a)%nat by lia.
  rewrite <- skipn_skipn, E. reflexivity.
Qed.

(** C8, as amended.  When the scan for the peer name or the parsing of
    the TPDU panics, [parseMessage] panics and returns no error.  When
    they return and the bytes that remain after the TPDU are fewer than
    72 and not none, [parseMessage] returns the error "truncated
    message" and makes no out-of-range access.  When at least 72 remain
    it skips 65 bytes, reads the length at offset 5 of the remainder,
    skips 6 bytes in all and decodes [length/2] big-endian UCS-2 code
    units as [Text], provided the [2 * (length/2)] bytes of these code
    units are there. *)
Theorem parseMessage_after_pdu (s : slice) :
  (forall p, parseMessage_pdu s = Panic p -> parseMessage s = Panic p)
  /\ (forall peer msg pdu,
         parseMessage_pdu s = Ok (peer, msg, pdu) ->
         (0 < len pdu < 72 ->
          parseMessage s = Ok (zeroRaw, Some (Errorf "truncated message")))
         /\ (72 <= len pdu ->
             bytes (vis pdu) ->
             let length := nth 70 (vis pdu) 0 in
             71 + 2 * Z.quot length 2 <= len pdu ->
             parseMessage s
             = Ok (mkRaw peer
                     (string_of_runes
                        (ucs2_units (Z.to_nat (Z.quot length 2))
                           (skipn 71 (vis pdu))))
                     msg,
                   None))).
Proof.
  split.
  { intros p Hp. unfold parseMessage. rewrite Hp. reflexivity. }
  intros peer msg pdu Hpdu.
  unfold parseMessage. rewrite Hpdu. cbn [bind]. split.
  - intros H.
    replace (len pdu =? 0) with false by (symmetry; apply Z.eqb_neq; lia).
    replace (len pdu <? 72) with true by (symmetry; apply Z.ltb_lt; lia).
    reflexivity.
  - intros H Hb Hlen.
    replace (len pdu =? 0) with false by (symmetry; apply Z.eqb_neq; lia).
    replace (len pdu <? 72) with false by (symmetry; apply Z.ltb_ge; lia).
    rewrite slice_from_ok by lia. cbn [bind].
    change (Z.to_nat 65) with 65%nat.
    assert (Hl65 : List.length (skipn 65 (vis pdu)) = (List.length (vis pdu) - 65)%nat)
      by apply length_skipn.
    rewrite index_ok by (unfold len in *; cbn [vis]; lia).
    cbn [bind vis]. change (Z.to_nat 5) with 5%nat.
    rewrite nth_skipn_add. cbn [Nat.add].
    set (length := nth 70 (vis pdu) 0) in *.
    rewrite slice_from_ok by (unfold len in *; cbn [vis]; lia).
    cbn [bind vis spare]. change (Z.to_nat 6) with 6%nat.
    rewrite skipn_skipn. cbn [Nat.add].
    assert (Hlb : 0 <= length).
    { unfold length. unfold len in H.
      assert (Hin : In (nth 70 (vis pdu) 0) (vis pdu)) by (apply nth_In; lia).
      apply (proj1 (Forall_forall _ _) Hb) in Hin. unfold is_byte in Hin. lia. }
    assert (Hq : 0 <= Z.quot length 2) by (apply Z.quot_pos; lia).
    rewrite (text_loop (skipn 71 (vis pdu)) (spare pdu)
               (Z.to_nat (Z.quot length 2)) 0).
    + reflexivity.
    + now apply Forall_skipn.
    + rewrite length_skipn. unfold len in *. lia.
Qed.

Lemma parseMessage_after_pdu_witness :
  parseMessage_pdu cut_file
  = Ok (EmptyString, hello_msg, of_list (repeat 0 70 ++ [4]))
  /\ 0 < len (of_list (repeat 0 70 ++ [4])) < 72
  /\ parseMessage cut_file = Ok (zeroRaw, Some (Errorf "truncated message")).
Proof.
  assert (H1 : parseMessage_pdu cut_file
               = Ok (EmptyString, hello_msg, of_list (repeat 0 70 ++ [4])))
    by (vm_compute; reflexivity).
  assert (H2 : 0 < len (of_list (repeat 0 70 ++ [4])) < 72)
    by (vm_compute; split; reflexivity).
  split; [exact H1|]. split; [exact H2|].
  exact (proj1 (proj2 (parseMessage_after_pdu cut_file) _ _ _ H1) H2).
Defined.

(** C8 as it was stated fails, in two ways.  In [short_text_file 4]
    exactly 72 bytes remain after the TPDU, the length byte announces
    two code units and one byte of them is there; the call does not
    decode them as [Text], it panics on [pdu[0:2]].  In [trailing_file]
    the TPDU takes 22 bytes, which parse on their own, and ten bytes
    remain after it; the call does not return a truncation error: with
    the bytes that follow, the user data begins 05 00 03 and is six
    bytes long, and the call panics on [RawData[7:]]. *)
Lemma parseMessage_text_out_of_range :
  ((exists peer msg pdu,
       parseMessage_pdu (short_text_file 4) = Ok (peer, msg, pdu)
       /\ len pdu = 72 /\ nth 70 (vis pdu) 0 = 4)
   /\ parseMessage (short_text_file 4) = Panic slice_bounds_out_of_range
   /\ ~ (exists m, parseMessage (short_text_file 4) = Ok (m, None)))
  /\ ((exists msg, parseDeliverMessage (of_list short_udh_tpdu) = Ok (msg, 22))
      /\ len (of_list short_udh_tpdu) = 22
      /\ len trailing_file = 176 + 22 + 10
      /\ parseMessage trailing_file = Panic slice_bounds_out_of_range
      /\ ~ returns_error (parseMessage trailing_file)).
Proof.
  split; [split; [|split] | split; [|split; [|split; [|split]]]].
  - exists EmptyString, hello_msg, (of_list (repeat 0 70 ++ [4; 0])).
    split; [vm_compute; reflexivity|]. split; reflexivity.
  - vm_compute. reflexivity.
  - intros (m & H). vm_compute in H. discriminate H.
  - eexists. vm_compute. reflexivity.
  - reflexivity.
  - reflexivity.
  - vm_compute. reflexivity.
  - intros (m & e & H). vm_compute in H. discriminate H.
Qed.

(* ===================================================================== *)
(** ** Further properties: the septet unpacker                            *)
(* ===================================================================== *)

Lemma unpack7bit_loop_any (s : list Z) :
  forall (buf buflen : Z) (out : slice),
  0 <= buflen < 7 ->
  List.length (vis (unpack7bit_loop s buf buflen out))
  = (List.length (vis out)
     + Z.to_nat ((buflen + 8 * Z.of_nat (List.length s)) / 7))%nat
  /\ (Forall (fun x => 0 <= x < 128) (vis out) ->
      Forall (fun x => 0 <= x < 128) (vis (unpack7bit_loop s buf buflen out))).
Proof.
  induction s as [|s0 s IH]; intros buf buflen out Hlen.
  - cbn [unpack7bit_loop List.length Z.of_nat].
    rewrite Z.mul_0_r, Z.add_0_r, Z.div_small by lia.
    split; [simpl; lia | auto].
  - cbn [unpack7bit_loop].
    set (nb := Z.lor buf _).
    destruct (drain_spec nb (buflen + 8) out) as (out' & Hd & Hvis); [lia|].
    rewrite Hd.
    pose proof (Z.mod_pos_bound (buflen + 8) 7 ltac:(lia)) as Hm.
    destruct (IH (nb / 2 ^ (7 * Z.of_nat (Z.to_nat ((buflen + 8) / 7))))
                 ((buflen + 8) mod 7) out' Hm) as [IHl IHf].
    split.
    + rewrite IHl, Hvis, length_app, digits_length by lia.
      rewrite <- Nat.add_assoc. f_equal.
      rewrite <- Z2Nat.inj_add by (apply Z.div_pos; lia). f_equal.
      cbn [List.length].
      replace (buflen + 8 * Z.of_nat (S (List.length s)))
        with ((buflen + 8) mod 7 + 8 * Z.of_nat (List.length s)
              + ((buflen + 8) / 7) * 7)
        by (pose proof (Z.div_mod (buflen + 8) 7 ltac:(lia)); lia).
      rewrite Z.div_add by lia. lia.
    + intros Hout. apply IHf. rewrite Hvis. apply Forall_app. split; [exact Hout|].
      apply (digits_below 7). lia.
Qed.

Lemma unpack7bit_len_any (s : slice) : len (unpack7bit s) = 8 * len s / 7.
Proof.
  unfold unpack7bit, len at 1.
  rewrite (proj1 (unpack7bit_loop_any (vis s) 0 0 _ ltac:(lia))).
  unfold make0. cbn [vis List.length Nat.add]. fold (len s).
  rewrite Z2Nat.id by (apply Z.div_pos; unfold len; lia).
  reflexivity.
Qed.

Lemma unpack7bit_septets_any (s : slice) :
  Forall (fun x => 0 <= x < 128) (vis (unpack7bit s)).
Proof.
  unfold unpack7bit.
  apply (proj2 (unpack7bit_loop_any (vis s) 0 0 _ ltac:(lia))).
  constructor.
Qed.

(** X1.  [unpack7bit] never has to grow its output buffer: from [n]
    bytes of any kind it appends [8n/7] septets, each below 128, to a
    buffer made for [n + n/7 + 1], and returns it with that capacity,
    one element to spare. *)
Theorem unpack7bit_capacity (s : slice) :
  len (unpack7bit s) = 8 * len s / 7
  /\ cap (unpack7bit s) = len s + len s / 7 + 1
  /\ cap (unpack7bit s) = len (unpack7bit s) + 1
  /\ Forall (fun x => 0 <= x < 128) (vis (unpack7bit s)).
Proof.
  pose proof (unpack7bit_len_any s) as Hl.
  pose proof (unpack7bit_spare s) as Hs.
  assert (Hc : cap (unpack7bit s) = len (unpack7bit s) + 1).
  { unfold cap, len. rewrite Hs. cbn [List.length]. lia. }
  assert (Hn : 0 <= len s) by (unfold len; lia).
  assert (Hd : 8 * len s / 7 = len s + len s / 7).
  { replace (8 * len s) with (len s + len s * 7) by ring.
    rewrite Z.div_add by lia. lia. }
  repeat split.
  - exact Hl.
  - rewrite Hc, Hl, Hd. reflexivity.
  - exact Hc.
  - apply unpack7bit_septets_any.
Qed.

Lemma digits_testbit (w : Z) (n i : nat) (v j : Z) :
  0 <= w -> (i < n)%nat -> 0 <= j < w ->
  Z.testbit (nth i (digits w n v) 0) j = Z.testbit v (w * Z.of_nat i + j).
Proof.
  intros Hw. revert i v. induction n as [|n IH]; intros i v Hi Hj; [lia|].
  destruct i as [|i]; cbn [digits nth].
  - rewrite Z.mod_pow2_bits_low by lia. f_equal. lia.
  - rewrite IH by lia. rewrite Z.div_pow2_bits by nia. f_equal. lia.
Qed.

Lemma value_testbit (w : Z) (l : list Z) :
  0 <= w -> all_below w l ->
  forall (a : nat) (b : Z),
  (a < List.length l)%nat -> 0 <= b < w ->
  Z.testbit (value w l) (w * Z.of_nat a + b) = Z.testbit (nth a l 0) b.
Proof.
  intros Hw. induction 1 as [|d l Hd Hl IH]; intros a b Ha Hb;
    cbn [List.length] in Ha; [lia|].
  assert (Hp : 0 < 2 ^ w) by (apply Z.pow_pos_nonneg; lia).
  cbn [value]. destruct a as [|a]; cbn [nth].
  - replace (w * Z.of_nat 0 + b) with b by lia.
    rewrite <- (Z.mod_pow2_bits_low (d + 2 ^ w * value w l) w b) by lia.
    replace (d + 2 ^ w * value w l) with (d + value w l * 2 ^ w) by ring.
    rewrite Z_mod_plus_full, Z.mod_small by lia. reflexivity.
  - replace (w * Z.of_nat (S a) + b) with (w * Z.of_nat a + b + w) by lia.
    rewrite <- Z.div_pow2_bits by nia.
    replace (d + 2 ^ w * value w l) with (d + value w l * 2 ^ w) by ring.
    rewrite Z.div_add, Z.div_small by lia.
    rewrite Z.add_0_l. apply IH; lia.
Qed.

(** X2.  The septets are the bit string of the input cut every seven
    bits: bit [j] of septet [i] is bit [7*i + j] of the input, that is
    bit [(7*i + j) mod 8] of byte [(7*i + j) / 8]. *)
Theorem unpack7bit_bits (s : slice) (i : nat) (j : Z)
  (Hs : bytes (vis s))
  (Hi : Z.of_nat i < 8 * len s / 7)
  (Hj : 0 <= j < 7) :
  Z.testbit (nth i (vis (unpack7bit s)) 0) j
  = bit_of (vis s) (7 * Z.of_nat i + j).
Proof.
  rewrite unpack7bit_vis by assumption.
  assert (Hn : 0 <= len s) by (unfold len; lia).
  rewrite digits_testbit
    by (try lia; apply Nat2Z.inj_lt; rewrite Z2Nat.id by (apply Z.div_pos; lia); lia).
  unfold bit_of.
  set (p := 7 * Z.of_nat i + j).
  assert (Hp : 0 <= p) by (unfold p; lia).
  assert (Hp8 : p < 8 * len s).
  { assert (7 * (Z.of_nat i + 1) <= 8 * len s).
    { pose proof (Z.mul_div_le (8 * len s) 7 ltac:(lia)). nia. }
    unfold p. lia. }
  pose proof (Z.div_mod p 8 ltac:(lia)) as Hdm.
  pose proof (Z.mod_pos_bound p 8 ltac:(lia)) as Hm.
  assert (Hq : 0 <= p / 8) by (apply Z.div_pos; lia).
  rewrite Hdm at 1.
  replace (8 * (p / 8)) with (8 * Z.of_nat (Z.to_nat (p / 8))) by lia.
  apply value_testbit; try lia.
  - exact Hs.
  - unfold len in Hp8. apply Nat2Z.inj_lt. rewrite Z2Nat.id by lia. lia.
Qed.

Lemma unpack7bit_bits_witness :
  bytes (vis (of_list [0xE8; 0x32; 0x9B; 0xFD; 0x06]))
  /\ Z.of_nat 1 < 8 * len (of_list [0xE8; 0x32; 0x9B; 0xFD; 0x06]) / 7
  /\ 0 <= 6 < 7
  /\ Z.testbit (nth 1 (vis (unpack7bit (of_list [0xE8; 0x32; 0x9B; 0xFD; 0x06]))) 0) 6
     = bit_of [0xE8; 0x32; 0x9B; 0xFD; 0x06] 13.
Proof.
  assert (H1 : bytes (vis (of_list [0xE8; 0x32; 0x9B; 0xFD; 0x06])))
    by (repeat constructor; unfold is_byte; lia).
  assert (H2 : Z.of_nat 1 < 8 * len (of_list [0xE8; 0x32; 0x9B; 0xFD; 0x06]) / 7)
    by (vm_compute; reflexivity).
  assert (H3 : 0 <= 6 < 7) by lia.
  split; [exact H1|]. split; [exact H2|]. split; [exact H3|].
  exact (unpack7bit_bits (of_list [0xE8; 0x32; 0x9B; 0xFD; 0x06]) 1 6 H1 H2 H3).
Defined.

Lemma value_app (w : Z) (a b : list Z) :
  0 <= w ->
  value w (a ++ b) = value w a + 2 ^ (w * Z.of_nat (List.length a)) * value w b.
Proof.
  intros Hw. induction a as [|d a IH].
  - cbn [app value List.length Z.of_nat]. rewrite Z.mul_0_r, Z.pow_0_r. lia.
  - cbn [app value List.length]. rewrite IH, pow_succ_mul by lia. ring.
Qed.

(** X3.  Bytes that follow do not change the septets already complete:
    what [unpack7bit] makes of [a] is a prefix of what it makes of
    [a ++ b]. *)
Theorem unpack7bit_prefix (a b : list Z)
  (Ha : bytes a) (Hb : bytes b) :
  firstn (List.length (vis (unpack7bit (of_list a))))
         (vis (unpack7bit (of_list (a ++ b))))
  = vis (unpack7bit (of_list a)).
Proof.
  assert (Hab : bytes (a ++ b)) by (apply Forall_app; now split).
  rewrite !unpack7bit_vis by assumption.
  cbn [of_list vis]. unfold len. cbn [vis].
  rewrite digits_length.
  set (k := Z.to_nat (8 * Z.of_nat (List.length a) / 7)).
  assert (Hk : 7 * Z.of_nat k <= 8 * Z.of_nat (List.length a)).
  { unfold k. rewrite Z2Nat.id by (apply Z.div_pos; lia).
    apply Z.mul_div_le. lia. }
  rewrite firstn_digits.
  - rewrite value_app by lia.
    replace (2 ^ (8 * Z.of_nat (List.length a)))
      with (2 ^ (7 * Z.of_nat k) * 2 ^ (8 * Z.of_nat (List.length a) - 7 * Z.of_nat k))
      by (rewrite <- Z.pow_add_r by lia; f_equal; lia).
    rewrite <- Z.mul_assoc. apply digits_add_mul. lia.
  - lia.
  - unfold k. apply Z2Nat.inj_le; try (apply Z.div_pos; lia).
    apply Z.div_le_mono; [lia|]. cbn [of_list vis]. rewrite length_app. lia.
Qed.

Lemma unpack7bit_prefix_witness :
  bytes [0xE8; 0x32; 0x9B] /\ bytes [0xFD; 0x06]
  /\ firstn 3 (vis (unpack7bit (of_list ([0xE8; 0x32; 0x9B] ++ [0xFD; 0x06]))))
     = vis (unpack7bit (of_list [0xE8; 0x32; 0x9B])).
Proof.
  assert (H1 : bytes [0xE8; 0x32; 0x9B]) by (repeat constructor; unfold is_byte; lia).
  assert (H2 : bytes [0xFD; 0x06]) by (repeat constructor; unfold is_byte; lia).
  split; [exact H1|]. split; [exact H2|].
  exact (unpack7bit_prefix [0xE8; 0x32; 0x9B] [0xFD; 0x06] H1 H2).
Defined.

(* ===================================================================== *)
(** ** Further properties: the address decoder                            *)
(* ===================================================================== *)

Lemma decodeBCD_digits (b : slice) :
  bytes (vis b) -> decodeBCD b = string_of_bytes (bcd_digits (vis b)).
Proof.
  intros Hb. unfold decodeBCD. rewrite decodeBCD_loop by assumption. reflexivity.
Qed.

Lemma length_string_of_bytes (l : list Z) :
  String.length (string_of_bytes l) = List.length l.
Proof. induction l; simpl; congruence. Qed.

Lemma semi_octets_spec (n : nat) :
  forall d, (List.length d <= n)%nat -> decimal d ->
  bytes (semi_octets d)
  /\ bcd_digits (semi_octets d) = map (fun x => 48 + x) d
  /\ Z.of_nat (List.length (semi_octets d))
     = Z.quot (Z.of_nat (List.length d) + 1) 2.
Proof.
  induction n as [|n IH]; intros d Hn Hd.
  - destruct d; [|simpl in Hn; lia]. repeat split; constructor.
  - destruct d as [|a [|b d]].
    + repeat split; constructor.
    + inversion Hd as [|? ? Ha _]; subst.
      cbn [semi_octets bcd_digits map List.length].
      replace ((240 + a) mod 16) with a
        by (replace (240 + a) with (a + 15 * 16) by ring;
            rewrite Z_mod_plus_full, Z.mod_small; lia).
      replace ((240 + a) / 16) with 15
        by (replace (240 + a) with (a + 15 * 16) by ring;
            rewrite Z.div_add, Z.div_small by lia; reflexivity).
      repeat split.
      * repeat constructor; unfold is_byte; lia.
    + inversion Hd as [|? ? Ha Hd1]; subst.
      inversion Hd1 as [|? ? Hb Hd2]; subst.
      destruct (IH d) as (IHb & IHd & IHl); [simpl in Hn; lia | exact Hd2 |].
      cbn [semi_octets bcd_digits map List.length].
      replace ((16 * b + a) mod 16) with a
        by (replace (16 * b + a) with (a + b * 16) by ring;
            rewrite Z_mod_plus_full, Z.mod_small; lia).
      replace ((16 * b + a) / 16) with b
        by (replace (16 * b + a) with (a + b * 16) by ring;
            rewrite Z.div_add, Z.div_small by lia; lia).
      replace (b =? 15) with false by (symmetry; apply Z.eqb_neq; lia).
      rewrite IHd. repeat split.
      * constructor; [unfold is_byte; lia | exact IHb].
      * rewrite Nat2Z.inj_succ, IHl.
        rewrite !Z.quot_div_nonneg by lia.
        replace (Z.of_nat (S (S (List.length d))) + 1)
          with (Z.of_nat (List.length d) + 1 + 1 * 2) by lia.
        rewrite Z.div_add by lia. lia.
Qed.

(** X4.  The decoder undoes the semi-octet encoding of a number: for
    every string of decimal digits, [decodeBCD] of its encoding (two
    digits a byte, the first in the low nibble, an odd last digit
    padded with 0xf) is the string; the encoding of [n] digits has
    [(n+1)/2] bytes, the length [parseDeliverMessage] slices. *)
Theorem decodeBCD_semi_octets (d : list Z) (sp : list Z) (Hd : decimal d) :
  decodeBCD (mkSlice (semi_octets d) sp) = digit_string d
  /\ Z.of_nat (List.length (semi_octets d))
     = Z.quot (Z.of_nat (List.length d) + 1) 2.
Proof.
  destruct (semi_octets_spec (List.length d) d (le_n _) Hd) as (Hb & Hdig & Hl).
  split; [|exact Hl].
  rewrite decodeBCD_digits by exact Hb. cbn [vis]. rewrite Hdig. reflexivity.
Qed.

Lemma decodeBCD_semi_octets_witness :
  decimal [3; 1; 6; 4; 1; 6; 0; 0; 9; 8; 6]
  /\ decodeBCD (mkSlice (semi_octets [3; 1; 6; 4; 1; 6; 0; 0; 9; 8; 6]) [])
     = digit_string [3; 1; 6; 4; 1; 6; 0; 0; 9; 8; 6].
Proof.
  assert (H : decimal [3; 1; 6; 4; 1; 6; 0; 0; 9; 8; 6])
    by (repeat constructor; lia).
  split; [exact H|].
  exact (proj1 (decodeBCD_semi_octets [3; 1; 6; 4; 1; 6; 0; 0; 9; 8; 6] [] H)).
Defined.

Lemma bcd_digits_stop (a : list Z) (c : Z) (rest : list Z) :
  c / 16 = 15 -> bcd_digits (a ++ c :: rest) = bcd_digits (a ++ [c]).
Proof.
  intros Hc. induction a as [|x a IH]; cbn [app bcd_digits].
  - rewrite Hc. reflexivity.
  - rewrite IH. reflexivity.
Qed.

Lemma bcd_digits_length (b : list Z) :
  (List.length (bcd_digits b) <= 2 * List.length b)%nat
  /\ (b <> [] -> (1 <= List.length (bcd_digits b))%nat)
  /\ (Forall (fun c => c / 16 <> 15) b ->
      List.length (bcd_digits b) = (2 * List.length b)%nat).
Proof.
  induction b as [|c b (IH1 & IH2 & IH3)].
  - repeat split; simpl; try lia. congruence.
  - cbn [bcd_digits List.length]. repeat split.
    + destruct (c / 16 =? 15); cbn [List.length]; lia.
    + intros _. lia.
    + intros H. inversion H as [|? ? Hc Hb]; subst.
      replace (c / 16 =? 15) with false by (symmetry; now apply Z.eqb_neq).
      cbn [List.length]. rewrite IH3 by exact Hb. lia.
Qed.

(** X5.  [decodeBCD] stops at the first byte whose high nibble is 0xf:
    what follows it in the buffer is not read.  It writes at most two
    characters a byte, exactly two when no byte has that nibble, and at
    least one when there is a byte at all. *)
Theorem decodeBCD_stops_at_filler (a : list Z) (c : Z) (rest sp : list Z)
  (Hb : bytes (a ++ c :: rest)) (Hc : c / 16 = 15) :
  decodeBCD (mkSlice (a ++ c :: rest) sp) = decodeBCD (mkSlice (a ++ [c]) sp)
  /\ (forall b : slice,
         bytes (vis b) ->
         Z.of_nat (String.length (decodeBCD b)) <= 2 * len b
         /\ (0 < len b -> (1 <= String.length (decodeBCD b))%nat)
         /\ (Forall (fun x => x / 16 <> 15) (vis b) ->
             Z.of_nat (String.length (decodeBCD b)) = 2 * len b)).
Proof.
  split.
  - assert (Hb' : bytes (a ++ [c])).
    { apply Forall_app in Hb. destruct Hb as [Ha Hr].
      apply Forall_app. split; [exact Ha|].
      inversion Hr; subst. constructor; [assumption | constructor]. }
    rewrite !decodeBCD_digits by assumption. cbn [vis].
    now rewrite bcd_digits_stop.
  - intros b Hbb. rewrite decodeBCD_digits by exact Hbb.
    rewrite length_string_of_bytes.
    destruct (bcd_digits_length (vis b)) as (H1 & H2 & H3).
    unfold len. repeat split.
    + lia.
    + intros Hl. apply H2. destruct (vis b); [simpl in Hl; lia | discriminate].
    + intros Hf. rewrite H3 by exact Hf. lia.
Qed.

Lemma decodeBCD_stops_at_filler_witness :
  bytes ([0x21] ++ 0xF3 :: [0x99; 0x99])
  /\ 0xF3 / 16 = 15
  /\ decodeBCD (mkSlice ([0x21] ++ 0xF3 :: [0x99; 0x99]) [])
     = decodeBCD (mkSlice ([0x21] ++ [0xF3]) []).
Proof.
  assert (H1 : bytes ([0x21] ++ 0xF3 :: [0x99; 0x99]))
    by (repeat constructor; unfold is_byte; lia).
  assert (H2 : 0xF3 / 16 = 15) by reflexivity.
  split; [exact H1|]. split; [exact H2|].
  exact (proj1 (decodeBCD_stops_at_filler [0x21] 0xF3 [0x99; 0x99] [] H1 H2)).
Defined.

(* ===================================================================== *)
(** ** Further properties: DOS time stamps                                *)
(* ===================================================================== *)

Lemma DosTime_value (stamp : Z) :
  DosTime stamp = mkTime (stamp + 315532800) 0 Local.
Proof.
  assert (Hq : Z.quot (3652 * 24 * Hour) 1000000000 = 315532800)
    by (vm_compute; reflexivity).
  assert (Hr : Z.rem (3652 * 24 * Hour) 1000000000 = 0)
    by (vm_compute; reflexivity).
  unfold DosTime, Time_Add. rewrite Hq, Hr.
  unfold time_Unix.
  cbn [Z.ltb Z.leb Z.compare orb unix_sec nanos loc Z.add Pos.compare Pos.compare_cont].
  reflexivity.
Qed.

(** X6.  [DosTime] keeps the order of the stamps and stays within the
    136 years a 32-bit count of seconds spans: no result is earlier than
    1 January 1980 00:00:00 UTC or later than 7 February 2116 06:28:15
    UTC, and different stamps give different instants. *)
Theorem DosTime_monotone_in_range (a b : Z)
  (Ha : 0 <= a < 2 ^ 32) (Hb : 0 <= b < 2 ^ 32) :
  (a < b -> unix_sec (DosTime a) < unix_sec (DosTime b))
  /\ (DosTime a = DosTime b -> a = b)
  /\ unix_sec (time_Date 1980 1 1 0 0 0 0 (FixedZone EmptyString 0))
     <= unix_sec (DosTime a)
     <= unix_sec (time_Date 2116 2 7 6 28 15 0 (FixedZone EmptyString 0)).
Proof.
  rewrite !DosTime_value. cbn [unix_sec].
  assert (H80 : unix_sec (time_Date 1980 1 1 0 0 0 0 (FixedZone EmptyString 0))
                = 315532800) by (vm_compute; reflexivity).
  assert (H2116 : unix_sec (time_Date 2116 2 7 6 28 15 0 (FixedZone EmptyString 0))
                  = 315532800 + (2 ^ 32 - 1)) by (vm_compute; reflexivity).
  rewrite H80, H2116.
  repeat split; try lia.
  intros H. injection H. lia.
Qed.

Lemma DosTime_monotone_in_range_witness :
  0 <= 0 < 2 ^ 32 /\ 0 <= 0x3CEAC364 < 2 ^ 32
  /\ (0 < 0x3CEAC364 -> unix_sec (DosTime 0) < unix_sec (DosTime 0x3CEAC364)).
Proof.
  assert (H1 : 0 <= 0 < 2 ^ 32) by lia.
  assert (H2 : 0 <= 0x3CEAC364 < 2 ^ 32) by lia.
  split; [exact H1|]. split; [exact H2|].
  exact (proj1 (DosTime_monotone_in_range 0 0x3CEAC364 H1 H2)).
Defined.

(* ===================================================================== *)
(** ** Further properties: the alphabet                                   *)
(* ===================================================================== *)

Lemma In_septet_values (b : Z) : 0 <= b < 128 -> In b septet_values.
Proof.
  intros H. unfold septet_values.
  replace b with (Z.of_nat (Z.to_nat b)) by lia.
  apply in_map. apply in_seq. lia.
Qed.

Lemma septets_check (P : Z -> bool) :
  forallb P septet_values = true -> forall b, 0 <= b < 128 -> P b = true.
Proof.
  intros H b Hb. rewrite forallb_forall in H. apply H. now apply In_septet_values.
Qed.

Lemma lookup_ok (b : Z) :
  0 <= b < 128 -> lookup basicSMSset b = Ok (nth (Z.to_nat b) basicSMSset 0).
Proof.
  intros H. unfold lookup.
  replace ((0 <=? b) && (b <? Z.of_nat (List.length basicSMSset))) with true;
    [reflexivity|].
  symmetry. apply andb_true_iff.
  split; [apply Z.leb_le | apply Z.ltb_lt]; simpl; lia.
Qed.

Lemma lookup_panics (b : Z) :
  ~ 0 <= b < 128 -> lookup basicSMSset b = Panic index_out_of_range.
Proof.
  intros H. unfold lookup.
  replace ((0 <=? b) && (b <? Z.of_nat (List.length basicSMSset))) with false;
    [reflexivity|].
  symmetry. apply andb_false_iff.
  destruct (Z_lt_dec b 0).
  - left. apply Z.leb_gt. lia.
  - right. apply Z.ltb_ge. simpl. lia.
Qed.

Lemma translate_loop_panics (s : list Z) :
  ~ Forall (fun x => 0 <= x < 128) s ->
  translate_loop s basicSMSset = Panic index_out_of_range.
Proof.
  induction s as [|b s IH]; intros H.
  - exfalso. apply H. constructor.
  - cbn [translate_loop].
    destruct (Z_le_dec 0 b) as [H0|H0]; [destruct (Z_lt_dec b 128) as [H1|H1]|].
    + rewrite lookup_ok by lia. cbn [bind].
      rewrite IH; [reflexivity|].
      intros Hs. apply H. constructor; [lia | exact Hs].
    + rewrite lookup_panics by lia. reflexivity.
    + rewrite lookup_panics by lia. reflexivity.
Qed.

(** X7.  [translateSMS] with the basic alphabet returns a text exactly
    when every element of its input is a septet (below 128); on any
    other input it panics with an index out of range, whatever the
    position of the offending byte. *)
Theorem translateSMS_returns_iff_septets (s : slice) :
  ((exists text, translateSMS s basicSMSset = Ok text)
   <-> Forall (fun x => 0 <= x < 128) (vis s))
  /\ (~ Forall (fun x => 0 <= x < 128) (vis s) ->
      translateSMS s basicSMSset = Panic index_out_of_range).
Proof.
  assert (Hp : ~ Forall (fun x => 0 <= x < 128) (vis s) ->
               translateSMS s basicSMSset = Panic index_out_of_range).
  { intros H. unfold translateSMS. now rewrite translate_loop_panics. }
  split; [|exact Hp]. split.
  - intros (text & Ht).
    destruct (Forall_dec (fun x => 0 <= x < 128)
                (fun x => match Z_le_dec 0 x, Z_lt_dec x 128 with
                          | left a, left b => left (conj a b)
                          | right a, _ => right (fun h => a (proj1 h))
                          | _, right b => right (fun h => b (proj2 h))
                          end) (vis s)) as [H|H]; [exact H|].
    rewrite (Hp H) in Ht. discriminate Ht.
  - intros H. destruct (translate_loop_ok (vis s) H) as (r & Hr & _).
    exists (string_of_runes r). unfold translateSMS. now rewrite Hr.
Qed.

Lemma translateSMS_returns_iff_septets_witness :
  ~ Forall (fun x => 0 <= x < 128) (vis (of_list [0x48; 200]))
  /\ translateSMS (of_list [0x48; 200]) basicSMSset = Panic index_out_of_range.
Proof.
  assert (H : ~ Forall (fun x => 0 <= x < 128) (vis (of_list [0x48; 200]))).
  { cbn [vis of_list]. intros F. inversion F as [|? ? _ F']. inversion F' as [|? ? Hx _].
    lia. }
  split; [exact H|].
  exact (proj2 (translateSMS_returns_iff_septets (of_list [0x48; 200])) H).
Defined.

Lemma utf8_encode_ascii (b : Z) : 0 <= b < 128 -> utf8_encode b = [b].
Proof.
  intros H. unfold utf8_encode.
  replace (b <? 0) with false by (symmetry; apply Z.ltb_ge; lia).
  replace (1114111 <? b) with false by (symmetry; apply Z.ltb_ge; lia).
  replace (55296 <=? b) with false by (symmetry; apply Z.leb_gt; lia).
  cbn [orb andb].
  replace (b <? 128) with true by (symmetry; apply Z.ltb_lt; lia).
  reflexivity.
Qed.

Lemma gsm_is_ascii_table (b : Z) :
  gsm_is_ascii b = true ->
  0 <= b < 128 /\ nth (Z.to_nat b) basicSMSset 0 = b.
Proof.
  intros H.
  assert (Hb : 0 <= b < 128).
  { unfold gsm_is_ascii in H.
    repeat match type of H with
           | (_ || _) = true => apply orb_true_iff in H; destruct H as [H|H]
           | (_ && _) = true => apply andb_true_iff in H; destruct H as [? ?]
           end;
    repeat match goal with
           | H : (_ <=? _) = true |- _ => apply Z.leb_le in H
           | H : (_ =? _) = true |- _ => apply Z.eqb_eq in H
           end; lia. }
  split; [exact Hb|].
  assert (Hc : forallb (fun b => implb (gsm_is_ascii b)
                                   (nth (Z.to_nat b) basicSMSset 0 =? b))
                 septet_values = true) by (vm_compute; reflexivity).
  pose proof (septets_check _ Hc b Hb) as Hi. cbv beta in Hi.
  rewrite H in Hi. cbn [implb] in Hi. now apply Z.eqb_eq.
Qed.

Lemma translate_loop_ascii (s : list Z) :
  Forall (fun b => gsm_is_ascii b = true) s ->
  translate_loop s basicSMSset = Ok s /\ flat_map utf8_encode s = s.
Proof.
  induction 1 as [|b s Hb Hs (IH1 & IH2)]; [split; reflexivity|].
  destruct (gsm_is_ascii_table b Hb) as (Hr & Ht).
  cbn [translate_loop flat_map].
  rewrite lookup_ok by exact Hr. cbn [bind].
  rewrite IH1, IH2, Ht, utf8_encode_ascii by exact Hr.
  split; reflexivity.
Qed.

(** X8.  On letters, digits, space and the punctuation that the GSM
    alphabet shares with ASCII the translation changes nothing: the text
    of such septets, and with it the [UserData] of a 7-bit message made
    of them, is the septets themselves as a string.  They are the only
    septets with that property. *)
Theorem translateSMS_ascii_unchanged (s : slice)
  (Hs : Forall (fun b => gsm_is_ascii b = true) (vis s)) :
  translateSMS s basicSMSset = Ok (string_of_bytes (vis s))
  /\ (forall msg, Unicode msg = false -> RawData msg = s ->
                  UserData msg = Ok (string_of_bytes (vis s)))
  /\ (forall b, 0 <= b < 128 ->
                (septet_code b = [b] <-> gsm_is_ascii b = true)).
Proof.
  destruct (translate_loop_ascii (vis s) Hs) as (H1 & H2).
  assert (Ht : translateSMS s basicSMSset = Ok (string_of_bytes (vis s))).
  { unfold translateSMS, string_of_runes. rewrite H1. cbn [bind]. now rewrite H2. }
  split; [exact Ht|]. split.
  - intros msg HU HR. unfold UserData. rewrite HU, HR. exact Ht.
  - intros b Hb.
    assert (Hc : forallb (fun b => Bool.eqb (prefix_b (septet_code b) [b]
                                             && prefix_b [b] (septet_code b))
                                            (gsm_is_ascii b))
                   septet_values = true) by (vm_compute; reflexivity).
    pose proof (septets_check _ Hc b Hb) as Hi. cbv beta in Hi.
    apply Bool.eqb_prop in Hi. rewrite <- Hi. split.
    + intros ->. cbn [prefix_b]. now rewrite Z.eqb_refl.
    + intros H. apply andb_true_iff in H. destruct H as [Ha Hb'].
      destruct (septet_code b) as [|x [|y l]]; cbn [prefix_b] in *;
        try discriminate.
      * rewrite andb_true_r in Ha. apply Z.eqb_eq in Ha. now subst.
      * rewrite andb_false_r in Ha. discriminate.
Qed.

Lemma translateSMS_ascii_unchanged_witness :
  Forall (fun b => gsm_is_ascii b = true) (vis (of_list [0x48; 0x69; 0x20; 0x32; 0x3F]))
  /\ translateSMS (of_list [0x48; 0x69; 0x20; 0x32; 0x3F]) basicSMSset
     = Ok (string_of_bytes (vis (of_list [0x48; 0x69; 0x20; 0x32; 0x3F]))).
Proof.
  assert (H : Forall (fun b => gsm_is_ascii b = true)
                (vis (of_list [0x48; 0x69; 0x20; 0x32; 0x3F])))
    by (repeat constructor).
  split; [exact H|].
  exact (proj1 (translateSMS_ascii_unchanged _ H)).
Defined.

Lemma byte_of_ascii_of_byte (b : Z) :
  is_byte b -> byte_of_ascii (ascii_of_byte b) = b.
Proof.
  unfold is_byte, byte_of_ascii, ascii_of_byte. intros H.
  rewrite N_ascii_embedding by lia. lia.
Qed.

Lemma bytes_of_string_of_bytes (l : list Z) :
  bytes l -> bytes_of_string (string_of_bytes l) = l.
Proof.
  induction 1 as [|b l Hb Hl IH]; [reflexivity|].
  cbn [string_of_bytes bytes_of_string].
  now rewrite byte_of_ascii_of_byte, IH.
Qed.

Lemma prefix_b_app (l1 l2 x y : list Z) :
  l1 ++ x = l2 ++ y -> prefix_b l1 l2 = true \/ prefix_b l2 l1 = true.
Proof.
  revert l2. induction l1 as [|a l1 IH]; intros l2 H; [now left|].
  destruct l2 as [|b l2]; [now right|].
  cbn [app] in H. injection H as -> H.
  cbn [prefix_b]. rewrite Z.eqb_refl. cbn [andb]. now apply IH.
Qed.

Lemma prefix_b_refl_inv (l1 l2 x y : list Z) :
  l1 = l2 -> l1 ++ x = l2 ++ y -> x = y.
Proof. intros ->. apply app_inv_head. Qed.

(** The codes of the 128 septets are bytes, none is empty and none is a
    prefix of another. *)
Lemma septet_codes_prefix_free (b1 b2 : Z) :
  0 <= b1 < 128 -> 0 <= b2 < 128 ->
  bytes (septet_code b1)
  /\ septet_code b1 <> []
  /\ (prefix_b (septet_code b1) (septet_code b2) = true -> b1 = b2).
Proof.
  intros H1 H2.
  assert (Hc : forallb
                 (fun b1 =>
                    forallb (fun x => (0 <=? x) && (x <? 256)) (septet_code b1)
                    && negb (prefix_b (septet_code b1) [])
                    && forallb
                         (fun b2 => implb (prefix_b (septet_code b1) (septet_code b2))
                                          (b1 =? b2))
                         septet_values)
                 septet_values = true) by (vm_compute; reflexivity).
  pose proof (septets_check _ Hc b1 H1) as Hi. cbv beta in Hi.
  apply andb_true_iff in Hi. destruct Hi as [Hi Hp].
  apply andb_true_iff in Hi. destruct Hi as [Hb Hn].
  repeat split.
  - apply Forall_forall. intros x Hx.
    rewrite forallb_forall in Hb. specialize (Hb x Hx).
    apply andb_true_iff in Hb. destruct Hb as [Ha Hb].
    apply Z.leb_le in Ha. apply Z.ltb_lt in Hb. unfold is_byte. lia.
  - intros E. rewrite E in Hn. discriminate Hn.
  - intros Hpre. pose proof (septets_check _ Hp b2 H2) as Hj. cbv beta in Hj.
    rewrite Hpre in Hj. cbn [implb] in Hj. now apply Z.eqb_eq.
Qed.

Lemma translate_loop_codes (s : list Z) :
  Forall (fun x => 0 <= x < 128) s ->
  exists r, translate_loop s basicSMSset = Ok r
            /\ flat_map utf8_encode r = flat_map septet_code s.
Proof.
  induction 1 as [|b s Hb Hs (r & Hr & Hf)].
  - exists []. split; reflexivity.
  - exists (nth (Z.to_nat b) basicSMSset 0 :: r).
    cbn [translate_loop flat_map]. rewrite lookup_ok by exact Hb. cbn [bind].
    rewrite Hr, Hf. split; reflexivity.
Qed.

Lemma flat_map_codes_bytes (s : list Z) :
  Forall (fun x => 0 <= x < 128) s -> bytes (flat_map septet_code s).
Proof.
  induction 1 as [|b s Hb Hs IH]; [constructor|].
  cbn [flat_map]. apply Forall_app. split; [|exact IH].
  apply (septet_codes_prefix_free b b Hb Hb).
Qed.

Lemma flat_map_codes_inj (s1 : list Z) :
  Forall (fun x => 0 <= x < 128) s1 ->
  forall s2, Forall (fun x => 0 <= x < 128) s2 ->
  flat_map septet_code s1 = flat_map septet_code s2 -> s1 = s2.
Proof.
  induction 1 as [|b1 s1 Hb1 Hs1 IH]; intros s2 Hs2 E.
  - destruct Hs2 as [|b2 s2 Hb2 _]; [reflexivity|].
    cbn [flat_map] in E. symmetry in E. apply app_eq_nil in E.
    destruct E as [E _].
    now destruct (proj1 (proj2 (septet_codes_prefix_free b2 b2 Hb2 Hb2))).
  - destruct Hs2 as [|b2 s2 Hb2 Hs2].
    + cbn [flat_map] in E. apply app_eq_nil in E. destruct E as [E _].
      now destruct (proj1 (proj2 (septet_codes_prefix_free b1 b1 Hb1 Hb1))).
    + cbn [flat_map] in E.
      assert (Hb : b1 = b2).
      { destruct (prefix_b_app _ _ _ _ E) as [Hp|Hp].
        - now apply (septet_codes_prefix_free b1 b2).
        - symmetry. now apply (septet_codes_prefix_free b2 b1). }
      subst b2. apply app_inv_head in E. f_equal. now apply IH.
Qed.

(** X9.  The translation loses nothing: two septet sequences that
    [translateSMS] turns into the same text are the same sequence.  (No
    two septets share a character, and the UTF-8 codes of the 128
    characters, the replacement of the escape code included, can be told
    apart from the front.) *)
Theorem translateSMS_injective (s1 s2 : slice) (text : string)
  (H1 : translateSMS s1 basicSMSset = Ok text)
  (H2 : translateSMS s2 basicSMSset = Ok text) :
  vis s1 = vis s2.
Proof.
  assert (Hin : forall s t, translateSMS s basicSMSset = Ok t ->
                            Forall (fun x => 0 <= x < 128) (vis s)).
  { intros s t Ht.
    destruct (Forall_dec (fun x => 0 <= x < 128)
                (fun x => match Z_le_dec 0 x, Z_lt_dec x 128 with
                          | left a, left b => left (conj a b)
                          | right a, _ => right (fun h => a (proj1 h))
                          | _, right b => right (fun h => b (proj2 h))
                          end) (vis s)) as [H|H]; [exact H|].
    unfold translateSMS in Ht. rewrite translate_loop_panics in Ht by exact H.
    discriminate Ht. }
  pose proof (Hin s1 text H1) as F1. pose proof (Hin s2 text H2) as F2.
  destruct (translate_loop_codes (vis s1) F1) as (r1 & Hr1 & Hc1).
  destruct (translate_loop_codes (vis s2) F2) as (r2 & Hr2 & Hc2).
  unfold translateSMS, string_of_runes in H1, H2.
  rewrite Hr1 in H1. rewrite Hr2 in H2. cbn [bind] in H1, H2.
  rewrite Hc1 in H1. rewrite Hc2 in H2.
  injection H1 as H1. injection H2 as H2.
  apply flat_map_codes_inj; try assumption.
  rewrite <- (bytes_of_string_of_bytes (flat_map septet_code (vis s1)))
    by now apply flat_map_codes_bytes.
  rewrite <- (bytes_of_string_of_bytes (flat_map septet_code (vis s2)))
    by now apply flat_map_codes_bytes.
  congruence.
Qed.

Lemma translateSMS_injective_witness :
  translateSMS (of_list [0x00; 0x1B; 0x41]) basicSMSset
  = Ok (string_of_bytes [0x40; 0xEF; 0xBF; 0xBD; 0x41])
  /\ vis (of_list [0x00; 0x1B; 0x41]) = vis (mkSlice [0x00; 0x1B; 0x41] [7]).
Proof.
  assert (H1 : translateSMS (of_list [0x00; 0x1B; 0x41]) basicSMSset
               = Ok (string_of_bytes [0x40; 0xEF; 0xBF; 0xBD; 0x41]))
    by (vm_compute; reflexivity).
  assert (H2 : translateSMS (mkSlice [0x00; 0x1B; 0x41] [7]) basicSMSset
               = Ok (string_of_bytes [0x40; 0xEF; 0xBF; 0xBD; 0x41]))
    by (vm_compute; reflexivity).
  split; [exact H1|].
  exact (translateSMS_injective _ _ _ H1 H2).
Defined.

(* ===================================================================== *)
(** ** Further properties: the user data as text                          *)
(* ===================================================================== *)

Lemma for_index_ok {A : Type} (body : Z -> res A) (idx : list nat) :
  (forall i, In i idx -> exists a, body (Z.of_nat i) = Ok a) ->
  exists l, for_index body idx = Ok l.
Proof.
  induction idx as [|i idx IH]; intros H.
  - exists []. reflexivity.
  - destruct (H i (or_introl eq_refl)) as (a & Ha).
    destruct IH as (l & Hl); [intros j Hj; apply H; now right|].
    exists (a :: l). cbn [for_index]. now rewrite Ha, Hl.
Qed.

Lemma UserData_unicode_returns (msg : deliverMessage) :
  Unicode msg = true -> exists text, UserData msg = Ok text.
Proof.
  intros HU. unfold UserData. rewrite HU.
  set (raw := RawData msg).
  assert (Hn : 0 <= len raw) by (unfold len; lia).
  assert (Hq : 0 <= Z.quot (len raw) 2 /\ 2 * Z.quot (len raw) 2 <= len raw).
  { rewrite Z.quot_div_nonneg by lia.
    split; [apply Z.div_pos; lia | apply Z.mul_div_le; lia]. }
  destruct (for_index_ok
              (fun i => hi <- index raw (2 * i) ;;
                        lo <- index raw (2 * i + 1) ;;
                        Ok (Z.lor (uint16 (Z.shiftl (uint16 hi) 8)) (uint16 lo)))
              (seq 0 (Z.to_nat (Z.quot (len raw) 2)))) as (l & Hl).
  { intros i Hi. apply in_seq in Hi.
    rewrite !index_ok by lia. cbn [bind]. eexists. reflexivity. }
  rewrite Hl. cbn [bind]. eexists. reflexivity.
Qed.

Lemma concat_keeps_raw (msg msg' : deliverMessage) (size size' : Z) (ud : slice) :
  parseDeliverMessage_concat msg size ud = Ok (msg', size') ->
  Unicode msg' = Unicode msg
  /\ size' = size
  /\ exists k, vis (RawData msg') = skipn k (vis (RawData msg)).
Proof.
  unfold parseDeliverMessage_concat, bind. intros H.
  destruct (starts_with ud 6 5 0 3) as [[|]|]; [| |discriminate H].
  - destruct (index ud 5); [|discriminate H].
    destruct (index ud 4); [|discriminate H].
    destruct (index ud 3); [|discriminate H].
    cbn [Unicode RawData set_Ref set_NParts set_Part set_Concat] in H.
    unfold slice_from in H.
    destruct ((0 <=? _) && (_ <=? len (RawData msg))); [|discriminate H].
    injection H as <- <-. repeat split. eexists. reflexivity.
  - destruct (starts_with ud 7 6 8 4) as [[|]|]; [| |discriminate H].
    + destruct (index ud 6); [|discriminate H].
      destruct (index ud 5); [|discriminate H].
      destruct (index ud 3); [|discriminate H].
      destruct (index ud 4); [|discriminate H].
      cbn [Unicode RawData set_Ref set_NParts set_Part set_Concat] in H.
      unfold slice_from in H.
      destruct ((0 <=? _) && (_ <=? len (RawData msg))); [|discriminate H].
      injection H as <- <-. repeat split. eexists. reflexivity.
    + injection H as <- <-. repeat split. exists 0%nat. reflexivity.
Qed.

Lemma slice_to_keeps_all (P : Z -> Prop) (r r' : slice) (n : Z) :
  Forall P (vis r ++ spare r) -> slice_to r n = Ok r' -> Forall P (vis r').
Proof.
  unfold slice_to, slice_range. intros HP H.
  destruct ((0 <=? 0) && (0 <=? n) && (n <=? cap r)); [|discriminate H].
  injection H as <-. cbn [vis].
  apply Forall_firstn. first [exact HP | now apply Forall_skipn].
Qed.

Lemma payload_septets (msg msg' : deliverMessage) (size size' : Z) (p : slice) :
  Unicode msg = false ->
  parseDeliverMessage_payload msg size p = Ok (msg', size') ->
  Unicode msg' = false /\ Forall (fun x => 0 <= x < 128) (vis (RawData msg')).
Proof.
  unfold parseDeliverMessage_payload, bind. intros HU H. rewrite HU in H.
  destruct (index p 0) as [length|]; [|discriminate H].
  destruct (slice_range p 1 _) as [packed|]; [|discriminate H].
  cbn [RawData set_RawData] in H.
  destruct (slice_to (unpack7bit packed) length) as [raw|] eqn:Hraw;
    [|discriminate H].
  destruct (slice_from p 1) as [ud|]; [|discriminate H].
  apply concat_keeps_raw in H. destruct H as (HU' & _ & k & Hk).
  cbn [Unicode RawData set_RawData] in HU', Hk. split; [congruence|].
  rewrite Hk. apply Forall_skipn.
  refine (slice_to_keeps_all _ _ _ _ _ Hraw).
  apply Forall_app. split; [apply unpack7bit_septets_any|].
  rewrite unpack7bit_spare. repeat constructor; lia.
Qed.

Lemma payload_keeps_Unicode (msg msg' : deliverMessage) (size size' : Z) (p : slice) :
  parseDeliverMessage_payload msg size p = Ok (msg', size') ->
  Unicode msg' = Unicode msg.
Proof.
  unfold parseDeliverMessage_payload, bind. intros H.
  destruct (Unicode msg) eqn:HU.
  - destruct (index p 0); [|discriminate H].
    destruct (slice_range p 1 _); [|discriminate H].
    destruct (slice_from p 1); [|discriminate H].
    apply concat_keeps_raw in H. destruct H as (H & _).
    cbn [Unicode set_RawData] in H. congruence.
  - destruct (index p 0); [|discriminate H].
    destruct (slice_range p 1 _); [|discriminate H].
    destruct (slice_to _ _); [|discriminate H].
    destruct (slice_from p 1); [|discriminate H].
    apply concat_keeps_raw in H. destruct H as (H & _).
    cbn [Unicode set_RawData] in H. congruence.
Qed.

(** X10.  The text of a parsed message can always be had: whenever
    [parseDeliverMessage] returns a message, whatever the buffer,
    [UserData] returns on it.  In the 7-bit case [RawData] holds septets
    only, so the look-up in the alphabet stays in range; in the Unicode
    case the loop reads pairs of bytes below the length. *)
Theorem UserData_of_parsed_returns (s : slice) (msg : deliverMessage) (size : Z)
  (H : parseDeliverMessage s = Ok (msg, size)) :
  exists text, UserData msg = Ok text.
Proof.
  destruct (Unicode msg) eqn:HU; [now apply UserData_unicode_returns|].
  unfold parseDeliverMessage, bind in H.
  destruct (index s 0); [|discriminate H].
  destruct (index s 1); [|discriminate H].
  destruct (slice_range s 3 _); [|discriminate H].
  destruct (slice_from s _); [|discriminate H].
  destruct (index _ 1) as [format|]; [|discriminate H].
  destruct (slice_range _ 2 9); [|discriminate H].
  destruct (parseDateTime _); [|discriminate H].
  destruct (slice_from s _); [|discriminate H].
  destruct (negb (Z.land format 8 =? 0)) eqn:HF.
  - assert (HU' : Unicode msg = true).
    { rewrite (payload_keeps_Unicode _ _ _ _ _ H). reflexivity. }
    congruence.
  - apply payload_septets in H; [|reflexivity].
    destruct H as (_ & HF').
    destruct (translate_loop_ok _ HF') as (r & Hr & _).
    exists (string_of_runes r). unfold UserData. rewrite HU.
    unfold translateSMS. now rewrite Hr.
Qed.

Lemma UserData_of_parsed_returns_witness :
  parseDeliverMessage (of_list hello_tpdu) = Ok (hello_msg, 24)
  /\ exists text, UserData hello_msg = Ok text.
Proof.
  assert (H : parseDeliverMessage (of_list hello_tpdu) = Ok (hello_msg, 24))
    by (vm_compute; reflexivity).
  split; [exact H|].
  exact (UserData_of_parsed_returns (of_list hello_tpdu) hello_msg 24 H).
Defined.

Lemma hi_lo_bytes (hi lo : Z) :
  is_byte hi -> is_byte lo ->
  Z.lor (uint16 (Z.shiftl (uint16 hi) 8)) (uint16 lo) = hi * 256 + lo.
Proof.
  intros Hhi Hlo. rewrite Z.lor_comm.
  change (Z.lor (uint16 lo) (uint16 (Z.shiftl (uint16 hi) 8))) with (be16 hi lo).
  now apply be16_bytes.
Qed.

(** The loop of [UserData] that puts pairs of bytes together. *)
Lemma UserData_loop (l sp : list Z) (n a : nat) :
  bytes l ->
  (2 * (a + n) <= List.length l)%nat ->
  for_index
    (fun i => hi <- index (mkSlice l sp) (2 * i) ;;
              lo <- index (mkSlice l sp) (2 * i + 1) ;;
              Ok (Z.lor (uint16 (Z.shiftl (uint16 hi) 8)) (uint16 lo)))
    (seq a n)
  = Ok (ucs2_units n (skipn (2 * a) l)).
Proof.
  intros Hb. revert a. induction n as [|n IH]; intros a Hlen; [reflexivity|].
  cbn [seq for_index].
  pose proof (length_skipn (2 * a) l) as Hsk.
  destruct (skipn (2 * a) l) as [|x [|y post]] eqn:E;
    cbn [List.length] in Hsk; try lia.
  assert (Hxy : is_byte x /\ is_byte y).
  { pose proof (Forall_skipn is_byte (2 * a) l Hb) as F. rewrite E in F.
    inversion F as [|? ? Hx F']. inversion F' as [|? ? Hy ?]. now split. }
  rewrite !index_ok by (unfold len; cbn [vis]; lia).
  cbn [bind vis].
  replace (Z.to_nat (2 * Z.of_nat a)) with (2 * a + 0)%nat by lia.
  replace (Z.to_nat (2 * Z.of_nat a + 1)) with (2 * a + 1)%nat by lia.
  rewrite <- !nth_skipn_add, E. cbn [nth].
  rewrite hi_lo_bytes by tauto.
  rewrite (IH (S a)) by lia.
  replace (2 * S a)%nat with (2 + 2 * a)%nat by lia.
  rewrite <- skipn_skipn, E. reflexivity.
Qed.

Lemma ucs2_units_be_bytes (units tail : list Z) :
  Forall (fun u => 0 <= u < 65536) units ->
  ucs2_units (List.length units) (flat_map be_bytes units ++ tail) = units.
Proof.
  induction 1 as [|u units Hu Hs IH]; [reflexivity|].
  cbn [List.length flat_map be_bytes app ucs2_units]. rewrite IH.
  f_equal. pose proof (Z.div_mod u 256 ltac:(lia)). lia.
Qed.

Lemma be_bytes_bytes (units : list Z) :
  Forall (fun u => 0 <= u < 65536) units -> bytes (flat_map be_bytes units).
Proof.
  induction 1 as [|u units Hu Hs IH]; [constructor|].
  cbn [flat_map be_bytes app].
  pose proof (Z.mod_pos_bound u 256 ltac:(lia)).
  assert (0 <= u / 256 < 256)
    by (split; [apply Z.div_pos | apply Z.div_lt_upper_bound]; lia).
  repeat constructor; try exact IH; unfold is_byte; lia.
Qed.

Lemma length_be_bytes (units : list Z) :
  List.length (flat_map be_bytes units) = (2 * List.length units)%nat.
Proof. induction units; cbn [flat_map be_bytes app List.length]; lia. Qed.

Lemma utf16_units_range (runes : list Z) :
  Forall scalar runes ->
  Forall (fun u => 0 <= u < 65536) (flat_map utf16_units runes).
Proof.
  induction 1 as [|r runes Hr Hs IH]; [constructor|].
  cbn [flat_map]. apply Forall_app. split; [|exact IH].
  unfold utf16_units, scalar in *.
  destruct (Z.ltb_spec r 65536).
  - repeat constructor; lia.
  - pose proof (Z.mod_pos_bound (r - 65536) 1024 ltac:(lia)).
    assert (0 <= (r - 65536) / 1024 < 1024)
      by (split; [apply Z.div_pos | apply Z.div_lt_upper_bound]; lia).
    repeat constructor; lia.
Qed.

(** [utf16.Decode] undoes the UTF-16 encoding of scalar values, pairs of
    surrogates included. *)
Lemma utf16_Decode_units (runes : list Z) :
  Forall scalar runes -> utf16_Decode (flat_map utf16_units runes) = runes.
Proof.
  induction 1 as [|r runes Hr Hs IH]; [reflexivity|].
  cbn [flat_map]. unfold utf16_units at 1. unfold scalar in Hr.
  destruct (Z.ltb_spec r 65536) as [Hlt|Hge].
  - cbn [app utf16_Decode].
    replace ((r <? 55296) || (57344 <=? r)) with true.
    + now rewrite IH.
    + symmetry. apply orb_true_iff.
      destruct Hr; [left; apply Z.ltb_lt | right; apply Z.leb_le]; lia.
  - pose proof (Z.mod_pos_bound (r - 65536) 1024 ltac:(lia)) as Hm.
    assert (Hq : 0 <= (r - 65536) / 1024 < 1024)
      by (split; [apply Z.div_pos | apply Z.div_lt_upper_bound]; lia).
    set (hi := 55296 + (r - 65536) / 1024).
    set (lo := 56320 + (r - 65536) mod 1024).
    cbn [app utf16_Decode].
    replace ((hi <? 55296) || (57344 <=? hi)) with false
      by (symmetry; apply orb_false_iff;
          split; [apply Z.ltb_ge | apply Z.leb_gt]; unfold hi; lia).
    replace ((hi <? 56320) && (56320 <=? lo) && (lo <? 57344)) with true
      by (symmetry; rewrite !andb_true_iff;
          repeat split; [apply Z.ltb_lt | apply Z.leb_le | apply Z.ltb_lt];
          unfold hi, lo; lia).
    rewrite IH. f_equal. unfold DecodeRune, hi, lo.
    replace (55296 + (r - 65536) / 1024 - 55296) with ((r - 65536) / 1024) by lia.
    replace (56320 + (r - 65536) mod 1024 - 56320) with ((r - 65536) mod 1024) by lia.
    rewrite Z.lor_comm, lor_shiftl_add by (change (2 ^ 10) with 1024; lia).
    change (2 ^ 10) with 1024.
    pose proof (Z.div_mod (r - 65536) 1024 ltac:(lia)). lia.
Qed.

(** X11.  [UserData] of a Unicode message reads [RawData] as UTF-16 in
    big-endian order, surrogate pairs included: for every sequence of
    Unicode scalar values it gives the UTF-8 string of the sequence back
    from its UTF-16BE bytes.  A last byte without a partner is
    ignored. *)
Theorem UserData_utf16be (msg : deliverMessage) (runes tail : list Z)
  (HU : Unicode msg = true)
  (Hr : Forall scalar runes)
  (Ht : (List.length tail <= 1)%nat)
  (Hraw : vis (RawData msg) = utf16be runes ++ tail) :
  UserData msg = Ok (string_of_runes runes).
Proof.
  pose proof (utf16_units_range runes Hr) as Hu.
  set (units := flat_map utf16_units runes) in *.
  unfold UserData. rewrite HU.
  destruct (RawData msg) as [l sp]. cbn [vis] in Hraw. subst l.
  unfold utf16be. fold units.
  assert (Hn : Z.to_nat (Z.quot (len (mkSlice (flat_map be_bytes units ++ tail) sp)) 2)
               = List.length units).
  { unfold len. cbn [vis]. rewrite length_app, length_be_bytes.
    rewrite Z.quot_div_nonneg by lia.
    replace (Z.of_nat (2 * List.length units + List.length tail))
      with (Z.of_nat (List.length tail) + Z.of_nat (List.length units) * 2) by lia.
    rewrite Z.div_add, Z.div_small by lia. lia. }
  rewrite Hn.
  destruct tail as [|t0 tail].
  - rewrite app_nil_r.
    rewrite UserData_loop
      by (try (now apply be_bytes_bytes); rewrite length_be_bytes; lia).
    cbn [bind skipn Nat.mul Nat.add].
    rewrite <- (app_nil_r (flat_map be_bytes units)).
    rewrite ucs2_units_be_bytes by exact Hu.
    unfold units. now rewrite utf16_Decode_units.
  - destruct tail; [|cbn [List.length] in Ht; lia].
    (* the loop never reads the odd byte: it is the same loop on the
       buffer without it *)
    assert (Hloop : forall (n a : nat) l,
               (2 * (a + n) <= List.length l)%nat ->
               for_index
                 (fun i => hi <- index (mkSlice (l ++ [t0]) sp) (2 * i) ;;
                           lo <- index (mkSlice (l ++ [t0]) sp) (2 * i + 1) ;;
                           Ok (Z.lor (uint16 (Z.shiftl (uint16 hi) 8)) (uint16 lo)))
                 (seq a n)
               = for_index
                   (fun i => hi <- index (mkSlice l sp) (2 * i) ;;
                             lo <- index (mkSlice l sp) (2 * i + 1) ;;
                             Ok (Z.lor (uint16 (Z.shiftl (uint16 hi) 8)) (uint16 lo)))
                   (seq a n)).
    { induction n as [|n IHn]; intros a l Hl; [reflexivity|].
      cbn [seq for_index].
      rewrite !index_ok
        by (unfold len; cbn [vis]; rewrite ?length_app; cbn [List.length]; lia).
      cbn [bind vis]. rewrite !app_nth1 by lia.
      rewrite IHn by lia. reflexivity. }
    rewrite Hloop by (rewrite length_be_bytes; lia).
    rewrite UserData_loop
      by (try (now apply be_bytes_bytes); rewrite length_be_bytes; lia).
    cbn [bind skipn Nat.mul Nat.add].
    rewrite <- (app_nil_r (flat_map be_bytes units)).
    rewrite ucs2_units_be_bytes by exact Hu.
    unfold units. now rewrite utf16_Decode_units.
Qed.

Lemma UserData_utf16be_witness :
  Unicode (set_RawData (set_Unicode zeroDeliver true)
             (of_list (utf16be [0x48; 0x20AC; 0x1F600] ++ [0x21]))) = true
  /\ Forall scalar [0x48; 0x20AC; 0x1F600]
  /\ (List.length [0x21] <= 1)%nat
  /\ UserData (set_RawData (set_Unicode zeroDeliver true)
                 (of_list (utf16be [0x48; 0x20AC; 0x1F600] ++ [0x21])))
     = Ok (string_of_runes [0x48; 0x20AC; 0x1F600]).
Proof.
  assert (H1 : Unicode (set_RawData (set_Unicode zeroDeliver true)
                          (of_list (utf16be [0x48; 0x20AC; 0x1F600] ++ [0x21]))) = true)
    by reflexivity.
  assert (H2 : Forall scalar [0x48; 0x20AC; 0x1F600])
    by (repeat constructor; unfold scalar; lia).
  assert (H3 : (List.length [0x21] <= 1)%nat) by (simpl; lia).
  split; [exact H1|]. split; [exact H2|]. split; [exact H3|].
  exact (UserData_utf16be _ [0x48; 0x20AC; 0x1F600] [0x21] H1 H2 H3 eq_refl).
Defined.

(* ===================================================================== *)
(** ** Further properties: the TPDU                                       *)
(* ===================================================================== *)

Lemma starts_with_false (ud : slice) (n a b c : Z) :
  3 <= n ->
  ~ (n <= len ud /\ firstn 3 (vis ud) = [a; b; c]) ->
  starts_with ud n a b c = Ok false.
Proof.
  intros Hn Hno. destruct ud as [l sp].
  destruct l as [|u0 [|u1 [|u2 rest]]].
  1-3: unfold starts_with, len; cbn [vis List.length];
       replace (_ >=? n) with false
         by (symmetry; rewrite Z.geb_leb; apply Z.leb_gt; cbn [List.length]; lia);
       reflexivity.
  rewrite starts_with_3.
  destruct (Z.of_nat (3 + List.length rest) >=? n) eqn:Hl; [|reflexivity].
  apply Z.geb_le in Hl. cbn [andb].
  destruct (u0 =? a) eqn:E0; [|reflexivity].
  destruct (u1 =? b) eqn:E1; [|reflexivity].
  destruct (u2 =? c) eqn:E2; [|reflexivity].
  apply Z.eqb_eq in E0, E1, E2. subst. exfalso. apply Hno.
  split; [|reflexivity]. unfold len. cbn [vis List.length] in *. lia.
Qed.

(** What the [switch] leaves alone. *)
Lemma concat_keeps_header (msg msg' : deliverMessage) (size size' : Z) (ud : slice) :
  parseDeliverMessage_concat msg size ud = Ok (msg', size') ->
  MsgType msg' = MsgType msg /\ MoreMsg msg' = MoreMsg msg
  /\ FromAddr msg' = FromAddr msg /\ Compressed msg' = Compressed msg
  /\ Unicode msg' = Unicode msg /\ SMSCStamp msg' = SMSCStamp msg
  /\ size' = size.
Proof.
  unfold parseDeliverMessage_concat, bind. intros H.
  destruct (starts_with ud 6 5 0 3) as [[|]|]; [| |discriminate H].
  - destruct (index ud 5); [|discriminate H].
    destruct (index ud 4); [|discriminate H].
    destruct (index ud 3); [|discriminate H].
    destruct (slice_from _ _); [|discriminate H].
    injection H as <- <-. repeat split.
  - destruct (starts_with ud 7 6 8 4) as [[|]|]; [| |discriminate H].
    + destruct (index ud 6); [|discriminate H].
      destruct (index ud 5); [|discriminate H].
      destruct (index ud 3); [|discriminate H].
      destruct (index ud 4); [|discriminate H].
      destruct (slice_from _ _); [|discriminate H].
      injection H as <- <-. repeat split.
    + injection H as <- <-. repeat split.
Qed.

Lemma payload_keeps_header
  (msg msg' : deliverMessage) (size size' udl : Z) (ud sp : list Z) :
  parseDeliverMessage_payload msg size (mkSlice (udl :: ud) sp) = Ok (msg', size') ->
  MsgType msg' = MsgType msg /\ MoreMsg msg' = MoreMsg msg
  /\ FromAddr msg' = FromAddr msg /\ Compressed msg' = Compressed msg
  /\ Unicode msg' = Unicode msg /\ SMSCStamp msg' = SMSCStamp msg
  /\ size' = size + (payload_bytes (Unicode msg) udl + 1).
Proof.
  unfold parseDeliverMessage_payload, payload_bytes. intros H.
  pose proof (index_app [] ud sp udl 0 eq_refl) as E. cbn [app] in E.
  destruct (Unicode msg) eqn:HU; rewrite E in H; cbn [bind] in H; unfold bind in H.
  - destruct (slice_range _ 1 _); [|discriminate H].
    destruct (slice_from _ 1); [|discriminate H].
    apply concat_keeps_header in H.
    cbn [MsgType MoreMsg FromAddr Compressed Unicode SMSCStamp set_RawData] in H.
    rewrite HU in H. exact H.
  - destruct (slice_range _ 1 _); [|discriminate H].
    destruct (slice_to _ _); [|discriminate H].
    destruct (slice_from _ 1); [|discriminate H].
    apply concat_keeps_header in H.
    cbn [MsgType MoreMsg FromAddr Compressed Unicode SMSCStamp set_RawData] in H.
    rewrite HU in H. exact H.
Qed.

(** X12.  Whatever the user data holds, a message that
    [parseDeliverMessage] returns for a TPDU carries the header as it is
    in the buffer: the type in the low two bits of the first octet, the
    more-messages flag set when bit 2 is clear, the digits of the
    address octets, bit 5 and bit 3 of the data coding scheme as
    [Compressed] and [Unicode], and the time stamp.  The size it returns
    is the header, the length octet and the payload bytes the length
    stands for; stripping a concatenation header does not change it. *)
Theorem parseDeliverMessage_header_and_size
  (t nb toa : Z) (addr : list Z) (pid fmt b0 b1 b2 b3 b4 b5 b6 udl : Z)
  (ud sp : list Z) (msg : deliverMessage) (size : Z)
  (Haddr : Z.quot (nb + 1) 2 = Z.of_nat (List.length addr))
  (Hret : parseDeliverMessage
            (mkSlice (tpdu t nb toa addr pid fmt [b0; b1; b2; b3; b4; b5; b6] udl ud) sp)
          = Ok (msg, size)) :
  MsgType msg = Z.land t 3
  /\ MoreMsg msg = (Z.land t 4 =? 0)
  /\ FromAddr msg = decodeBCD (of_list addr)
  /\ Compressed msg = negb (Z.land fmt 0x20 =? 0)
  /\ Unicode msg = negb (Z.land fmt 8 =? 0)
  /\ SMSCStamp msg = timestamp_of bcd_pair b0 b1 b2 b3 b4 b5 b6
  /\ size = Z.of_nat (List.length addr) + 13
            + payload_bytes (negb (Z.land fmt 8 =? 0)) udl.
Proof.
  unfold tpdu in Hret. rewrite parseDeliverMessage_header in Hret by assumption.
  apply payload_keeps_header in Hret.
  cbn [MsgType MoreMsg FromAddr Compressed Unicode SMSCStamp deliver_header] in Hret.
  destruct Hret as (H1 & H2 & H3 & H4 & H5 & H6 & H7).
  repeat split; try assumption. rewrite H7, Haddr. lia.
Qed.

Lemma parseDeliverMessage_header_and_size_witness :
  Z.quot (0x0B + 1) 2 = Z.of_nat (List.length [0x13; 0x46; 0x61; 0x00; 0x89; 0xF6])
  /\ parseDeliverMessage (mkSlice hello_tpdu []) = Ok (hello_msg, 24)
  /\ FromAddr hello_msg = decodeBCD (of_list [0x13; 0x46; 0x61; 0x00; 0x89; 0xF6]).
Proof.
  assert (H1 : Z.quot (0x0B + 1) 2
               = Z.of_nat (List.length [0x13; 0x46; 0x61; 0x00; 0x89; 0xF6]))
    by reflexivity.
  assert (H2 : parseDeliverMessage
                 (mkSlice (tpdu 0x04 0x0B 0x91 [0x13; 0x46; 0x61; 0x00; 0x89; 0xF6]
                                0x7F 0x00 [0x99; 0x30; 0x92; 0x51; 0x61; 0x95; 0x80]
                                5 [0xE8; 0x32; 0x9B; 0xFD; 0x06]) [])
               = Ok (hello_msg, 24)) by (vm_compute; reflexivity).
  split; [exact H1|]. split; [exact H2|].
  exact (proj1 (proj2 (proj2
           (parseDeliverMessage_header_and_size _ _ _ _ _ _ _ _ _ _ _ _ _ _ _ _ _ _
              H1 H2)))).
Defined.

(** X13.  A TPDU without a concatenation header: when the user data
    does not begin 05 00 03 (with six bytes there) or 06 08 04 (with
    seven), and the payload that the length octet announces is there,
    the call returns the header with [RawData] the user data in full and
    [Concat] false, [Ref], [Part] and [NParts] zero. *)
Theorem parseDeliverMessage_plain
  (t nb toa : Z) (addr : list Z) (pid fmt b0 b1 b2 b3 b4 b5 b6 udl : Z)
  (ud sp : list Z)
  (Haddr : Z.quot (nb + 1) 2 = Z.of_nat (List.length addr))
  (Hudl : 0 <= udl)
  (Hbytes : bytes (ud ++ sp))
  (Hthere : payload_bytes (negb (Z.land fmt 8 =? 0)) udl
            <= Z.of_nat (List.length (ud ++ sp)))
  (Hno8 : ~ (6 <= Z.of_nat (List.length ud) /\ firstn 3 ud = [5; 0; 3]))
  (Hno16 : ~ (7 <= Z.of_nat (List.length ud) /\ firstn 3 ud = [6; 8; 4])) :
  exists raw,
    parseDeliverMessage
      (mkSlice (tpdu t nb toa addr pid fmt [b0; b1; b2; b3; b4; b5; b6] udl ud) sp)
    = Ok (set_RawData
            (deliver_header t addr fmt (timestamp_of bcd_pair b0 b1 b2 b3 b4 b5 b6))
            raw,
          Z.of_nat (List.length addr) + 13
          + payload_bytes (negb (Z.land fmt 8 =? 0)) udl)
    /\ vis raw = user_data (negb (Z.land fmt 8 =? 0)) udl (ud ++ sp)
    /\ len raw = udl.
Proof.
  unfold tpdu. rewrite parseDeliverMessage_header by assumption.
  set (hdr := deliver_header t addr fmt _).
  destruct (parseDeliverMessage_payload_spec hdr (Z.quot (nb + 1) 2 + 12) udl ud sp)
    as (raw & Hp & Hvis & Hlen); try assumption.
  exists raw. rewrite Hp. split; [|split; assumption].
  unfold parseDeliverMessage_concat.
  rewrite !starts_with_false by (try lia; unfold len; cbn [vis]; assumption).
  cbn [bind]. do 2 f_equal. rewrite Haddr.
  change (Unicode hdr) with (negb (Z.land fmt 8 =? 0)). lia.
Qed.

Lemma parseDeliverMessage_plain_witness :
  Z.quot (0x0B + 1) 2 = Z.of_nat (List.length [0x13; 0x46; 0x61; 0x00; 0x89; 0xF6])
  /\ 0 <= 5
  /\ bytes ([0xE8; 0x32; 0x9B; 0xFD; 0x06] ++ [])
  /\ exists raw,
       parseDeliverMessage (mkSlice hello_tpdu [])
       = Ok (set_RawData
               (deliver_header 0x04 [0x13; 0x46; 0x61; 0x00; 0x89; 0xF6] 0x00
                  (timestamp_of bcd_pair 0x99 0x30 0x92 0x51 0x61 0x95 0x80))
               raw,
             Z.of_nat (List.length [0x13; 0x46; 0x61; 0x00; 0x89; 0xF6]) + 13
             + payload_bytes (negb (Z.land 0x00 8 =? 0)) 5)
       /\ vis raw = user_data (negb (Z.land 0x00 8 =? 0)) 5
                      ([0xE8; 0x32; 0x9B; 0xFD; 0x06] ++ [])
       /\ len raw = 5.
Proof.
  assert (H1 : Z.quot (0x0B + 1) 2
               = Z.of_nat (List.length [0x13; 0x46; 0x61; 0x00; 0x89; 0xF6]))
    by reflexivity.
  assert (H2 : 0 <= 5) by lia.
  assert (H3 : bytes ([0xE8; 0x32; 0x9B; 0xFD; 0x06] ++ []))
    by (repeat constructor; unfold is_byte; lia).
  assert (H4 : payload_bytes (negb (Z.land 0x00 8 =? 0)) 5
               <= Z.of_nat (List.length ([0xE8; 0x32; 0x9B; 0xFD; 0x06] ++ [])))
    by (vm_compute; discriminate).
  assert (H5 : ~ (6 <= Z.of_nat (List.length [0xE8; 0x32; 0x9B; 0xFD; 0x06])
                  /\ firstn 3 [0xE8; 0x32; 0x9B; 0xFD; 0x06] = [5; 0; 3]))
    by (intros [_ E]; discriminate E).
  assert (H6 : ~ (7 <= Z.of_nat (List.length [0xE8; 0x32; 0x9B; 0xFD; 0x06])
                  /\ firstn 3 [0xE8; 0x32; 0x9B; 0xFD; 0x06] = [6; 8; 4]))
    by (intros [_ E]; discriminate E).
  split; [exact H1|]. split; [exact H2|]. split; [exact H3|].
  exact (parseDeliverMessage_plain 0x04 0x0B 0x91 [0x13; 0x46; 0x61; 0x00; 0x89; 0xF6]
           0x7F 0x00 0x99 0x30 0x92 0x51 0x61 0x95 0x80 5
           [0xE8; 0x32; 0x9B; 0xFD; 0x06] [] H1 H2 H3 H4 H5 H6).
Defined.

Lemma bcd_pair_range (b : Z) : is_byte b -> 0 <= bcd_pair b <= 165.
Proof.
  unfold is_byte, bcd_pair. intros H.
  pose proof (Z.mod_pos_bound b 16 ltac:(lia)).
  assert (0 <= b / 16 < 16)
    by (split; [apply Z.div_pos | apply Z.div_lt_upper_bound]; lia).
  lia.
Qed.

Lemma parseDateTime_long (b0 b1 b2 b3 b4 b5 b6 : Z) (rest sp : list Z) :
  parseDateTime (mkSlice (b0 :: b1 :: b2 :: b3 :: b4 :: b5 :: b6 :: rest) sp)
  = parseDateTime (mkSlice [b0; b1; b2; b3; b4; b5; b6] sp).
Proof.
  unfold parseDateTime. cbn [seq for_index].
  rewrite !index_ok by (unfold len; cbn [vis List.length]; lia).
  reflexivity.
Qed.

(** X14.  [parseDateTime] needs seven bytes and panics on fewer.  The
    zone it returns is fixed, a multiple of a quarter of an hour between
    0 and 41 h 15 min east of UTC: the octet is read as two digits like
    the others, so no octet gives a zone west of UTC. *)
Theorem parseDateTime_zone_never_west (b : slice) (Hb : bytes (vis b)) :
  (len b < 7 -> parseDateTime b = Panic index_out_of_range)
  /\ (7 <= len b ->
      exists t z,
        parseDateTime b = Ok t
        /\ loc t = Fixed z
        /\ zone_offset z = 900 * bcd_pair (nth 6 (vis b) 0)
        /\ 0 <= zone_offset z <= 148500).
Proof.
  destruct b as [l sp]. cbn [vis] in Hb. unfold len. cbn [vis]. split.
  - intros Hl.
    destruct l as [|b0 [|b1 [|b2 [|b3 [|b4 [|b5 [|b6 rest]]]]]]];
      try reflexivity.
    cbn [List.length] in Hl. lia.
  - intros Hl.
    destruct l as [|b0 [|b1 [|b2 [|b3 [|b4 [|b5 [|b6 rest]]]]]]];
      cbn [List.length] in Hl; try lia.
    rewrite parseDateTime_long, parseDateTime_ok.
    assert (H6 : is_byte b6).
    { do 6 (inversion Hb as [|? ? _ Hb']; subst; clear Hb; rename Hb' into Hb).
      now inversion Hb. }
    pose proof (bcd_pair_range b6 H6).
    do 2 eexists. split; [reflexivity|]. unfold timestamp_of, time_Date.
    repeat match goal with
           | |- context [norm ?a ?b ?c] => destruct (norm a b c)
           end.
    cbn [loc nth zone_offset]. split; [reflexivity|]. cbn [zone_offset]. lia.
Qed.

Lemma parseDateTime_zone_never_west_witness :
  bytes (vis (of_list [0x99; 0x30; 0x92; 0x51; 0x61; 0x95; 0x8A]))
  /\ 7 <= len (of_list [0x99; 0x30; 0x92; 0x51; 0x61; 0x95; 0x8A])
  /\ exists t z,
       parseDateTime (of_list [0x99; 0x30; 0x92; 0x51; 0x61; 0x95; 0x8A]) = Ok t
       /\ loc t = Fixed z
       /\ zone_offset z
          = 900 * bcd_pair (nth 6 (vis (of_list [0x99; 0x30; 0x92; 0x51; 0x61; 0x95; 0x8A])) 0)
       /\ 0 <= zone_offset z <= 148500.
Proof.
  assert (H1 : bytes (vis (of_list [0x99; 0x30; 0x92; 0x51; 0x61; 0x95; 0x8A])))
    by (repeat constructor; unfold is_byte; lia).
  assert (H2 : 7 <= len (of_list [0x99; 0x30; 0x92; 0x51; 0x61; 0x95; 0x8A]))
    by (vm_compute; discriminate).
  split; [exact H1|]. split; [exact H2|].
  exact (proj2 (parseDateTime_zone_never_west _ H1) H2).
Defined.

(* ===================================================================== *)
(** ** Further properties: the message file                               *)
(* ===================================================================== *)

Lemma peer_loop_panic_kind (n : nat) :
  forall l acc p, (List.length l <= n)%nat ->
  peer_loop l acc = Panic p -> p = index_out_of_range.
Proof.
  induction n as [|n IH]; intros l acc p Hl H.
  - destruct l; [|simpl in Hl; lia]. cbn [peer_loop] in H. congruence.
  - destruct l as [|hi [|lo l]]; cbn [peer_loop] in H; try congruence.
    destruct (negb (Z.lor hi lo =? 0)); [|discriminate H].
    apply (IH l (acc ++ [be16 hi lo]) p); [simpl in Hl; lia | exact H].
Qed.

(** X15.  [parseMessage] needs 177 bytes: on a shorter buffer, the empty
    one included, it neither returns a message nor an error but panics
    on an index or a slice bound. *)
Theorem parseMessage_short_buffer_panics (s : slice) (Hs : len s <= 176) :
  parseMessage s = Panic index_out_of_range
  \/ parseMessage s = Panic slice_bounds_out_of_range.
Proof.
  unfold parseMessage, parseMessage_pdu.
  destruct (peer_loop _ []) as [runes|p] eqn:Hp; cbn [bind].
  - destruct (Z.eq_dec (len s) 176) as [He|Hne].
    + rewrite slice_from_ok by lia. cbn [bind].
      rewrite index_panics; [now left|].
      unfold len in *. cbn [vis]. rewrite length_skipn. lia.
    + rewrite slice_from_panics by lia. now right.
  - apply peer_loop_panic_kind with (n := List.length (skipn (Z.to_nat 94) (vis s))) in Hp;
      [|lia]. subst p. now left.
Qed.

Lemma parseMessage_short_buffer_panics_witness :
  len (of_list []) <= 176
  /\ (parseMessage (of_list []) = Panic index_out_of_range
      \/ parseMessage (of_list []) = Panic slice_bounds_out_of_range).
Proof.
  assert (H : len (of_list []) <= 176) by (vm_compute; discriminate).
  split; [exact H|].
  exact (parseMessage_short_buffer_panics (of_list []) H).
Defined.

(** An error that [parseMessage] returns. *)
Lemma parseMessage_error_inv (s : slice) (m : rawMessage) (e : error) :
  parseMessage s = Ok (m, Some e) ->
  m = zeroRaw /\ e = Errorf "truncated message"
  /\ exists peer msg pdu,
       parseMessage_pdu s = Ok (peer, msg, pdu) /\ 0 < len pdu < 72.
Proof.
  intros H. unfold parseMessage in H.
  destruct (parseMessage_pdu s) as [[[peer msg] pdu]|] eqn:Hp;
    cbn [bind] in H; [|discriminate H].
  destruct (Z.eqb_spec (len pdu) 0) as [H0|H0]; [discriminate H|].
  destruct (Z.ltb_spec (len pdu) 72) as [H72|H72].
  - injection H as <- <-. repeat split.
    exists peer, msg, pdu. split; [reflexivity|]. unfold len in *. lia.
  - unfold bind in H.
    destruct (slice_from pdu 65); [|discriminate H].
    destruct (index _ 5); [|discriminate H].
    destruct (slice_from _ 6); [|discriminate H].
    destruct (for_index _ _); discriminate H.
Qed.

(** X16.  [parseMessage] returns an error exactly when the scan for the
    peer name and the parsing of the TPDU return and between 1 and 71
    bytes remain after the TPDU; the error is "truncated message" and it
    comes with the zero message, never with a part of what was parsed.
    When they return and no byte remains, the message is returned with
    the peer, the TPDU and an empty text.  When one of them panics, so
    does the call: no error is returned for a peer name or a TPDU that
    cannot be read. *)
Theorem parseMessage_error_is_truncation (s : slice) :
  (forall m e,
      parseMessage s = Ok (m, Some e)
      <-> (m = zeroRaw /\ e = Errorf "truncated message"
           /\ exists peer msg pdu,
                parseMessage_pdu s = Ok (peer, msg, pdu) /\ 0 < len pdu < 72))
  /\ (forall peer msg pdu,
         parseMessage_pdu s = Ok (peer, msg, pdu) -> len pdu = 0 ->
         parseMessage s = Ok (mkRaw peer EmptyString msg, None))
  /\ (forall p, parseMessage_pdu s = Panic p -> parseMessage s = Panic p).
Proof.
  split; [|split].
  - intros m e. split; [apply parseMessage_error_inv|].
    intros (-> & -> & peer & msg & pdu & Hp & H).
    unfold parseMessage. rewrite Hp. cbn [bind].
    replace (len pdu =? 0) with false by (symmetry; apply Z.eqb_neq; lia).
    replace (len pdu <? 72) with true by (symmetry; apply Z.ltb_lt; lia).
    reflexivity.
  - intros peer msg pdu Hp H0. unfold parseMessage. rewrite Hp. cbn [bind].
    rewrite H0. reflexivity.
  - intros p Hp. unfold parseMessage. rewrite Hp. reflexivity.
Qed.

Lemma parseMessage_error_is_truncation_witness :
  parseMessage cut_file = Ok (zeroRaw, Some (Errorf "truncated message"))
  /\ exists peer msg pdu,
       parseMessage_pdu cut_file = Ok (peer, msg, pdu) /\ 0 < len pdu < 72.
Proof.
  assert (H : parseMessage cut_file = Ok (zeroRaw, Some (Errorf "truncated message")))
    by (vm_compute; reflexivity).
  split; [exact H|].
  exact (proj2 (proj2 (proj1 (proj1 (parseMessage_error_is_truncation cut_file) _ _) H))).
Defined.

(** X17.  For an SMS-SUBMIT or SMS-COMMAND file (low two bits of the
    octet at 0xb0 equal to 1 or 2) nothing of the TPDU is parsed: every
    message the call returns has the zero [deliverMessage].  When the
    scan for the peer name returns, what remains "after" the TPDU is the
    whole buffer from 0xb0 on, so that a file of fewer than 0xb0 + 72
    bytes is reported as truncated; when the scan panics, so does the
    call. *)
Theorem parseMessage_submit_or_command (s : slice) (b : Z)
  (Hb : nth_error (vis s) 176 = Some b)
  (H12 : Z.land b 3 = 1 \/ Z.land b 3 = 2) :
  (forall m err, parseMessage s = Ok (m, err) -> Msg m = zeroDeliver)
  /\ (forall runes,
         peer_loop (skipn 94 (vis s)) [] = Ok runes ->
         parseMessage_pdu s
         = Ok (string_of_runes (utf16_Decode runes), zeroDeliver,
               mkSlice (skipn 176 (vis s)) (spare s))
         /\ (len s < 176 + 72 ->
             parseMessage s = Ok (zeroRaw, Some (Errorf "truncated message"))))
  /\ (forall p,
         peer_loop (skipn 94 (vis s)) [] = Panic p -> parseMessage s = Panic p).
Proof.
  pose proof (nth_error_len _ _ _ Hb) as Hlen.
  assert (Hp : forall runes,
             peer_loop (skipn 94 (vis s)) [] = Ok runes ->
             parseMessage_pdu s
             = Ok (string_of_runes (utf16_Decode runes), zeroDeliver,
                   mkSlice (skipn 176 (vis s)) (spare s))).
  { intros runes Hpeer. unfold parseMessage_pdu.
    change (Z.to_nat 94) with 94%nat. rewrite Hpeer. cbn [bind].
    rewrite slice_from_ok by (unfold len; lia). cbn [bind].
    change (Z.to_nat 176) with 176%nat.
    rewrite (nth_error_skipn _ _ _ Hb).
    rewrite index_ok by (unfold len; cbn [vis List.length]; lia).
    cbn [bind vis nth Z.to_nat].
    destruct H12 as [-> | ->]; reflexivity. }
  assert (Hpanic : forall p,
             peer_loop (skipn 94 (vis s)) [] = Panic p -> parseMessage s = Panic p).
  { intros p Hpeer. unfold parseMessage, parseMessage_pdu.
    change (Z.to_nat 94) with 94%nat. rewrite Hpeer. reflexivity. }
  assert (Hl : len (mkSlice (skipn 176 (vis s)) (spare s)) = len s - 176).
  { unfold len. cbn [vis]. rewrite length_skipn. lia. }
  split; [|split; [|exact Hpanic]].
  - intros m err H.
    destruct (peer_loop (skipn 94 (vis s)) []) as [runes|p] eqn:Hpeer;
      [|rewrite (Hpanic p eq_refl) in H; discriminate H].
    unfold parseMessage in H. rewrite (Hp runes eq_refl) in H. cbn [bind] in H.
    destruct (_ =? 0); [injection H as <- _; reflexivity|].
    destruct (_ <? 72); [injection H as <- _; reflexivity|].
    unfold bind in H.
    destruct (slice_from _ 65); [|discriminate H].
    destruct (index _ 5); [|discriminate H].
    destruct (slice_from _ 6); [|discriminate H].
    destruct (for_index _ _); [|discriminate H].
    injection H as <- _. reflexivity.
  - intros runes Hpeer. split; [exact (Hp runes Hpeer)|].
    intros Hshort. unfold parseMessage. rewrite (Hp runes Hpeer). cbn [bind].
    rewrite Hl.
    replace (len s - 176 =? 0) with false
      by (symmetry; apply Z.eqb_neq; unfold len; lia).
    replace (len s - 176 <? 72) with true by (symmetry; apply Z.ltb_lt; lia).
    reflexivity.
Qed.

Lemma parseMessage_submit_or_command_witness :
  nth_error (vis submit_file) 176 = Some 0x01
  /\ (Z.land 0x01 3 = 1 \/ Z.land 0x01 3 = 2)
  /\ peer_loop (skipn 94 (vis submit_file)) [] = Ok []
  /\ parseMessage_pdu submit_file
     = Ok (string_of_runes (utf16_Decode []), zeroDeliver,
           mkSlice (skipn 176 (vis submit_file)) (spare submit_file)).
Proof.
  assert (H1 : nth_error (vis submit_file) 176 = Some 0x01) by reflexivity.
  assert (H2 : Z.land 0x01 3 = 1 \/ Z.land 0x01 3 = 2) by (left; reflexivity).
  assert (H3 : peer_loop (skipn 94 (vis submit_file)) [] = Ok []) by reflexivity.
  split; [exact H1|]. split; [exact H2|]. split; [exact H3|].
  exact (proj1 (proj1 (proj2 (parseMessage_submit_or_command submit_file 0x01 H1 H2))
                  [] H3)).
Defined.

Lemma be_bytes_nonzero (u : Z) :
  0 < u < 65536 -> Z.lor (u / 256) (u mod 256) <> 0.
Proof.
  intros Hu H. apply Z.lor_eq_0_iff in H. destruct H as [H1 H2].
  pose proof (Z.div_mod u 256 ltac:(lia)). lia.
Qed.

Lemma be16_be_bytes (u : Z) : 0 <= u < 65536 -> be16 (u / 256) (u mod 256) = u.
Proof.
  intros Hu.
  pose proof (Z.mod_pos_bound u 256 ltac:(lia)).
  assert (0 <= u / 256 < 256)
    by (split; [apply Z.div_pos | apply Z.div_lt_upper_bound]; lia).
  rewrite be16_bytes by (unfold is_byte; lia).
  pose proof (Z.div_mod u 256 ltac:(lia)). lia.
Qed.

(** The loop of [parseMessage] that reads the peer name: it takes code
    units up to the first pair of zero bytes, ... *)
Lemma peer_loop_units (units rest : list Z) :
  Forall (fun u => 0 < u < 65536) units ->
  forall acc,
  peer_loop (flat_map be_bytes units ++ 0 :: 0 :: rest) acc = Ok (acc ++ units).
Proof.
  induction 1 as [|u units Hu Hs IH]; intros acc.
  - cbn [flat_map app peer_loop]. cbn. now rewrite app_nil_r.
  - cbn [flat_map be_bytes app peer_loop].
    replace (Z.lor (u / 256) (u mod 256) =? 0) with false
      by (symmetry; apply Z.eqb_neq; now apply be_bytes_nonzero).
    cbn [negb]. rewrite IH, be16_be_bytes by lia.
    now rewrite <- app_assoc.
Qed.

(** ... and runs off the end of the buffer when there is none. *)
Lemma peer_loop_unterminated (units tail : list Z) :
  Forall (fun u => 0 < u < 65536) units ->
  (List.length tail <= 1)%nat ->
  forall acc,
  peer_loop (flat_map be_bytes units ++ tail) acc = Panic index_out_of_range.
Proof.
  intros Hu Ht. induction Hu as [|u units Hu Hs IH]; intros acc.
  - cbn [flat_map app]. destruct tail as [|a [|b tail]]; [reflexivity..|].
    simpl in Ht. lia.
  - cbn [flat_map be_bytes app peer_loop].
    replace (Z.lor (u / 256) (u mod 256) =? 0) with false
      by (symmetry; apply Z.eqb_neq; now apply be_bytes_nonzero).
    cbn [negb]. apply IH.
Qed.

Lemma utf16_units_nonzero (runes : list Z) :
  Forall scalar runes -> ~ In 0 runes ->
  Forall (fun u => 0 < u < 65536) (flat_map utf16_units runes).
Proof.
  induction 1 as [|r runes Hr Hs IH]; intros Hnz; [constructor|].
  cbn [flat_map]. apply Forall_app. split.
  - assert (r <> 0) by (intros ->; apply Hnz; now left).
    unfold utf16_units, scalar in *.
    destruct (Z.ltb_spec r 65536).
    + repeat constructor; lia.
    + pose proof (Z.mod_pos_bound (r - 65536) 1024 ltac:(lia)).
      assert (0 <= (r - 65536) / 1024 < 1024)
        by (split; [apply Z.div_pos | apply Z.div_lt_upper_bound]; lia).
      repeat constructor; lia.
  - apply IH. intros Hin. apply Hnz. now right.
Qed.

(** A message that [parseMessage] returns without an error has the peer
    name and the TPDU that [parseMessage_pdu] found. *)
Lemma parseMessage_returned (s : slice) (m : rawMessage) :
  parseMessage s = Ok (m, None) ->
  exists peer msg pdu,
    parseMessage_pdu s = Ok (peer, msg, pdu) /\ rawPeer m = peer /\ Msg m = msg.
Proof.
  intros H. unfold parseMessage in H.
  destruct (parseMessage_pdu s) as [[[peer msg] pdu]|] eqn:Hp;
    cbn [bind] in H; [|discriminate H].
  exists peer, msg, pdu. split; [reflexivity|].
  destruct (_ =? 0); [injection H as <-; now split|].
  destruct (_ <? 72); [discriminate H|].
  unfold bind in H.
  destruct (slice_from _ 65); [|discriminate H].
  destruct (index _ 5); [|discriminate H].
  destruct (slice_from _ 6); [|discriminate H].
  destruct (for_index _ _); [|discriminate H].
  injection H as <-. now split.
Qed.

(** X18.  The peer name is read from offset 0x5e as UTF-16 in big-endian
    order up to the first pair of zero bytes at an even distance,
    surrogate pairs included and whatever its length: for every sequence
    of scalar values other than U+0000 that is stored there, a message
    returned without an error has the UTF-8 string of the sequence as
    its [Peer].  A message returned with an error is the zero message:
    its [Peer] is empty, whatever name is stored. *)
Theorem parseMessage_peer_utf16be
  (s : slice) (pre runes rest : list Z)
  (Hr : Forall scalar runes)
  (Hnz : ~ In 0 runes)
  (Hpre : List.length pre = 94%nat)
  (Hvis : vis s = pre ++ utf16be runes ++ 0 :: 0 :: rest) :
  (forall peer msg pdu,
      parseMessage_pdu s = Ok (peer, msg, pdu) -> peer = string_of_runes runes)
  /\ (forall m, parseMessage s = Ok (m, None) -> rawPeer m = string_of_runes runes)
  /\ (forall m e, parseMessage s = Ok (m, Some e) -> rawPeer m = EmptyString).
Proof.
  assert (Hp : forall peer msg pdu,
             parseMessage_pdu s = Ok (peer, msg, pdu) -> peer = string_of_runes runes).
  { intros peer msg pdu H. unfold parseMessage_pdu in H.
    change (Z.to_nat 94) with 94%nat in H.
    rewrite Hvis, <- Hpre, skipn_length_app in H. unfold utf16be in H.
    rewrite peer_loop_units in H by now apply utf16_units_nonzero.
    cbn [app bind] in H. rewrite utf16_Decode_units in H by exact Hr.
    unfold bind in H.
    destruct (slice_from s 176); [|discriminate H].
    destruct (index _ 0); [|discriminate H].
    destruct (Z.land _ 3) as [|[[|[]|]|[]|]|];
      try discriminate H; try (injection H as <- _ _; reflexivity).
    all: destruct (parseDeliverMessage _) as [[? ?]|]; [|discriminate H].
    all: destruct (slice_from _ _); [|discriminate H].
    all: injection H as <- _ _; reflexivity. }
  split; [exact Hp|]. split.
  - intros m H. apply parseMessage_returned in H.
    destruct H as (peer & msg & pdu & H & <- & _). now apply (Hp _ msg pdu).
  - intros m e H. apply parseMessage_error_inv in H.
    destruct H as (-> & _). reflexivity.
Qed.

Lemma parseMessage_peer_utf16be_witness :
  Forall scalar [0x41; 0x1F600]
  /\ ~ In 0 [0x41; 0x1F600]
  /\ exists m,
       parseMessage (named_file [0x41; 0x1F600] [0x48; 0x1F600]) = Ok (m, None)
       /\ rawPeer m = string_of_runes [0x41; 0x1F600].
Proof.
  assert (Hr : Forall scalar [0x41; 0x1F600])
    by (repeat constructor; unfold scalar; lia).
  assert (Hnz : ~ In 0 [0x41; 0x1F600])
    by (cbn [In]; intros [H|[H|[]]]; discriminate H).
  split; [exact Hr|]. split; [exact Hnz|].
  destruct (parseMessage (named_file [0x41; 0x1F600] [0x48; 0x1F600]))
    as [[m [e|]]|p] eqn:H;
    [vm_compute in H; discriminate H | | vm_compute in H; discriminate H].
  exists m. split; [reflexivity|].
  assert (Hv : vis (named_file [0x41; 0x1F600] [0x48; 0x1F600])
               = repeat 0 94 ++ utf16be [0x41; 0x1F600] ++ 0 :: 0
                 :: (repeat 0 74 ++ hello_tpdu ++ repeat 0 70
                     ++ [Z.of_nat (List.length (utf16be [0x48; 0x1F600]))]
                     ++ utf16be [0x48; 0x1F600]))
    by reflexivity.
  exact (proj1 (proj2 (parseMessage_peer_utf16be
                  (named_file [0x41; 0x1F600] [0x48; 0x1F600])
                  (repeat 0 94) [0x41; 0x1F600] _ Hr Hnz eq_refl Hv)) m H).
Defined.

(** X19.  Nothing bounds the peer name: when no pair of zero bytes
    follows offset 0x5e at an even distance, the loop runs to the end of
    the buffer, through the TPDU and the text, and the call panics with
    an index out of range. *)
Theorem parseMessage_peer_unterminated
  (s : slice) (pre units tail : list Z)
  (Hu : Forall (fun u => 0 < u < 65536) units)
  (Ht : (List.length tail <= 1)%nat)
  (Hpre : List.length pre = 94%nat)
  (Hvis : vis s = pre ++ flat_map be_bytes units ++ tail) :
  parseMessage s = Panic index_out_of_range.
Proof.
  unfold parseMessage, parseMessage_pdu.
  change (Z.to_nat 94) with 94%nat.
  rewrite Hvis, <- Hpre, skipn_length_app.
  rewrite peer_loop_unterminated by assumption. reflexivity.
Qed.

Lemma parseMessage_peer_unterminated_witness :
  parseMessage (of_list (repeat 0 94 ++ flat_map be_bytes (repeat 0x41 100) ++ [0x41]))
  = Panic index_out_of_range.
Proof.
  refine (parseMessage_peer_unterminated
            (of_list (repeat 0 94 ++ flat_map be_bytes (repeat 0x41 100) ++ [0x41]))
            (repeat 0 94) (repeat 0x41 100) [0x41] _ _ eq_refl eq_refl).
  - apply Forall_forall. intros u Hin. apply repeat_spec in Hin. subst u. lia.
  - cbn [List.length]. lia.
Defined.

(** The text after the TPDU, when all of it is there. *)
Lemma parseMessage_text
  (s : slice) (peer : string) (msg : deliverMessage) (pdu : slice) :
  parseMessage_pdu s = Ok (peer, msg, pdu) ->
  72 <= len pdu ->
  bytes (vis pdu) ->
  71 + 2 * Z.quot (nth 70 (vis pdu) 0) 2 <= len pdu ->
  parseMessage s
  = Ok (mkRaw peer
          (string_of_runes
             (ucs2_units (Z.to_nat (Z.quot (nth 70 (vis pdu) 0) 2))
                (skipn 71 (vis pdu))))
          msg,
        None).
Proof.
  intros Hpdu H Hb Hlen. unfold parseMessage. rewrite Hpdu. cbn [bind].
  replace (len pdu =? 0) with false by (symmetry; apply Z.eqb_neq; lia).
  replace (len pdu <? 72) with false by (symmetry; apply Z.ltb_ge; lia).
  rewrite slice_from_ok by lia. cbn [bind].
  change (Z.to_nat 65) with 65%nat.
  assert (Hl65 : List.length (skipn 65 (vis pdu)) = (List.length (vis pdu) - 65)%nat)
    by apply length_skipn.
  rewrite index_ok by (unfold len in *; cbn [vis]; lia).
  cbn [bind vis]. change (Z.to_nat 5) with 5%nat.
  rewrite nth_skipn_add. cbn [Nat.add].
  set (length := nth 70 (vis pdu) 0) in *.
  rewrite slice_from_ok by (unfold len in *; cbn [vis]; lia).
  cbn [bind vis spare]. change (Z.to_nat 6) with 6%nat.
  rewrite skipn_skipn. cbn [Nat.add].
  assert (Hlb : 0 <= length).
  { unfold length. unfold len in H.
    assert (Hin : In (nth 70 (vis pdu) 0) (vis pdu)) by (apply nth_In; lia).
    apply (proj1 (Forall_forall _ _) Hb) in Hin. unfold is_byte in Hin. lia. }
  assert (Hq : 0 <= Z.quot length 2) by (apply Z.quot_pos; lia).
  rewrite (text_loop (skipn 71 (vis pdu)) (spare pdu)
             (Z.to_nat (Z.quot length 2)) 0).
  - reflexivity.
  - now apply Forall_skipn.
  - rewrite length_skipn. unfold len in *. lia.
Qed.

Lemma utf8_encode_surrogate (r : Z) :
  0xD800 <= r <= 0xDFFF -> utf8_encode r = [0xEF; 0xBF; 0xBD].
Proof.
  intros Hr. unfold utf8_encode.
  replace ((0xD800 <=? r) && (r <=? 0xDFFF)) with true
    by (symmetry; apply andb_true_iff; split; apply Z.leb_le; lia).
  now rewrite orb_true_r.
Qed.

(** In UTF-8 the two halves of a surrogate pair, each taken as a rune,
    are two replacement characters. *)
Lemma utf8_units_replaced (runes : list Z) :
  Forall scalar runes ->
  flat_map utf8_encode (flat_map utf16_units runes)
  = flat_map utf8_encode (flat_map bmp_or_replacement runes).
Proof.
  induction 1 as [|r runes Hr Hs IH]; [reflexivity|].
  cbn [flat_map]. rewrite !flat_map_app, IH. f_equal.
  unfold utf16_units, bmp_or_replacement, scalar in *.
  destruct (Z.ltb_spec r 65536); [reflexivity|].
  pose proof (Z.mod_pos_bound (r - 65536) 1024 ltac:(lia)).
  assert (0 <= (r - 65536) / 1024 < 1024)
    by (split; [apply Z.div_pos | apply Z.div_lt_upper_bound]; lia).
  cbn [flat_map app].
  rewrite !utf8_encode_surrogate by lia. reflexivity.
Qed.

(** X20.  [Text] is read as big-endian 16-bit code units, each of which
    becomes a rune of its own: a text stored in UTF-16BE comes back as
    its UTF-8 string where it lies in the basic plane, and with two
    replacement characters U+FFFD for every character above it, since
    unlike the peer name and [UserData] the text is not passed through
    [utf16.Decode]. *)
Theorem parseMessage_Text_code_units
  (s : slice) (peer : string) (msg : deliverMessage) (pdu : slice)
  (skip runes rest : list Z) (length : Z)
  (Hpdu : parseMessage_pdu s = Ok (peer, msg, pdu))
  (Hb : bytes (vis pdu))
  (Hr : Forall scalar runes)
  (Hskip : List.length skip = 70%nat)
  (Hvis : vis pdu = skip ++ length :: utf16be runes ++ rest)
  (Hlen : Z.quot length 2 = Z.of_nat (List.length (flat_map utf16_units runes)))
  (H72 : 72 <= len pdu) :
  parseMessage s
  = Ok (mkRaw peer (string_of_runes (flat_map bmp_or_replacement runes)) msg, None).
Proof.
  pose proof (utf16_units_range runes Hr) as Hu.
  assert (Hn : nth 70 (vis pdu) 0 = length).
  { rewrite Hvis, app_nth2 by lia. rewrite Hskip. reflexivity. }
  assert (Hs : skipn 71 (vis pdu) = utf16be runes ++ rest).
  { rewrite Hvis.
    change (skip ++ length :: utf16be runes ++ rest)
      with (skip ++ [length] ++ utf16be runes ++ rest).
    rewrite app_assoc.
    replace 71%nat with (List.length (skip ++ [length]))
      by (rewrite length_app, Hskip; reflexivity).
    apply skipn_length_app. }
  rewrite (parseMessage_text s peer msg pdu Hpdu H72 Hb).
  - rewrite Hn, Hs, Hlen, Nat2Z.id. unfold utf16be.
    rewrite ucs2_units_be_bytes by exact Hu.
    unfold string_of_runes. now rewrite utf8_units_replaced.
  - rewrite Hn, Hlen. unfold len. rewrite Hvis.
    rewrite length_app, Hskip. cbn [List.length]. rewrite length_app.
    unfold utf16be. rewrite length_be_bytes. lia.
Qed.

Lemma parseMessage_Text_code_units_witness :
  exists peer msg pdu,
    parseMessage_pdu (named_file [0x41; 0x1F600] [0x48; 0x1F600]) = Ok (peer, msg, pdu)
    /\ parseMessage (named_file [0x41; 0x1F600] [0x48; 0x1F600])
       = Ok (mkRaw peer
               (string_of_runes (flat_map bmp_or_replacement [0x48; 0x1F600])) msg,
             None).
Proof.
  exists (string_of_runes [0x41; 0x1F600]), hello_msg,
    (of_list (repeat 0 70 ++ [6] ++ utf16be [0x48; 0x1F600])).
  assert (Hpdu : parseMessage_pdu (named_file [0x41; 0x1F600] [0x48; 0x1F600])
                 = Ok (string_of_runes [0x41; 0x1F600], hello_msg,
                       of_list (repeat 0 70 ++ [6] ++ utf16be [0x48; 0x1F600])))
    by (vm_compute; reflexivity).
  split; [exact Hpdu|].
  refine (parseMessage_Text_code_units _ _ _ _ (repeat 0 70) [0x48; 0x1F600] [] 6
            Hpdu _ _ eq_refl eq_refl eq_refl _).
  - vm_compute. repeat constructor; intros H; discriminate H.
  - repeat constructor; unfold scalar; lia.
  - vm_compute. discriminate.
Defined.

(* ===================================================================== *)
(** ** Further properties: file names                                     *)
(* ===================================================================== *)

Lemma bytes_check (P : Z -> bool) :
  forallb P byte_values = true -> forall b, is_byte b -> P b = true.
Proof.
  intros H b Hb. rewrite forallb_forall in H. apply H.
  unfold byte_values. replace b with (Z.of_nat (Z.to_nat b)) by (unfold is_byte in Hb; lia).
  apply in_map. apply in_seq. unfold is_byte in Hb. lia.
Qed.

(** In base 16 the digits that [strconv.ParseUint] accepts are the
    hexadecimal digits in either case. *)
Lemma digit_val_hex (c : Z) : is_byte c -> hex_digit_of_val c = hex_digit c.
Proof.
  intros Hc.
  pose proof (bytes_check (fun c => option_Z_eqb (hex_digit_of_val c) (hex_digit c))
                ltac:(vm_compute; reflexivity) c Hc) as H.
  cbv beta in H. unfold option_Z_eqb in H.
  destruct (hex_digit_of_val c), (hex_digit c); try discriminate H; [|reflexivity].
  apply Z.eqb_eq in H. now subst.
Qed.

Lemma hex_digit_range (c d : Z) : hex_digit c = Some d -> 0 <= d < 16.
Proof.
  unfold hex_digit. intros H.
  destruct (Z.leb_spec 48 c), (Z.leb_spec c 57); cbn [andb] in H;
    try (injection H as <-; lia).
  all: destruct (Z.leb_spec 97 c), (Z.leb_spec c 102); cbn [andb] in H;
    try (injection H as <-; lia).
  all: destruct (Z.leb_spec 65 c), (Z.leb_spec c 70); cbn [andb] in H;
    try (injection H as <-; lia).
  all: discriminate H.
Qed.

Lemma pow16_succ (m : nat) : 16 ^ Z.of_nat (S m) = 16 * 16 ^ Z.of_nat m.
Proof. rewrite Nat2Z.inj_succ, Z.pow_succ_r by lia. reflexivity. Qed.

Lemma pow16_pos (m : nat) : 1 <= 16 ^ Z.of_nat m.
Proof. pose proof (Z.pow_pos_nonneg 16 (Z.of_nat m)). lia. Qed.

Lemma hex_from_bound (cs : list Z) :
  forall n v,
    0 <= n -> (n + 1) * 16 ^ Z.of_nat (List.length cs) <= 2 ^ 32 ->
    hex_from cs n = Some v -> 0 <= v < 2 ^ 32.
Proof.
  induction cs as [|c cs IH]; intros n v Hn Hb H.
  - cbn [hex_from] in H. injection H as <-.
    cbn [List.length] in Hb. change (16 ^ Z.of_nat 0) with 1 in Hb. lia.
  - cbn [hex_from] in H. destruct (hex_digit c) as [d|] eqn:Hd; [|discriminate H].
    apply hex_digit_range in Hd.
    cbn [List.length] in Hb. rewrite pow16_succ in Hb.
    pose proof (pow16_pos (List.length cs)).
    apply (IH (16 * n + d) v); [lia | nia | exact H].
Qed.

(** The loop of [strconv.ParseUint] on at most eight characters in base
    16 with 32 bits: neither of its range checks fires. *)
Lemma ParseUint_loop_hex (cutoff maxVal : Z) (cs : list Z) :
  2 ^ 32 <= cutoff -> maxVal = 2 ^ 32 - 1 ->
  bytes cs ->
  forall n,
    0 <= n -> (n + 1) * 16 ^ Z.of_nat (List.length cs) <= 2 ^ 32 ->
    ParseUint_loop cs 16 cutoff maxVal n
    = match hex_from cs n with
      | Some v => (v, None)
      | None => (0, Some ErrSyntax)
      end.
Proof.
  intros Hcut Hmax Hb. induction Hb as [|c cs Hc Hb IH]; intros n Hn Hinv;
    [reflexivity|].
  cbn [ParseUint_loop hex_from].
  pose proof (digit_val_hex c Hc) as Hdv. unfold hex_digit_of_val in Hdv.
  destruct (digit_val c) as [d|].
  - destruct (d >=? 16) eqn:Hd16; rewrite <- Hdv; [reflexivity|].
    symmetry in Hdv. apply hex_digit_range in Hdv.
    cbn [List.length] in Hinv. rewrite pow16_succ in Hinv.
    pose proof (pow16_pos (List.length cs)) as Hp.
    assert (E32 : 2 ^ 32 = 4294967296) by reflexivity.
    assert (E64 : 2 ^ 64 = 18446744073709551616) by reflexivity.
    rewrite E32 in *.
    assert (Hn16 : 16 * n + d < 4294967296) by nia.
    replace (n >=? cutoff) with false
      by (symmetry; rewrite Z.geb_leb; apply Z.leb_gt; lia).
    rewrite (Z.mod_small (n * 16)) by lia.
    rewrite (Z.mod_small (n * 16 + d)) by lia.
    replace (n * 16 + d <? n * 16) with false by (symmetry; apply Z.ltb_ge; lia).
    replace (maxVal <? n * 16 + d) with false by (symmetry; apply Z.ltb_ge; lia).
    cbn [orb]. replace (n * 16 + d) with (16 * n + d) by lia.
    apply IH; [lia | nia].
  - now rewrite <- Hdv.
Qed.

Lemma length_stake (n : nat) (s : string) :
  Z.of_nat n <= slen s -> String.length (stake n s) = n.
Proof.
  unfold slen. revert s. induction n as [|n IH]; intros s H; [reflexivity|].
  destruct s as [|c s]; cbn [stake String.length] in *; [lia|].
  rewrite IH by lia. reflexivity.
Qed.

Lemma length_bytes_of_string (s : string) :
  List.length (bytes_of_string s) = String.length s.
Proof. induction s as [|c s IH]; cbn [bytes_of_string List.length String.length]; lia. Qed.

Lemma bytes_of_string_bytes (s : string) : bytes (bytes_of_string s).
Proof.
  induction s as [|c s IH]; constructor; [|exact IH].
  unfold is_byte, byte_of_ascii. pose proof (N_ascii_bounded c). lia.
Qed.

Lemma ParseUint_hex (f : string) :
  String.length f = 8%nat ->
  ParseUint f 16 32
  = match hex_value f with
    | Some v => (v, None)
    | None => (0, Some (NumError "ParseUint" f ErrSyntax))
    end.
Proof.
  intros Hf. unfold ParseUint, hex_value.
  destruct f as [|c f]; [discriminate Hf|].
  rewrite ParseUint_loop_hex.
  - now destruct (hex_from _ 0).
  - vm_compute. discriminate.
  - reflexivity.
  - apply bytes_of_string_bytes.
  - lia.
  - rewrite length_bytes_of_string, Hf. vm_compute. discriminate.
Qed.

Lemma hex_value_range (f : string) (v : Z) :
  String.length f = 8%nat -> hex_value f = Some v -> 0 <= v < 2 ^ 32.
Proof.
  intros Hf. unfold hex_value. apply hex_from_bound; [lia|].
  rewrite length_bytes_of_string, Hf. vm_compute. discriminate.
Qed.

(** X21.  [getUint32] reads the first eight characters as a hexadecimal
    number in either case and hands the rest on.  It never reports a
    range error: when one of the eight characters is no hexadecimal
    digit it returns the number 0 with a syntax error that names the
    eight characters, and otherwise their value, which is below 2^32,
    unchanged. *)
Theorem getUint32_hex (s : string) (H : 8 <= slen s) :
  getUint32 s
  = Ok (sdrop 8 s,
        match hex_value (stake 8 s) with Some v => v | None => 0 end,
        match hex_value (stake 8 s) with
        | Some _ => None
        | None => Some (NumError "ParseUint" (stake 8 s) ErrSyntax)
        end)
  /\ (forall v, hex_value (stake 8 s) = Some v -> 0 <= v < 2 ^ 32).
Proof.
  assert (Hl : String.length (stake 8 s) = 8%nat) by (apply length_stake; lia).
  split; [|intros v; now apply hex_value_range].
  rewrite getUint32_long by exact H. rewrite ParseUint_hex by exact Hl.
  destruct (hex_value (stake 8 s)) as [v|] eqn:Hv; cbn [fst snd]; [|reflexivity].
  apply hex_value_range in Hv; [|exact Hl].
  unfold uint32. rewrite Z.mod_small by lia. reflexivity.
Qed.

Lemma getUint32_hex_witness :
  8 <= slen "3cEaC36400B72010"
  /\ getUint32 "3cEaC36400B72010" = Ok ("00B72010"%string, 0x3CEAC364, None).
Proof.
  assert (H : 8 <= slen "3cEaC36400B72010") by (vm_compute; discriminate).
  split; [exact H|].
  exact (proj1 (getUint32_hex "3cEaC36400B72010" H)).
Defined.

Lemma getUint32_value (s : string) (v : Z) :
  8 <= slen s -> hex_value (stake 8 s) = Some v ->
  getUint32 s = Ok (sdrop 8 s, v, None).
Proof.
  intros H Hv.
  assert (Hl : String.length (stake 8 s) = 8%nat) by (apply length_stake; lia).
  rewrite getUint32_long by exact H. rewrite ParseUint_hex by exact Hl.
  rewrite Hv. cbn [fst snd].
  apply hex_value_range in Hv; [|exact Hl].
  unfold uint32. rewrite Z.mod_small by lia. reflexivity.
Qed.

Lemma getUint32_syntax (s : string) :
  8 <= slen s -> hex_value (stake 8 s) = None ->
  getUint32 s = Ok (sdrop 8 s, 0, Some (NumError "ParseUint" (stake 8 s) ErrSyntax)).
Proof.
  intros H Hv.
  assert (Hl : String.length (stake 8 s) = 8%nat) by (apply length_stake; lia).
  rewrite getUint32_long by exact H. rewrite ParseUint_hex by exact Hl.
  rewrite Hv. reflexivity.
Qed.

Lemma getUint32_inv (s rest : string) (n : Z) (err : option error) :
  getUint32 s = Ok (rest, n, err) ->
  8 <= slen s /\ rest = sdrop 8 s
  /\ match err with
     | None => hex_value (stake 8 s) = Some n
     | Some e => hex_value (stake 8 s) = None /\ n = 0
                 /\ e = NumError "ParseUint" (stake 8 s) ErrSyntax
     end.
Proof.
  intros H.
  destruct (Z.ltb_spec (slen s) 8) as [H8|H8];
    [rewrite getUint32_short in H by lia; discriminate H|].
  split; [exact H8|].
  destruct (hex_value (stake 8 s)) as [v|] eqn:Hv.
  - rewrite (getUint32_value s v H8 Hv) in H. injection H as <- <- <-. now split.
  - rewrite (getUint32_syntax s H8 Hv) in H. injection H as <- <- <-. now repeat split.
Qed.

Lemma bytes_of_string_sdrop (n : nat) (s : string) :
  bytes_of_string (sdrop n s) = skipn n (bytes_of_string s).
Proof.
  revert s. induction n as [|n IH]; intros s; [reflexivity|].
  destruct s as [|c s]; cbn [sdrop bytes_of_string skipn]; [reflexivity | apply IH].
Qed.

Lemma shifted_fields (n : Z) :
  0 <= n < 2 ^ 32 ->
  uint16 (Z.shiftr n 16) = n / 65536 /\ uint16 n = n mod 65536
  /\ uint8 (Z.shiftr n 12) = (n / 4096) mod 256
  /\ uint8 (Z.shiftr n 20) = (n / 1048576) mod 256.
Proof.
  intros Hn. unfold uint16, uint8.
  rewrite !Z.shiftr_div_pow2 by lia.
  change (2 ^ 16) with 65536. change (2 ^ 8) with 256.
  change (2 ^ 12) with 4096. change (2 ^ 20) with 1048576.
  change (2 ^ 32) with 4294967296 in Hn.
  repeat split. apply Z.mod_small.
  split; [apply Z.div_pos | apply Z.div_lt_upper_bound]; lia.
Qed.

(** One step of [ParseFilename]: the branch taken and the fields stored
    so far, on a receiver given by its fields. *)
Ltac step_fields :=
  cbv beta iota zeta
      delta [set_Seq set_Timestamp set_MultipartSeq set_Flags set_PartNo
             set_PartTotal set_Peer set_Pad
             Date Seq Timestamp MultipartSeq Flags PartNo PartTotal Peer Pad].

(** X22.  A name of at least 77 characters whose four hex fields parse
    fills the receiver: [Seq] and [Timestamp] are the fields at offsets 0
    and 8, [MultipartSeq] and [Flags] the high and the low half of the
    field at 16, [PartNo] and [PartTotal] bits 12..19 and 20..27 of the
    field at 32, [Peer] the twelve characters from offset 65; [Date] is
    left alone and the characters at 24..31, 40..64 and 77..83 are not
    looked at.  With 85 characters or more the character at offset 84
    becomes [Pad] and the call returns nil; with fewer it panics, after
    the other fields have been stored. *)
Theorem ParseFilename_fields (msg : Message) (s : string) (a b c d : Z)
  (Hlen : 77 <= slen s)
  (HP : List.length (Peer msg) = 12%nat)
  (Ha : hex_value (hex_field s 0) = Some a)
  (Hb : hex_value (hex_field s 8) = Some b)
  (Hc : hex_value (hex_field s 16) = Some c)
  (Hd : hex_value (hex_field s 32) = Some d) :
  ParseFilename msg s
  = if slen s <? 85
    then (filled msg s a b c d, Panic index_out_of_range)
    else (set_Pad (filled msg s a b c d) (nth 84 (bytes_of_string s) 0), Ok None).
Proof.
  unfold hex_field in *. change (sdrop 0 s) with s in Ha.
  assert (Hcr : 0 <= c < 2 ^ 32).
  { apply (hex_value_range _ _ (length_stake 8 (sdrop 16 s)
             ltac:(rewrite slen_sdrop; lia)) Hc). }
  assert (Hdr : 0 <= d < 2 ^ 32).
  { apply (hex_value_range _ _ (length_stake 8 (sdrop 32 s)
             ltac:(rewrite slen_sdrop; lia)) Hd). }
  destruct (shifted_fields c Hcr) as (Ec1 & Ec2 & _).
  destruct (shifted_fields d Hdr) as (_ & _ & Ed1 & Ed2).
  assert (Hsrc : List.length (bytes_of_string (stake 12 (sdrop 65 s))) = 12%nat).
  { rewrite length_bytes_of_string. apply length_stake. rewrite slen_sdrop; lia. }
  destruct msg as [dt sq ts ms fl pn pt pe pa]. cbn [Peer] in HP.
  assert (Hcopy : copy pe (bytes_of_string (stake 12 (sdrop 65 s)))
                  = bytes_of_string (stake 12 (sdrop 65 s))).
  { unfold copy. rewrite HP, Hsrc.
    rewrite firstn_all2 by lia. rewrite skipn_all2 by lia. apply app_nil_r. }
  unfold ParseFilename, len_Peer, filled.
  rewrite (getUint32_value s a) by (lia || exact Ha). step_fields.
  rewrite (getUint32_value (sdrop 8 s) b) by ((rewrite slen_sdrop; lia) || exact Hb).
  step_fields. rewrite sdrop_sdrop. cbn [Nat.add].
  rewrite (getUint32_value (sdrop 16 s) c) by ((rewrite slen_sdrop; lia) || exact Hc).
  step_fields. rewrite sdrop_sdrop. cbn [Nat.add].
  rewrite str_from_ok by (rewrite slen_sdrop; lia). step_fields.
  change (Z.to_nat 8) with 8%nat. rewrite sdrop_sdrop. cbn [Nat.add].
  rewrite (getUint32_value (sdrop 32 s) d) by ((rewrite slen_sdrop; lia) || exact Hd).
  step_fields. rewrite sdrop_sdrop. cbn [Nat.add].
  rewrite str_from_ok by (rewrite slen_sdrop; lia). step_fields.
  change (Z.to_nat 25) with 25%nat. rewrite sdrop_sdrop. cbn [Nat.add].
  rewrite str_to_ok by (rewrite slen_sdrop; lia). step_fields.
  rewrite str_from_ok by (rewrite slen_sdrop; lia). step_fields.
  change (Z.to_nat 12) with 12%nat. rewrite sdrop_sdrop. cbn [Nat.add].
  rewrite Hcopy, Ec1, Ec2, Ed1, Ed2.
  destruct (Z.ltb_spec (slen s) 85) as [H85|H85].
  - rewrite str_index_panics by (rewrite slen_sdrop; lia). reflexivity.
  - unfold str_index.
    replace ((0 <=? 7) && (7 <? slen (sdrop 77 s))) with true
      by (symmetry; apply andb_true_iff; split;
          [reflexivity | apply Z.ltb_lt; rewrite slen_sdrop; lia]).
    rewrite bytes_of_string_sdrop, nth_skipn_add.
    change (77 + Z.to_nat 7)%nat with 84%nat.
    assert (Hpad : is_byte (nth 84 (bytes_of_string s) 0)).
    { apply (proj1 (Forall_forall _ _) (bytes_of_string_bytes s)).
      apply nth_In. rewrite length_bytes_of_string. unfold slen in H85. lia. }
    unfold uint8. change (2 ^ 8) with 256.
    rewrite (Z.mod_small (nth 84 (bytes_of_string s) 0) 256) by exact Hpad.
    reflexivity.
Qed.

Lemma ParseFilename_fields_witness :
  ParseFilename zeroMessage comment_filename
  = (if slen comment_filename <? 85
     then (filled zeroMessage comment_filename 0x1DFC 0x3CEAC364 0x00B72010 0x00302000,
           Panic index_out_of_range)
     else (set_Pad (filled zeroMessage comment_filename
                      0x1DFC 0x3CEAC364 0x00B72010 0x00302000)
             (nth 84 (bytes_of_string comment_filename) 0),
           Ok None)).
Proof.
  refine (ParseFilename_fields zeroMessage comment_filename
            0x1DFC 0x3CEAC364 0x00B72010 0x00302000 _ eq_refl _ _ _ _).
  - vm_compute. discriminate.
  - vm_compute. reflexivity.
  - vm_compute. reflexivity.
  - vm_compute. reflexivity.
  - vm_compute. reflexivity.
Defined.

Lemma str_from_inv (s r : string) (lo : Z) :
  str_from s lo = Ok r -> r = sdrop (Z.to_nat lo) s.
Proof.
  unfold str_from. destruct (_ && _); [|discriminate]. intros H. now injection H.
Qed.

Lemma hex_or_0_some (f : string) (v : Z) : hex_value f = Some v -> hex_or_0 f = v.
Proof. unfold hex_or_0. now intros ->. Qed.

Lemma hex_or_0_none (f : string) : hex_value f = None -> hex_or_0 f = 0.
Proof. unfold hex_or_0. now intros ->. Qed.

Ltac earlier_fields :=
  let off' := fresh "off" in
  let Hin := fresh "Hin" in
  let Hlt := fresh "Hlt" in
  unfold hex_offsets; cbn [In]; intros off' Hin Hlt;
  repeat (destruct Hin as [<-|Hin]; [first [lia | congruence]|]);
  destruct Hin.

(** X23.  The only errors [ParseFilename] returns are syntax errors of
    [strconv.ParseUint] that name the first of the four hex fields that
    is no hexadecimal number.  The receiver is changed all the same: a
    malformed first or second field overwrites [Seq] or [Timestamp] with
    0, the fields before it have their new values, and [MultipartSeq],
    [Flags], [PartNo] and [PartTotal] keep their old values when their
    own field is malformed. *)
Theorem ParseFilename_error_is_syntax (msg : Message) (s : string) (e : error)
  (H : snd (ParseFilename msg s) = Ok (Some e)) :
  exists off,
    In off hex_offsets
    /\ hex_value (hex_field s off) = None
    /\ (forall off', In off' hex_offsets -> (off' < off)%nat ->
        hex_value (hex_field s off') <> None)
    /\ e = NumError "ParseUint" (hex_field s off) ErrSyntax
    /\ fst (ParseFilename msg s) = failed_at msg s off.
Proof.
  unfold ParseFilename in H |- *.
  destruct (getUint32 s) as [[[s1 n1] err1]|p] eqn:E1; [|discriminate H].
  apply getUint32_inv in E1. destruct E1 as (L1 & -> & E1).
  change (stake 8 s) with (hex_field s 0) in E1.
  destruct err1 as [e1|].
  { destruct E1 as (E1 & -> & ->). cbn [fst snd] in H |- *. injection H as <-.
    exists 0%nat. repeat split; try assumption; try (now left).
    - earlier_fields.
    - unfold failed_at. cbn [Nat.eqb]. now rewrite hex_or_0_none. }
  destruct (getUint32 (sdrop 8 s)) as [[[s2 n2] err2]|p] eqn:E2; [|discriminate H].
  apply getUint32_inv in E2. destruct E2 as (L2 & -> & E2).
  change (stake 8 (sdrop 8 s)) with (hex_field s 8) in E2.
  rewrite sdrop_sdrop in *. cbn [Nat.add] in *.
  destruct err2 as [e2|].
  { destruct E2 as (E2 & -> & ->). cbn [fst snd] in H |- *. injection H as <-.
    exists 8%nat. repeat split; try assumption; try (right; now left).
    - earlier_fields.
    - unfold failed_at. cbn [Nat.eqb Nat.leb].
      now rewrite (hex_or_0_some _ _ E1), hex_or_0_none. }
  destruct (getUint32 (sdrop 16 s)) as [[[s3 n3] err3]|p] eqn:E3; [|discriminate H].
  apply getUint32_inv in E3. destruct E3 as (L3 & -> & E3).
  change (stake 8 (sdrop 16 s)) with (hex_field s 16) in E3.
  rewrite sdrop_sdrop in *. cbn [Nat.add] in *.
  destruct err3 as [e3|].
  { destruct E3 as (E3 & -> & ->). cbn [fst snd] in H |- *. injection H as <-.
    exists 16%nat. repeat split; try assumption; try (right; right; now left).
    - earlier_fields.
    - unfold failed_at. cbn [Nat.eqb Nat.leb].
      now rewrite (hex_or_0_some _ _ E1), (hex_or_0_some _ _ E2). }
  destruct (str_from (sdrop 24 s) 8) as [s4|p] eqn:E4; [|discriminate H].
  apply str_from_inv in E4. subst s4. change (Z.to_nat 8) with 8%nat in *.
  rewrite sdrop_sdrop in *. cbn [Nat.add] in *.
  destruct (getUint32 (sdrop 32 s)) as [[[s5 n5] err5]|p] eqn:E5; [|discriminate H].
  apply getUint32_inv in E5. destruct E5 as (L5 & -> & E5).
  change (stake 8 (sdrop 32 s)) with (hex_field s 32) in E5.
  destruct err5 as [e5|].
  { destruct E5 as (E5 & -> & ->). cbn [fst snd] in H |- *. injection H as <-.
    exists 32%nat. repeat split; try assumption; try (right; right; right; now left).
    - earlier_fields.
    - unfold failed_at. cbn [Nat.eqb Nat.leb].
      rewrite (hex_or_0_some _ _ E1), (hex_or_0_some _ _ E2), (hex_or_0_some _ _ E3).
      assert (Hr : 0 <= n3 < 2 ^ 32).
      { apply (hex_value_range _ _ (length_stake 8 (sdrop 16 s)
                 ltac:(lia)) E3). }
      destruct (shifted_fields n3 Hr) as (-> & -> & _). reflexivity. }
  exfalso.
  destruct (str_from _ 25); [|discriminate H].
  destruct (str_to _ len_Peer); [|discriminate H].
  destruct (str_from _ len_Peer); [|discriminate H].
  destruct (str_index _ 7); discriminate H.
Qed.

Lemma ParseFilename_error_is_syntax_witness :
  exists off,
    In off hex_offsets
    /\ hex_value (hex_field "00001DFC3CEAC3G400B720100050" off) = None
    /\ (forall off', In off' hex_offsets -> (off' < off)%nat ->
        hex_value (hex_field "00001DFC3CEAC3G400B720100050" off') <> None)
    /\ NumError "ParseUint" "3CEAC3G4" ErrSyntax
       = NumError "ParseUint" (hex_field "00001DFC3CEAC3G400B720100050" off) ErrSyntax
    /\ fst (ParseFilename zeroMessage "00001DFC3CEAC3G400B720100050")
       = failed_at zeroMessage "00001DFC3CEAC3G400B720100050" off.
Proof.
  apply (ParseFilename_error_is_syntax zeroMessage "00001DFC3CEAC3G400B720100050").
  vm_compute. reflexivity.
Defined.

(* ===================================================================== *)
(** ** Further properties: a TPDU cut short                               *)
(* ===================================================================== *)

Lemma index_inv (s : slice) (i v : Z) :
  index s i = Ok v -> 0 <= i < len s /\ v = nth (Z.to_nat i) (vis s) 0.
Proof.
  unfold index.
  destruct (Z.leb_spec 0 i), (Z.ltb_spec i (len s)); cbn [andb];
    intros Hx; try discriminate Hx.
  injection Hx as <-. split; [lia | reflexivity].
Qed.

Lemma slice_from_inv (s r : slice) (lo : Z) :
  slice_from s lo = Ok r ->
  0 <= lo <= len s /\ r = mkSlice (skipn (Z.to_nat lo) (vis s)) (spare s).
Proof.
  unfold slice_from.
  destruct (Z.leb_spec 0 lo), (Z.leb_spec lo (len s)); cbn [andb];
    intros Hx; try discriminate Hx.
  injection Hx as <-. split; [lia | reflexivity].
Qed.

Lemma slice_range_inv (s r : slice) (lo hi : Z) :
  slice_range s lo hi = Ok r -> 0 <= lo <= hi /\ hi <= cap s.
Proof.
  unfold slice_range.
  destruct (Z.leb_spec 0 lo), (Z.leb_spec lo hi), (Z.leb_spec hi (cap s));
    cbn [andb]; intros Hx; try discriminate Hx.
  lia.
Qed.

Lemma payload_size (msg msg' : deliverMessage) (size size' : Z) (p : slice) :
  parseDeliverMessage_payload msg size p = Ok (msg', size') ->
  0 < len p /\ size + 1 <= size'.
Proof.
  unfold parseDeliverMessage_payload. intros H.
  destruct (Unicode msg); unfold bind in H.
  - destruct (index p 0) as [length|] eqn:E0; [|discriminate H].
    apply index_inv in E0.
    destruct (slice_range p 1 _) eqn:E1; [|discriminate H].
    apply slice_range_inv in E1.
    destruct (slice_from p 1); [|discriminate H].
    apply concat_keeps_header in H. lia.
  - destruct (index p 0) as [length|] eqn:E0; [|discriminate H].
    apply index_inv in E0.
    destruct (slice_range p 1 _) eqn:E1; [|discriminate H].
    apply slice_range_inv in E1.
    destruct (slice_to _ _); [|discriminate H].
    destruct (slice_from p 1); [|discriminate H].
    apply concat_keeps_header in H. lia.
Qed.

(** X24.  [parseDeliverMessage] reports nothing about a TPDU that is cut
    short: it returns only when the buffer holds the three leading
    octets, the address octets that the second octet announces, the
    protocol identifier, the data coding scheme, the seven octets of the
    time stamp and the length octet of the user data, 13 octets and the
    address in all; on anything shorter, the empty buffer included, it
    panics.  The size it returns covers at least that header. *)
Theorem parseDeliverMessage_needs_header
  (s : slice) (msg : deliverMessage) (size : Z)
  (H : parseDeliverMessage s = Ok (msg, size)) :
  0 <= addr_octets s
  /\ 13 + addr_octets s <= len s
  /\ 13 + addr_octets s <= size.
Proof.
  unfold parseDeliverMessage, bind in H. unfold addr_octets.
  destruct (index s 0); [|discriminate H].
  destruct (index s 1) as [nbLen|] eqn:E1; [|discriminate H].
  apply index_inv in E1. destruct E1 as (_ & E1).
  change (Z.to_nat 1) with 1%nat in E1. rewrite <- E1.
  destruct (slice_range s 3 _) eqn:E2; [|discriminate H].
  apply slice_range_inv in E2.
  destruct (slice_from s _) as [p|] eqn:E3; [|discriminate H].
  destruct (index p 1); [|discriminate H].
  destruct (slice_range p 2 9); [|discriminate H].
  destruct (parseDateTime _); [|discriminate H].
  destruct (slice_from s (0 + _ + _)) as [p2|] eqn:E4; [|discriminate H].
  apply slice_from_inv in E4. destruct E4 as (E4 & ->).
  apply payload_size in H. destruct H as (Hp & Hs).
  unfold len in Hp. cbn [vis] in Hp. rewrite length_skipn in Hp.
  unfold len in *. lia.
Qed.

Lemma parseDeliverMessage_needs_header_witness :
  parseDeliverMessage (of_list hello_tpdu) = Ok (hello_msg, 24)
  /\ 13 + addr_octets (of_list hello_tpdu) <= len (of_list hello_tpdu).
Proof.
  assert (H : parseDeliverMessage (of_list hello_tpdu) = Ok (hello_msg, 24))
    by (vm_compute; reflexivity).
  split; [exact H|].
  exact (proj1 (proj2 (parseDeliverMessage_needs_header _ _ _ H))).
Defined.
